(** * MAM GIF plugins: a shallow embedding and its properties

  The development follows the sources of the repository:
  - [userplugins/mag/native.ts]: the privileged-process relay [fetchMagApi];
  - the picker-tab plugin in its two generations (direct [fetch] and
    relayed through [fetchMagApi]), whose component is [MamView];
  - the tab injection engine shared by the picker-tab plugins
    ([findPickerEntries], [getMamIds], [resolveSamplePanel],
    [ensureMamPanel], [setMamActive], [injectMamTab], [scanForPicker],
    [stop]);
  - the chat-bar plugin, whose component is [MyAnimeGifModal].

  JavaScript strings are [string]s of code units below 256; numbers that
  the code handles (HTTP statuses, page numbers, counters) are integers. *)

From Stdlib Require Import ZArith String Ascii List Bool Lia DecimalString
DecimalNat DecimalFacts.
From stdpp Require Import base option gmap strings list.

Open Scope string_scope.
Set Warnings "-register-all".

(** ** JavaScript values the plugins handle *)

Module Js.

(** The decimal digits of an integer: [String(n)] for the integers the
    plugins count with (statuses, pages). *)
Definition string_of_Z (z : Z) : string := NilZero.string_of_int (Z.to_int z).
Definition string_of_nat (n : nat) : string := NilZero.string_of_uint (Nat.to_uint n).

(** White space of [String.prototype.trim] among the code units below 256:
    TAB, LF, VT, FF, CR, SPACE and NBSP. *)
Definition is_white (c : ascii) : bool :=
  let n := nat_of_ascii c in
  ((9 <=? n) && (n <=? 13) || (n =? 32) || (n =? 160))%nat.

Fixpoint trim_start (s : string) : string :=
  match s with
  | String c s' => if is_white c then trim_start s' else s
  | EmptyString => EmptyString
  end.

(** Drops the trailing white space: a character is kept when it is not
    white space or when something is kept after it. *)
Fixpoint trim_end (s : string) : string :=
  match s with
  | String c s' =>
      match trim_end s' with
      | EmptyString => if is_white c then EmptyString else String c EmptyString
      | t => String c t
      end
  | EmptyString => EmptyString
  end.

Definition trim (s : string) : string := trim_end (trim_start s).

Fixpoint all_white (s : string) : bool :=
  match s with
  | String c s' => is_white c && all_white s'
  | EmptyString => true
  end.

(** [s.includes(sub)], the test of the selector [[id*="sub"]]. *)
Fixpoint includes (sub s : string) : bool :=
  String.prefix sub s ||
  match s with
  | String _ s' => includes sub s'
  | EmptyString => false
  end.

(** [s.endsWith(sub)], the test of the selector [[id$="sub"]]. *)
Fixpoint ends_with (sub s : string) : bool :=
  String.eqb sub s ||
  match s with
  | String _ s' => ends_with sub s'
  | EmptyString => false
  end.

(** Truthiness of a string: only the empty string is falsy. *)
Definition truthy_string (s : string) : bool := negb (String.eqb s "").

(** The serializer of [URLSearchParams] (application/x-www-form-urlencoded)
    on a name or a value: a space becomes "+"; the ASCII letters and
    digits and "*", "-", "." and "_" stay; every other code unit is
    written as the bytes of its UTF-8 encoding, each byte as "%" and two
    upper-case hexadecimal digits. *)
Definition hex_digit (n : nat) : ascii :=
  ascii_of_nat (if (n <? 10)%nat then 48 + n else 55 + n).

Definition percent_byte (n : nat) : string :=
  String "%"%char
    (String (hex_digit (n / 16)) (String (hex_digit (n mod 16)) EmptyString)).

Definition form_plain (n : nat) : bool :=
  ((48 <=? n) && (n <=? 57) || (65 <=? n) && (n <=? 90) || (97 <=? n) && (n <=? 122)
   || (n =? 42) || (n =? 45) || (n =? 46) || (n =? 95))%nat.

Definition form_encode_unit (c : ascii) : string :=
  let n := nat_of_ascii c in
  if (n =? 32)%nat then "+"
  else if form_plain n then String c EmptyString
  else if (n <? 128)%nat then percent_byte n
  else percent_byte (192 + n / 64) +:+ percent_byte (128 + n mod 64).

Fixpoint form_encode (s : string) : string :=
  match s with
  | String c s' => form_encode_unit c +:+ form_encode s'
  | EmptyString => EmptyString
  end.

(** A parsed JSON document. *)
Inductive json : Type :=
| JNull
| JBool (b : bool)
| JNum (z : Z)
| JStr (s : string)
| JArr (items : list json)
| JObj (fields : list (string * json)).

(** What a [catch] clause receives: an [Error] instance with its
    [message], or any other value with its [String(...)] rendering. *)
Inductive thrown : Type :=
| ErrorObj (message : string)
| OtherValue (rendering : string).

(** Computations that return or throw. *)
Inductive result (A : Type) : Type :=
| Ok (a : A)
| Throw (t : thrown).
Arguments Ok {A} a.
Arguments Throw {A} t.

Definition bind {A B} (m : result A) (k : A -> result B) : result B :=
  match m with
  | Ok a => k a
  | Throw t => Throw t
  end.

Definition try_catch {A} (body : result A) (handler : thrown -> result A) : result A :=
  match body with
  | Ok a => Ok a
  | Throw t => handler t
  end.

(** [err instanceof Error ? err.message : fallback err]. *)
Definition message_or (fallback : string -> string) (t : thrown) : string :=
  match t with
  | ErrorObj m => m
  | OtherValue r => fallback r
  end.

(** [o.k] on a parsed JSON value: reading a property of [null] throws a
    [TypeError]; a key that is absent reads as [undefined] ([None]). *)
Fixpoint assoc (k : string) (fields : list (string * json)) : option json :=
  match fields with
  | [] => None
  | (k', v) :: rest => if String.eqb k k' then Some v else assoc k rest
  end.

(** Later duplicates of a key win in [JSON.parse]. *)
Definition field (k : string) (fields : list (string * json)) : option json :=
  assoc k (rev fields).

Definition get_prop (j : json) (k : string) : result (option json) :=
  match j with
  | JNull => Throw (ErrorObj ("Cannot read properties of null (reading '" +:+ k +:+ "')"))
  | JObj fields => Ok (field k fields)
  | _ => Ok None
  end.

(** [o?.k] on a value that may be [undefined]. *)
Definition get_opt_prop (j : option json) (k : string) : option json :=
  match j with
  | Some (JObj fields) => field k fields
  | _ => None
  end.

(** Truthiness of a JSON value that may be [undefined]. *)
Definition truthy (j : option json) : bool :=
  match j with
  | None | Some JNull => false
  | Some (JBool b) => b
  | Some (JNum z) => negb (z =? 0)%Z
  | Some (JStr s) => truthy_string s
  | Some (JArr _) | Some (JObj _) => true
  end.

(** The Number that a non-negative integer of a JSON text denotes, as the
    integer it is: the nearest double, ties to the even significand;
    [None] is [Infinity]. *)
Definition to_double (a : Z) : option Z :=
  if (a <? 2 ^ 53)%Z then Some a
  else
    let q := (2 ^ (Z.log2 a - 52))%Z in
    let m := (a / q)%Z in
    let rest := (a mod q)%Z in
    let half := (q / 2)%Z in
    let m := if (half <? rest)%Z || ((rest =? half)%Z && Z.odd m)
             then (m + 1)%Z else m in
    if (m * q <? 2 ^ 1024)%Z then Some (m * q)%Z else None.

(** [Number::toString] on a positive integer double [x] that has [D]
    decimal digits: the integers [s] of [k] digits and [n] with
    [s * 10^(n-k)] denoting [x], for the least [k] there is; of several
    [s] the closest to [x], and of two as close the even one. *)
Definition denotes (x k : Z) (c : Z * Z) : bool :=
  let '(s, n) := c in
  ((10 ^ (k - 1) <=? s) && (s <? 10 ^ k))%Z
  && match to_double (s * 10 ^ (n - k)) with
     | Some v => (v =? x)%Z
     | None => false
     end.

Definition closer (x k : Z) (best c : Z * Z) : Z * Z :=
  let far (c : Z * Z) := Z.abs (fst c * 10 ^ (snd c - k) - x) in
  if (far c <? far best)%Z
     || ((far c =? far best)%Z && Z.even (fst c) && Z.odd (fst best))
  then c else best.

Definition shortest_at (x D k : Z) : option (Z * Z) :=
  let at_length (n : Z) : list (Z * Z) :=
    if (k <=? n)%Z
    then [((x / 10 ^ (n - k))%Z, n); ((x / 10 ^ (n - k) + 1)%Z, n)]
    else [] in
  match List.filter (denotes x k) (at_length D ++ at_length (D + 1)%Z) with
  | [] => None
  | c :: rest => Some (fold_left (closer x k) rest c)
  end.

Fixpoint shortest (fuel : nat) (x D k : Z) : option (Z * Z * Z) :=
  match fuel with
  | O => None
  | S fuel =>
      match shortest_at x D k with
      | Some (s, n) => Some (s, k, n)
      | None => shortest fuel x D (k + 1)%Z
      end
  end.

Fixpoint zeros (n : nat) : string :=
  match n with
  | O => ""
  | S n => String "0"%char (zeros n)
  end.

(** [String(n)] for the Number an integer of a JSON text denotes: the
    digits of its shortest decimal form, followed by zeros below 10^21
    and in exponent notation from there on. Seventeen digits denote any
    double. *)
Definition number_to_string (z : Z) : string :=
  if (z =? 0)%Z then "0"
  else
    let sign := if (z <? 0)%Z then "-" else "" in
    match to_double (Z.abs z) with
    | None => sign +:+ "Infinity"
    | Some x =>
        let D := Z.of_nat (String.length (string_of_Z x)) in
        match shortest 17 x D 1 with
        | Some (s, k, n) =>
            if (n <=? 21)%Z
            then sign +:+ string_of_Z s +:+ zeros (Z.to_nat (n - k))
            else
              match string_of_Z s with
              | String c EmptyString =>
                  sign +:+ String c ("e+" +:+ string_of_Z (n - 1))
              | String c more =>
                  sign +:+ String c ("." +:+ more +:+ "e+" +:+ string_of_Z (n - 1))
              | EmptyString => sign
              end
        | None => sign +:+ string_of_Z x
        end
    end.

(** [String(v)] on a JSON value. *)
Fixpoint to_string (j : json) : string :=
  match j with
  | JNull => "null"
  | JBool true => "true"
  | JBool false => "false"
  | JNum z => number_to_string z
  | JStr s => s
  | JArr items =>
      (fix join (l : list json) : string :=
         match l with
         | [] => ""
         | [x] => match x with JNull => "" | _ => to_string x end
         | x :: rest =>
             (match x with JNull => "" | _ => to_string x end) +:+ "," +:+ join rest
         end) items
  | JObj _ => "[object Object]"
  end.

End Js.

Import Js.

Notation "'let*' x ':=' m 'in' k" := (Js.bind m (fun x => k))
(at level 10, x name, k at level 200).

(** ** HTTP as the plugins see it *)

Module Http.

(** [RequestInit]: the options the plugins pass to [fetch]. [signal] is
    the number of the [AbortController] whose signal is attached. *)
Record options : Type := Options {
  headers : list (string * string);
  signal : option nat
}.

(** A received response: its status line and what reading its body gives.
    [body_json] is the outcome of [res.json()]; [body_text_after] is the
    outcome of [res.text()] once [res.json()] has been attempted. *)
Record response : Type := Response {
  status : Z;
  statusText : string;
  body_json : result json;
  body_text_after : result string
}.

(** [res.ok]: the status is in the range 200-299. *)
Definition ok (r : response) : bool := ((200 <=? status r) && (status r <=? 299))%Z.

End Http.

(** ** The native fetch bridge ([native.ts]) *)

Module Bridge.

(** The record the relay returns. *)
Record envelope : Type := Envelope {
  ok : bool;
  status : Z;
  statusText : string;
  data : json
}.

Section Relay.
(** The network: what [fetch(url, options)] settles to. *)
Variable fetch : string -> option Http.options -> result Http.response.

Definition fetchMagApi (url : string) (options : option Http.options) : result envelope :=
  try_catch
    (let* res := fetch url options in
     let* data := Http.body_json res in
     Ok {| ok := Http.ok res;
           status := Http.status res;
           statusText := Http.statusText res;
           data := data |})
    (fun error =>
       Ok {| ok := false;
             status := (-1)%Z;
             statusText := "Network Error";
             data := JObj [("error", JStr (message_or (fun r => r) error))] |}).
End Relay.

(** The network-failure envelope. *)
Definition failure (message : string) : envelope :=
  {| ok := false; status := (-1)%Z; statusText := "Network Error";
     data := JObj [("error", JStr message)] |}.

End Bridge.

(** ** The host document *)

Module Dom.

(** An element: its identity (the object reference of the source), its
    attributes (the [dataset] entries are the [data-*] attributes), its
    class list, its inline style and its own text. *)
Record elem : Type := Elem {
  nid : nat;
  attrs : gmap string string;
  classes : list string;
  style : gmap string string;
  text : string
}.

Inductive node : Type :=
| Node (e : elem) (kids : list node).

Definition root_elem (n : node) : elem := match n with Node e _ => e end.

(** *** Reading and writing one element *)

Definition getAttribute (k : string) (e : elem) : option string := attrs e !! k.

Definition hasAttribute (k : string) (e : elem) : bool :=
  match attrs e !! k with Some _ => true | None => false end.

Definition attr_is (k v : string) (e : elem) : bool :=
  match attrs e !! k with Some v' => String.eqb v' v | None => false end.

Definition setAttribute (k v : string) (e : elem) : elem :=
  {| nid := nid e; attrs := <[k := v]> (attrs e); classes := classes e;
     style := style e; text := text e |}.

Definition removeAttribute (k : string) (e : elem) : elem :=
  {| nid := nid e; attrs := delete k (attrs e); classes := classes e;
     style := style e; text := text e |}.

(** [e.id]: the attribute, or the empty string. *)
Definition elem_id (e : elem) : string := default "" (attrs e !! "id").

(** [e.style.prop]: the empty string when the property is not set. *)
Definition get_style (prop : string) (e : elem) : string := default "" (style e !! prop).

(** [e.style.prop = v]: the empty string removes the property. *)
Definition set_style (prop v : string) (e : elem) : elem :=
  {| nid := nid e; attrs := attrs e; classes := classes e;
     style := if String.eqb v "" then delete prop (style e) else <[prop := v]> (style e);
     text := text e |}.

Definition classList_add (name : string) (e : elem) : elem :=
  {| nid := nid e; attrs := attrs e;
     classes := if existsb (String.eqb name) (classes e) then classes e
                else classes e ++ [name];
     style := style e; text := text e |}.

Definition classList_remove (name : string) (e : elem) : elem :=
  {| nid := nid e; attrs := attrs e;
     classes := List.filter (fun c => negb (String.eqb name c)) (classes e);
     style := style e; text := text e |}.

(** *** The tree in document order *)

(** Every element with its ancestors, the parent first. *)
Abbreviation located := (elem * list elem)%type.

Fixpoint walk (anc : list elem) (n : node) : list located :=
  match n with
  | Node e kids => (e, anc) :: flat_map (walk (e :: anc)) kids
  end.

Definition elements (d : node) : list located := walk [] d.

Definition has_nid (n : nat) (e : elem) : bool := Nat.eqb (nid e) n.

(** The element a reference denotes, while it is in the document. *)
Definition locate (n : nat) (d : node) : option located :=
  List.find (fun x => has_nid n (fst x)) (elements d).

Definition isConnected (n : nat) (d : node) : bool :=
  match locate n d with Some _ => true | None => false end.

Definition parentElement (x : located) : option elem := head (snd x).

(** [x.closest(sel)]: the element itself or its nearest ancestor. *)
Definition closest (sel : elem -> bool) (x : located) : option elem :=
  List.find sel (fst x :: snd x).

(** [x] is below the element [n]. *)
Definition below (n : nat) (x : located) : bool := existsb (has_nid n) (snd x).

(** [n.contains(x)]: [x] is [n] or below it. *)
Definition contains (n : nat) (x : located) : bool := has_nid n (fst x) || below n x.

(** [document.querySelectorAll(sel)] and [document.querySelector(sel)]. *)
Definition querySelectorAll (sel : elem -> bool) (d : node) : list located :=
  List.filter (fun x => sel (fst x)) (elements d).

Definition querySelector (sel : elem -> bool) (d : node) : option located :=
  List.find (fun x => sel (fst x)) (elements d).

(** [n.querySelectorAll(sel)] and [n.querySelector(sel)] on an element. *)
Definition querySelectorAll_in (n : nat) (sel : elem -> bool) (d : node) : list located :=
  List.filter (fun x => sel (fst x) && below n x) (elements d).

Definition querySelector_in (n : nat) (sel : elem -> bool) (d : node) : option located :=
  List.find (fun x => sel (fst x) && below n x) (elements d).

(** [document.getElementById(id)]. *)
Definition getElementById (id : string) (d : node) : option located :=
  querySelector (attr_is "id" id) d.

(** *** Changing the tree *)

(** Applies [f] to the element a reference denotes. *)
Fixpoint update (n : nat) (f : elem -> elem) (d : node) : node :=
  match d with
  | Node e kids =>
      Node (if has_nid n e then f e else e) (map (update n f) kids)
  end.

(** [parent.appendChild(child)]. *)
Fixpoint appendChild (parent : nat) (child : node) (d : node) : node :=
  match d with
  | Node e kids =>
      let kids' := map (appendChild parent child) kids in
      Node e (if has_nid parent e then kids' ++ [child] else kids')
  end.

(** [n.remove()]. *)
Fixpoint remove (n : nat) (d : node) : node :=
  match d with
  | Node e kids =>
      Node e ((fix prune (ks : list node) : list node :=
                 match ks with
                 | [] => []
                 | k :: ks' =>
                     if has_nid n (root_elem k) then prune ks'
                     else remove n k :: prune ks'
                 end) kids)
  end.

(** Node identities are distinct. *)
Definition nids (d : node) : list nat := map (fun x => nid (fst x)) (elements d).

End Dom.

(** ** The media-picker tab injection engine *)

Module Inject.
Import Dom.

Definition MAM_LABEL := "MAM".
Definition MAM_TAB_ATTR := "data-vc-mam-tab".
Definition MAM_PANEL_ATTR := "data-vc-mam-panel".
Definition MAM_BOUND_ATTR := "data-vc-mam-bound".
Definition MAM_PANEL_ID_ATTR := "data-vc-mam-panel-id".
Definition MAM_TAB_ID_ATTR := "data-vc-mam-tab-id".
Definition MAM_OWNER_ATTR := "data-vc-mam-owner".
(** [dataset.vcMamDisplay] and [dataset.vcMamHidden]. *)
Definition VC_MAM_DISPLAY := "data-vc-mam-display".
Definition VC_MAM_HIDDEN := "data-vc-mam-hidden".

(** The three copies of the engine differ in one line: the second
    generation also sets [overflow: hidden] on the synthetic panel. *)
Inductive generation : Type := TabOnly | Gen1 | Gen2.

(** *** The selectors of the source. Attribute values are compared as the
    selector does when the value has no quote or backslash. *)

Definition sel_picker_panel (e : elem) : bool :=
  match attrs e !! "id" with
  | Some i => ends_with "picker-tab-panel" i || includes "picker-tab-panel" i
  | None => false
  end.
Definition sel_tab (e : elem) : bool := attr_is "role" "tab" e.
Definition sel_tablist (e : elem) : bool := attr_is "role" "tablist" e.
Definition sel_tabpanel (e : elem) : bool := attr_is "role" "tabpanel" e.
Definition sel_controls (id : string) (e : elem) : bool := attr_is "aria-controls" id e.
Definition sel_tab_controls (id : string) (e : elem) : bool :=
  sel_tab e && sel_controls id e.
Definition sel_active_tab (e : elem) : bool :=
  (sel_tab e && attr_is "aria-selected" "true" e)
  || (sel_tab e && attr_is "aria-current" "page" e).
Definition sel_host_tab (e : elem) : bool :=
  sel_tab e && negb (hasAttribute MAM_TAB_ATTR e).
Definition sel_inactive_tab (e : elem) : bool :=
  sel_tab e && negb (attr_is "aria-selected" "true" e)
  && negb (attr_is "aria-current" "page" e).
Definition sel_tab_with_controls (e : elem) : bool :=
  sel_tab e && hasAttribute "aria-controls" e.
Definition sel_mam_tab (e : elem) : bool := hasAttribute MAM_TAB_ATTR e.
Definition sel_mam_panel (e : elem) : bool := hasAttribute MAM_PANEL_ATTR e.
Definition sel_mam_panel_owned (id : string) (e : elem) : bool :=
  hasAttribute MAM_PANEL_ATTR e && attr_is MAM_OWNER_ATTR id e.

(** *** The module state *)

Record entry : Type := Entry {
  tabList : nat;
  sampleTab : nat;
  samplePanel : nat
}.

(** What the closures of one [injectMamTab] call capture. *)
Record binding : Type := Binding {
  b_tabList : nat;
  b_mamTab : nat;
  b_samplePanel : nat;
  b_activeClassNames : list string
}.

Inductive handler : Type :=
| OnMamMouseDown | OnMamClick | OnMamKeyDown | OnTabListClick.

(** An attached listener: its target, its event type and its closure. *)
Record listener : Type := Listener {
  l_target : nat;
  l_type : string;
  l_handler : handler;
  l_binding : binding
}.

#[global] Instance binding_eq_dec : EqDecision binding.
Proof. solve_decision. Defined.
#[global] Instance handler_eq_dec : EqDecision handler.
Proof. solve_decision. Defined.
#[global] Instance listener_eq_dec : EqDecision listener.
Proof. solve_decision. Defined.

(** [doc] is the document; [fresh] the identity of the next node created;
    [cleanupFns], [mamRoots], [observer] and [panelIdCounter] are the
    module variables; [listeners] are the attached listeners and [frames]
    the callbacks given to [requestAnimationFrame]. *)
Record state : Type := State {
  doc : node;
  fresh : nat;
  panelIdCounter : nat;
  cleanupFns : list binding;
  mamRoots : list nat;
  listeners : list listener;
  frames : list binding;
  observer : bool
}.

Definition with_doc (d : node) (s : state) : state :=
  {| doc := d; fresh := fresh s; panelIdCounter := panelIdCounter s;
     cleanupFns := cleanupFns s; mamRoots := mamRoots s;
     listeners := listeners s; frames := frames s; observer := observer s |}.

Definition update_at (n : nat) (f : elem -> elem) (s : state) : state :=
  with_doc (update n f (doc s)) s.

(** *** [findPickerEntries] *)

(** The id of a panel is pasted between double quotes into the selector
    that looks for its tab. The string the selector then holds is the id
    itself when the id has none of the characters that CSS reads
    otherwise inside a string: the double quote, the backslash, a line
    break (LF, FF, CR) and NUL. *)
Definition css_plain_unit (c : ascii) : bool :=
  let n := nat_of_ascii c in
  negb ((n =? 0) || (n =? 10) || (n =? 12) || (n =? 13) || (n =? 34) || (n =? 92))%nat.

Fixpoint css_plain (s : string) : bool :=
  match s with
  | String c s' => css_plain_unit c && css_plain s'
  | EmptyString => true
  end.

(** The documents in which the id of every candidate panel is such a
    string: on them [tab_for] is the pair of [querySelector] calls of the
    source. *)
Definition plain_ids (d : node) : bool :=
  forallb (fun x => implb (sel_picker_panel (fst x)) (css_plain (elem_id (fst x))))
    (elements d).

Definition tab_for (d : node) (panelId : string) : option located :=
  match querySelector (sel_tab_controls panelId) d with
  | Some t => Some t
  | None => querySelector (sel_controls panelId) d
  end.

Definition tablist_of (tab : located) : option elem :=
  match closest sel_tablist tab with
  | Some l => Some l
  | None => parentElement tab
  end.

Fixpoint collect (d : node) (panels : list located) (seen : list nat) : list entry :=
  match panels with
  | [] => []
  | panel :: rest =>
      match tab_for d (elem_id (fst panel)) with
      | None => collect d rest seen
      | Some tab =>
          match tablist_of tab with
          | None => collect d rest seen
          | Some tl =>
              if existsb (Nat.eqb (nid tl)) seen then collect d rest seen
              else {| tabList := nid tl; sampleTab := nid (fst tab);
                      samplePanel := nid (fst panel) |}
                   :: collect d rest (nid tl :: seen)
          end
      end
  end.

Definition findPickerEntries (d : node) : list entry :=
  collect d (querySelectorAll sel_picker_panel d) [].

(** *** [getMamIds] *)

Definition attr_at (n : nat) (k : string) (d : node) : option string :=
  match locate n d with
  | Some x => getAttribute k (fst x)
  | None => None
  end.

Definition hasAttribute_at (n : nat) (k : string) (d : node) : bool :=
  match attr_at n k d with Some _ => true | None => false end.

Definition truthy_attr (v : option string) : bool :=
  match v with Some s => truthy_string s | None => false end.

Definition getMamIds (s : state) (tl : nat) : state * (string * string) :=
  let panelId := attr_at tl MAM_PANEL_ID_ATTR (doc s) in
  let tabId := attr_at tl MAM_TAB_ID_ATTR (doc s) in
  if truthy_attr panelId && truthy_attr tabId then
    (s, (default "" panelId, default "" tabId))
  else
    let id := S (panelIdCounter s) in
    let panelId := "mam-picker-tab-panel-" +:+ string_of_nat id in
    let tabId := "mam-picker-tab-" +:+ string_of_nat id in
    let d := update tl (setAttribute MAM_TAB_ID_ATTR tabId)
               (update tl (setAttribute MAM_PANEL_ID_ATTR panelId) (doc s)) in
    ({| doc := d; fresh := fresh s; panelIdCounter := id;
        cleanupFns := cleanupFns s; mamRoots := mamRoots s;
        listeners := listeners s; frames := frames s; observer := observer s |},
     (panelId, tabId)).

(** *** [resolveSamplePanel] *)

Definition first_some {A} (a b : option A) : option A :=
  match a with Some _ => a | None => b end.

Fixpoint first_panel (d : node) (tabs : list located) : option located :=
  match tabs with
  | [] => None
  | tab :: rest =>
      match getAttribute "aria-controls" (fst tab) with
      | Some id =>
          if truthy_string id then
            match getElementById id d with
            | Some p => Some p
            | None => first_panel d rest
            end
          else first_panel d rest
      | None => first_panel d rest
      end
  end.

Definition resolveSamplePanel (d : node) (tl : nat) (fallback : nat) : option located :=
  let activeTab :=
    first_some (querySelector_in tl sel_active_tab d)
      (first_some (querySelector_in tl sel_host_tab d)
         (querySelector_in tl sel_tab d)) in
  let panelId :=
    match activeTab with
    | Some t => getAttribute "aria-controls" (fst t)
    | None => None
    end in
  let byId :=
    if truthy_attr panelId then getElementById (default "" panelId) d else None in
  match byId with
  | Some p => Some p
  | None =>
      match locate fallback d with
      | Some p => Some p
      | None => first_panel d (querySelectorAll_in tl sel_tab_with_controls d)
      end
  end.

(** *** [getActiveClassNames] *)

Definition lower (c : ascii) : ascii :=
  let n := nat_of_ascii c in
  if ((65 <=? n) && (n <=? 90))%nat then ascii_of_nat (n + 32) else c.

Fixpoint toLowerCase (s : string) : string :=
  match s with
  | String c s' => String (lower c) (toLowerCase s')
  | EmptyString => EmptyString
  end.

Definition getActiveClassNames (d : node) (tl : nat) (sample : option located) : list string :=
  let activeTab := first_some (querySelector_in tl sel_active_tab d) sample in
  let inactiveTab := querySelector_in tl sel_inactive_tab d in
  match activeTab with
  | None => []
  | Some a =>
      match inactiveTab with
      | None =>
          List.filter (fun name => includes "active" (toLowerCase name)) (classes (fst a))
      | Some i =>
          List.filter (fun name => negb (existsb (String.eqb name) (classes (fst i))))
            (classes (fst a))
      end
  end.

(** *** [setTabActiveState] *)

Definition setTabActiveState (active : bool) (activeClassNames : list string) (tab : elem) : elem :=
  let t := setAttribute "aria-selected" (if active then "true" else "false") tab in
  if active then
    fold_left (fun e name => classList_add name e) activeClassNames
      (setAttribute "tabindex" "0" (setAttribute "aria-current" "page" t))
  else
    fold_left (fun e name => classList_remove name e) activeClassNames
      (setAttribute "tabindex" "-1" (removeAttribute "aria-current" t)).

(** *** [ensureMamPanel] *)

Definition container_of (panel : located) : nat :=
  match parentElement panel with
  | Some p => nid p
  | None => nid (fst panel)
  end.

(** [mamRoots.get(panel)?.unmount(); mamRoots.delete(panel); panel.remove()]. *)
Definition drop_panel (panel : nat) (s : state) : state :=
  {| doc := remove panel (doc s); fresh := fresh s;
     panelIdCounter := panelIdCounter s; cleanupFns := cleanupFns s;
     mamRoots := List.filter (fun r => negb (Nat.eqb r panel)) (mamRoots s);
     listeners := listeners s; frames := frames s; observer := observer s |}.

Definition drop_orphan (container : nat) (s : state) (orphan : located) : state :=
  match locate (nid (fst orphan)) (doc s) with
  | Some x => if contains container x then s else drop_panel (nid (fst orphan)) s
  | None => drop_panel (nid (fst orphan)) s
  end.

Definition new_panel (gen : generation) (fresh : nat) (panelId : string) (src : elem) : elem :=
  let e := {| nid := fresh; attrs := attrs src; classes := classes src;
              style := style src; text := "" |} in
  let e := setAttribute MAM_PANEL_ATTR "" e in
  let e := setAttribute MAM_OWNER_ATTR panelId e in
  let e := setAttribute "role" "tabpanel" e in
  let e := setAttribute "id" panelId e in
  let e := set_style "display" "none" e in
  match gen with
  | Gen2 => set_style "overflow" "hidden" e
  | _ => e
  end.

Definition ensureMamPanel (gen : generation) (s : state) (sample : located) (panelId : string)
  : state * nat :=
  let panelContainer := container_of sample in
  let orphanPanels := querySelectorAll (sel_mam_panel_owned panelId) (doc s) in
  let s := fold_left (drop_orphan panelContainer) orphanPanels s in
  match querySelector_in panelContainer sel_mam_panel (doc s) with
  | Some p => (s, nid (fst p))
  | None =>
      let src := match locate (nid (fst sample)) (doc s) with
                 | Some x => fst x
                 | None => fst sample
                 end in
      let mamPanel := new_panel gen (fresh s) panelId src in
      ({| doc := appendChild panelContainer (Node mamPanel []) (doc s);
          fresh := S (fresh s); panelIdCounter := panelIdCounter s;
          cleanupFns := cleanupFns s; mamRoots := fresh s :: mamRoots s;
          listeners := listeners s; frames := frames s; observer := observer s |},
       fresh s)
  end.

(** *** [setMamActive] *)

(** The body of the loop over the sibling panels when [active]. *)
Definition hide_panel (panel : elem) : elem :=
  let display := get_style "display" panel in
  let p := if negb (String.eqb display "none")
           then setAttribute VC_MAM_DISPLAY display panel else panel in
  let p := match getAttribute VC_MAM_HIDDEN p with
           | None => setAttribute VC_MAM_HIDDEN
                       (if hasAttribute "hidden" p then "1" else "0") p
           | Some _ => p
           end in
  setAttribute "hidden" "" (set_style "display" "none" p).

(** The body of the loop over the sibling panels when not [active]. *)
Definition restore_panel (panel : elem) : elem :=
  match getAttribute VC_MAM_DISPLAY panel with
  | None => panel
  | Some display =>
      let p := removeAttribute VC_MAM_DISPLAY (set_style "display" display panel) in
      match getAttribute VC_MAM_HIDDEN p with
      | None => p
      | Some h =>
          removeAttribute VC_MAM_HIDDEN
            (if String.eqb h "1" then setAttribute "hidden" "" p
             else removeAttribute "hidden" p)
      end
  end.

Definition toggle_panel (active : bool) (panel : elem) : elem :=
  if active then hide_panel panel else restore_panel panel.

Definition show_mam_panel (active : bool) (panel : elem) : elem :=
  let p := set_style "display" (if active then "" else "none") panel in
  if active then removeAttribute "hidden" p else setAttribute "hidden" "" p.

Definition update_others (skip : nat) (f : elem -> elem) (l : list located) (d : node) : node :=
  fold_left (fun d x => if has_nid skip (fst x) then d else update (nid (fst x)) f d) l d.

Definition setMamActive (gen : generation) (s : state) (tl : nat) (panel : nat)
    (active : bool) (activeClassNames : list string) : state :=
  match resolveSamplePanel (doc s) tl panel with
  | None => s
  | Some resolvedPanel =>
      let mamTab := querySelector_in tl sel_mam_tab (doc s) in
      let '(s, (panelId, _)) := getMamIds s tl in
      let '(s, mamPanel) := ensureMamPanel gen s resolvedPanel panelId in
      let panelContainer := container_of resolvedPanel in
      let panels := querySelectorAll_in panelContainer sel_tabpanel (doc s) in
      let d := update_others mamPanel (toggle_panel active) panels (doc s) in
      let d :=
        match mamTab with
        | Some t =>
            let d := if active then
                       update_others (nid (fst t)) (setTabActiveState false activeClassNames)
                         (querySelectorAll_in tl sel_tab d) d
                     else d in
            update (nid (fst t)) (setTabActiveState active activeClassNames) d
        | None => d
        end in
      with_doc (update mamPanel (show_mam_panel active) d) s
  end.

(** *** [injectMamTab] and its [cleanup] closure *)

Definition new_tab (fresh : nat) (panelId tabId : string) (activeClassNames : list string)
    (src : elem) : elem :=
  let e := {| nid := fresh; attrs := attrs src; classes := classes src;
              style := style src; text := text src |} in
  let e := setAttribute MAM_TAB_ATTR "" e in
  let e := setAttribute "role" "tab" e in
  let e := setAttribute "aria-controls" panelId e in
  let e := setAttribute "id" tabId e in
  let e := {| nid := nid e; attrs := attrs e; classes := classes e;
              style := style e; text := MAM_LABEL |} in
  setTabActiveState false activeClassNames e.

Definition listeners_of (b : binding) : list listener :=
  [ {| l_target := b_mamTab b; l_type := "mousedown"; l_handler := OnMamMouseDown; l_binding := b |};
    {| l_target := b_mamTab b; l_type := "click"; l_handler := OnMamClick; l_binding := b |};
    {| l_target := b_mamTab b; l_type := "keydown"; l_handler := OnMamKeyDown; l_binding := b |};
    {| l_target := b_tabList b; l_type := "click"; l_handler := OnTabListClick; l_binding := b |} ].

Definition injectMamTab (gen : generation) (s : state) (en : entry) : state :=
  if hasAttribute_at (tabList en) MAM_BOUND_ATTR (doc s) then s
  else
    let s := update_at (tabList en) (setAttribute MAM_BOUND_ATTR "true") s in
    match locate (sampleTab en) (doc s) with
    | None => s
    | Some _ =>
        let '(s, (panelId, tabId)) := getMamIds s (tabList en) in
        let sample := locate (sampleTab en) (doc s) in
        let activeClassNames := getActiveClassNames (doc s) (tabList en) sample in
        match sample with
        | None => s
        | Some src =>
            let mamTab := new_tab (fresh s) panelId tabId activeClassNames (fst src) in
            let b := {| b_tabList := tabList en; b_mamTab := fresh s;
                        b_samplePanel := samplePanel en;
                        b_activeClassNames := activeClassNames |} in
            {| doc := appendChild (tabList en) (Node mamTab []) (doc s);
               fresh := S (fresh s); panelIdCounter := panelIdCounter s;
               cleanupFns := cleanupFns s ++ [b]; mamRoots := mamRoots s;
               listeners := listeners s ++ listeners_of b;
               frames := frames s; observer := observer s |}
        end
    end.

(** The loop of [cleanup] over the panels of the container. *)
Definition restore_display (panel : elem) : elem :=
  match getAttribute VC_MAM_DISPLAY panel with
  | Some display => removeAttribute VC_MAM_DISPLAY (set_style "display" display panel)
  | None => panel
  end.

Definition cleanup (s : state) (b : binding) : state :=
  let ls := List.filter (fun l => negb (bool_decide (l ∈ listeners_of b))) (listeners s) in
  let s := {| doc := doc s; fresh := fresh s; panelIdCounter := panelIdCounter s;
              cleanupFns := cleanupFns s; mamRoots := mamRoots s;
              listeners := ls; frames := frames s; observer := observer s |} in
  let s :=
    match locate (b_samplePanel b) (doc s) with
    | None => s
    | Some sample =>
        let panelContainer := container_of sample in
        let panels := querySelectorAll_in panelContainer sel_tabpanel (doc s) in
        let s := with_doc (fold_left (fun d x => update (nid (fst x)) restore_display d)
                             panels (doc s)) s in
        match querySelector_in panelContainer sel_mam_panel (doc s) with
        | Some mamPanel => drop_panel (nid (fst mamPanel)) s
        | None => s
        end
    end in
  let d := remove (b_mamTab b) (doc s) in
  let d := update (b_tabList b) (removeAttribute MAM_BOUND_ATTR) d in
  let d := update (b_tabList b) (removeAttribute MAM_PANEL_ID_ATTR) d in
  let d := update (b_tabList b) (removeAttribute MAM_TAB_ID_ATTR) d in
  with_doc d s.

(** *** [scanForPicker], [start] and [stop] *)

Definition scanForPicker (gen : generation) (s : state) : state :=
  fold_left (injectMamTab gen) (findPickerEntries (doc s)) s.

Definition initial (d : node) (fresh : nat) : state :=
  {| doc := d; fresh := fresh; panelIdCounter := 0; cleanupFns := [];
     mamRoots := []; listeners := []; frames := []; observer := false |}.

Definition start (gen : generation) (s : state) : state :=
  scanForPicker gen
    {| doc := doc s; fresh := fresh s; panelIdCounter := panelIdCounter s;
       cleanupFns := cleanupFns s; mamRoots := mamRoots s;
       listeners := listeners s; frames := frames s; observer := true |}.

Definition stop (s : state) : state :=
  let s := {| doc := doc s; fresh := fresh s; panelIdCounter := panelIdCounter s;
              cleanupFns := cleanupFns s; mamRoots := mamRoots s;
              listeners := listeners s; frames := frames s; observer := false |} in
  let s' := fold_left cleanup (cleanupFns s) s in
  {| doc := doc s'; fresh := fresh s'; panelIdCounter := panelIdCounter s';
     cleanupFns := []; mamRoots := mamRoots s';
     listeners := listeners s'; frames := frames s'; observer := observer s' |}.

(** *** The listeners and what the host delivers to them *)

Inductive event : Type :=
| Mutation
| MouseDown (target : nat)
| Click (target : nat)
| KeyDown (target : nat) (key : string)
| AnimationFrame.

Definition activate (gen : generation) (b : binding) (s : state) : state :=
  setMamActive gen s (b_tabList b) (b_samplePanel b) true (b_activeClassNames b).

Definition request_frame (b : binding) (s : state) : state :=
  {| doc := doc s; fresh := fresh s; panelIdCounter := panelIdCounter s;
     cleanupFns := cleanupFns s; mamRoots := mamRoots s;
     listeners := listeners s; frames := frames s ++ [b]; observer := observer s |}.

(** One listener called for an event whose target is [target]. *)
Definition call (gen : generation) (target : nat) (key : string) (s : state) (l : listener) : state :=
  let b := l_binding l in
  match l_handler l with
  | OnMamMouseDown => activate gen b s
  | OnMamClick => request_frame b (activate gen b s)
  | OnMamKeyDown =>
      if String.eqb key "Enter" || String.eqb key " " then activate gen b s else s
  | OnTabListClick =>
      match locate target (doc s) with
      | None => s
      | Some t =>
          match closest sel_tab t with
          | None => s
          | Some tab =>
              if hasAttribute MAM_TAB_ATTR tab then s
              else setMamActive gen s (b_tabList b) (b_samplePanel b) false
                     (b_activeClassNames b)
          end
      end
  end.

(** The capturing listeners of one type on the path from the root to the
    target, outermost first. *)
Definition listeners_for (type : string) (target : located) (ls : list listener) : list listener :=
  flat_map
    (fun e => List.filter (fun l => has_nid (l_target l) e && String.eqb (l_type l) type) ls)
    (rev (fst target :: snd target)).

Definition dispatch (gen : generation) (type : string) (target : nat) (key : string) (s : state) : state :=
  match locate target (doc s) with
  | None => s
  | Some t => fold_left (call gen target key) (listeners_for type t (listeners s)) s
  end.

Definition handle (gen : generation) (s : state) (ev : event) : state :=
  match ev with
  | Mutation => if observer s then scanForPicker gen s else s
  | MouseDown target => dispatch gen "mousedown" target "" s
  | Click target => dispatch gen "click" target "" s
  | KeyDown target key => dispatch gen "keydown" target key s
  | AnimationFrame =>
      match frames s with
      | [] => s
      | b :: rest =>
          activate gen b
            {| doc := doc s; fresh := fresh s; panelIdCounter := panelIdCounter s;
               cleanupFns := cleanupFns s; mamRoots := mamRoots s;
               listeners := listeners s; frames := rest; observer := observer s |}
      end
  end.

Definition run (gen : generation) (s : state) (evs : list event) : state :=
  fold_left (handle gen) evs s.

End Inject.

(** ** The picker-tab view [MamView], in its two generations *)

Module Picker.

(** How the view reaches the remote service: the first generation calls
    [fetch] with the controller's signal; the second calls the relay
    [native.fetchMagApi], which [native] says is available or not. *)
Inductive transport : Type :=
| Direct
| Relay (native : bool).

Inductive viewMode : Type := Categories | All | ListMode.

#[global] Instance viewMode_eq_dec : EqDecision viewMode.
Proof. solve_decision. Defined.

Definition API_BASE_URL := "https://www.midevelopment.de/".

(** The query of [url.toString()] after the [searchParams.set] calls:
    the pairs in the order they were set, each name and value in the
    form encoding of [URLSearchParams]. *)
Fixpoint search_params (params : list (string * string)) : string :=
  match params with
  | [] => ""
  | [(k, v)] => form_encode k +:+ "=" +:+ form_encode v
  | (k, v) :: rest =>
      form_encode k +:+ "=" +:+ form_encode v +:+ "&" +:+ search_params rest
  end.

Definition url_of (path : string) (params : list (string * string)) : string :=
  "https://www.midevelopment.de" +:+ path +:+ "?" +:+ search_params params.

(** The promise chain that one run of the fetch effect has started and
    that has not settled: the controller and the page its closure
    captured, and the URL and the options it calls [fetch] or the relay
    with. Without the native handler the chain of the second generation
    makes no call and rejects with [NO_NATIVE] (see [response_data]). *)
Record request : Type := Request {
  r_controller : nat;
  r_page : Z;
  r_url : string;
  r_options : Http.options
}.

#[global] Instance options_eq_dec : EqDecision Http.options.
Proof. solve_decision. Defined.
#[global] Instance request_eq_dec : EqDecision request.
Proof. solve_decision. Defined.

(** The state of the component ([apiKey] is the setting it subscribes to),
    its [abortRef], and what it left with the host: the controllers it
    created and aborted, the controller its pending effect cleanup holds,
    the pending debounce timer with the query it captured, and the
    requests in flight. The saved lists and their previews of the second
    generation are not part of the results state and are left out. *)
Record view : Type := View {
  apiKey : string;
  query : string;
  debouncedQuery : string;
  mode : viewMode;
  selectedListId : option Z;
  items : list json;
  error : option string;
  loading : bool;
  page : Z;
  hasMore : bool;
  abortRef : option nat;
  controllers : nat;
  aborted : list nat;
  cleanupCtl : option nat;
  timer : option string;
  inflight : list request;
  mounted : bool
}.

(** What the user sees of the results. *)
Definition rendered (v : view) : list json * option string * bool * bool :=
  (items v, error v, loading v, hasMore v).

Definition set_results (i : list json) (e : option string) (l : bool) (h : bool) (v : view) : view :=
  {| apiKey := apiKey v; query := query v; debouncedQuery := debouncedQuery v;
     mode := mode v; selectedListId := selectedListId v;
     items := i; error := e; loading := l; page := page v; hasMore := h;
     abortRef := abortRef v; controllers := controllers v; aborted := aborted v;
     cleanupCtl := cleanupCtl v; timer := timer v; inflight := inflight v;
     mounted := mounted v |}.

Definition set_inputs (k q dq : string) (m : viewMode) (sel : option Z) (p : Z)
    (t : option string) (v : view) : view :=
  {| apiKey := k; query := q; debouncedQuery := dq; mode := m; selectedListId := sel;
     items := items v; error := error v; loading := loading v; page := p;
     hasMore := hasMore v;
     abortRef := abortRef v; controllers := controllers v; aborted := aborted v;
     cleanupCtl := cleanupCtl v; timer := t; inflight := inflight v;
     mounted := mounted v |}.

Definition set_net (ref : option nat) (n : nat) (ab : list nat) (c : option nat)
    (fl : list request) (mt : bool) (v : view) : view :=
  {| apiKey := apiKey v; query := query v; debouncedQuery := debouncedQuery v;
     mode := mode v; selectedListId := selectedListId v;
     items := items v; error := error v; loading := loading v; page := page v;
     hasMore := hasMore v;
     abortRef := ref; controllers := n; aborted := ab;
     cleanupCtl := c; timer := timer v; inflight := fl; mounted := mt |}.

Definition is_aborted (c : nat) (v : view) : bool := existsb (Nat.eqb c) (aborted v).

(** [controller.abort()]. *)
Definition abort (c : option nat) (v : view) : view :=
  match c with
  | Some c =>
      if is_aborted c v then v
      else set_net (abortRef v) (controllers v) (c :: aborted v) (cleanupCtl v)
             (inflight v) (mounted v) v
  | None => v
  end.

(** *** The fetch effect *)

Definition request_url (tr : transport) (v : view) : string :=
  match tr, mode v, selectedListId v with
  | Relay _, ListMode, Some id =>
      url_of ("/api/gif-lists/" +:+ string_of_Z id +:+ "/items")
        [("limit", "20"); ("page", string_of_Z (page v)); ("nsfw", "false")]
  | _, _, _ =>
      url_of "/api/gifs"
        ((if truthy_string (debouncedQuery v) then [("q", debouncedQuery v)] else [])
         ++ [("limit", "20"); ("page", string_of_Z (page v)); ("nsfw", "false");
             ("visibility", "published")])
  end.

(** The body of the effect, after React has run the cleanup of its
    previous run. *)
Definition fetch_body (tr : transport) (v : view) : view :=
  let v := abort (abortRef v) v in
  let v := set_net (abortRef v) (controllers v) (aborted v) None (inflight v) (mounted v) v in
  let categories := match tr, mode v with Relay _, Categories => true | _, _ => false end in
  if categories then set_results (items v) (error v) false (hasMore v) v
  else if negb (truthy_string (apiKey v)) then
    set_results [] (Some "Set your MAM API key in the plugin settings.") false false v
  else
    let controller := controllers v in
    let r := {| r_controller := controller; r_page := page v;
                r_url := request_url tr v;
                r_options := {| Http.headers := [("X-API-Key", apiKey v)];
                                Http.signal := match tr with
                                               | Direct => Some controller
                                               | Relay _ => None
                                               end |} |} in
    let v := set_net (Some controller) (S controller) (aborted v) (Some controller)
               (inflight v ++ [r]) (mounted v) v in
    set_results (items v) None true (hasMore v) v.

Definition fetch_effect (tr : transport) (v : view) : view :=
  fetch_body tr (abort (cleanupCtl v) v).

(** *** The promise chain of one request *)

Definition status_message (status : Z) : string :=
  if (status =? 401)%Z then "Invalid API key."
  else "Request failed (" +:+ string_of_Z status +:+ ").".

Definition NO_NATIVE :=
  "Native handler not available. Please ensure you're using Vencord Desktop.".

(** The first two links: the response, then its data or the status error. *)
Definition response_data (tr : transport) (r : request) (net : result Http.response) : result json :=
  match tr with
  | Direct =>
      let* res := net in
      if negb (Http.ok res) then Throw (ErrorObj (status_message (Http.status res)))
      else Http.body_json res
  | Relay native =>
      let* res := (if native
                   then Bridge.fetchMagApi (fun _ _ => net) (r_url r) (Some (r_options r))
                   else Throw (ErrorObj NO_NATIVE)) in
      if negb (Bridge.ok res) then Throw (ErrorObj (status_message (Bridge.status res)))
      else Ok (Bridge.data res)
  end.

Definition next_items (data : json) : result (list json) :=
  let* i := get_prop data "items" in
  Ok (match i with Some (JArr l) => l | _ => [] end).

Definition pagination (data : json) : option json :=
  match get_prop data "pagination" with Ok p => p | Throw _ => None end.

Definition has_more (tr : transport) (data : json) : bool :=
  match tr with
  | Direct => truthy (get_opt_prop (pagination data) "has_more")
  | Relay _ =>
      match get_opt_prop (pagination data) "has_more" with
      | Some (JBool b) => b
      | _ =>
          match get_opt_prop (pagination data) "next_page" with
          | None | Some JNull => false
          | Some _ => true
          end
      end
  end.

Definition chain (tr : transport) (r : request) (net : result Http.response)
  : result (list json * bool) :=
  let* data := response_data tr r net in
  let* next := next_items data in
  Ok (next, has_more tr data).

(** What the network gives to the chain: a [fetch] whose signal is aborted
    rejects with an [AbortError]; the relay is given no signal. *)
Definition ABORT_ERROR := "The user aborted a request.".

Definition outcome (v : view) (r : request) (net : result Http.response)
  : result Http.response :=
  match Http.signal (r_options r) with
  | Some c => if is_aborted c v then Throw (ErrorObj ABORT_ERROR) else net
  | None => net
  end.

Definition forget (r : request) (v : view) : view :=
  set_net (abortRef v) (controllers v) (aborted v) (cleanupCtl v)
    (List.filter (fun r' => negb (bool_decide (r' = r))) (inflight v)) (mounted v) v.

(** The handlers [then], [catch] and [finally] of the request [r]; a
    component that is unmounted takes no state update. *)
Definition settle (tr : transport) (v : view) (r : request) (net : result Http.response) : view :=
  let gone := is_aborted (r_controller r) v in
  let v0 := forget r v in
  if negb (mounted v) then v0
  else
    let v1 :=
      match chain tr r (outcome v r net) with
      | Ok (next, more) =>
          set_results (if (r_page r =? 1)%Z then next else items v0 ++ next)
            (error v0) (loading v0) more v0
      | Throw err =>
          if gone then v0
          else set_results (if (r_page r =? 1)%Z then [] else items v0)
                 (Some (message_or (fun _ => "Request failed.") err))
                 (loading v0) false v0
      end in
    if gone then v1 else set_results (items v1) (error v1) false (hasMore v1) v1.

(** *** Rendering and effects *)

Definition is_relay (tr : transport) : bool :=
  match tr with Relay _ => true | Direct => false end.

Definition reset_deps (v : view) := (debouncedQuery v, apiKey v, selectedListId v, mode v).
Definition fetch_deps (v : view) := (apiKey v, debouncedQuery v, selectedListId v, page v, mode v).
Definition switch_deps (v : view) := (debouncedQuery v, mode v).

(** The effects of one commit, in the order of the source, given which of
    them run: the debounce effect, the page reset, the switch to the [All]
    mode and the fetch effect. The state updates the effects ask for are
    applied after all of them have run. *)
Definition effects_with (tr : transport) (debounce reset switch fetch : bool) (v : view) : view :=
  let v1 := if debounce
            then set_inputs (apiKey v) (query v) (debouncedQuery v) (mode v)
                   (selectedListId v) (page v) (Some (query v)) v
            else v in
  let v2 := if fetch then fetch_effect tr v1 else v1 in
  set_inputs (apiKey v2) (query v2) (debouncedQuery v2)
    (if switch then All else mode v2) (selectedListId v2)
    (if reset then 1%Z else page v2) (timer v2) v2.

(** An effect runs when one of its dependencies changed: [old] is the
    state of the previous render and [v] the state rendered now; [force]
    is the first render. *)
Definition effects (tr : transport) (force : bool) (old v : view) : view :=
  effects_with tr
    (force || negb (bool_decide (query old = query v)))
    (force || negb (bool_decide (reset_deps old = reset_deps v)))
    (is_relay tr
     && (force || negb (bool_decide (switch_deps old = switch_deps v)))
     && truthy_string (debouncedQuery v)
     && negb (bool_decide (mode v = All)))
    (force || negb (bool_decide (fetch_deps old = fetch_deps v)))
    v.

(** Renders and effects until the state settles. *)
Definition commit (tr : transport) (old v : view) : view :=
  let v1 := effects tr false old v in
  let v2 := effects tr false v v1 in
  effects tr false v1 v2.

Definition first_render (tr : transport) (key : string) : view :=
  {| apiKey := key; query := ""; debouncedQuery := "";
     mode := if is_relay tr then Categories else All; selectedListId := None;
     items := []; error := None; loading := false; page := 1%Z; hasMore := false;
     abortRef := None; controllers := 0; aborted := []; cleanupCtl := None;
     timer := None; inflight := []; mounted := true |}.

Definition mount (tr : transport) (key : string) : view :=
  let v := first_render tr key in
  let v1 := effects tr true v v in
  let v2 := effects tr false v v1 in
  effects tr false v1 v2.

(** *** What happens to the view *)

(** [Input]: the text field changes (it is not shown in list mode of the
    second generation); [DebounceTimer]: the 250 ms timer fires; [ApiKey]:
    the setting changes; [SearchAgain]: the Search button of the first
    generation (disabled while loading) or Enter in the field of the
    second; [LoadMore]: the button shown when there is more and nothing
    loads; [CategoryAll], [CategoryList], [Back]: the cards and the back
    control of the second generation; [Settle]: the network answers a
    request in flight; [Unmount]: the view goes away. *)
Inductive event : Type :=
| Input (q : string)
| DebounceTimer
| ApiKey (key : string)
| SearchAgain
| LoadMore
| CategoryAll
| CategoryList (id : Z)
| Back
| Settle (r : request) (net : result Http.response)
| Unmount.

Definition update (v : view) (k q dq : string) (m : viewMode) (sel : option Z) (p : Z) : view :=
  set_inputs k q dq m sel p (timer v) v.

Definition handle (tr : transport) (v : view) (ev : event) : view :=
  if negb (mounted v) then
    match ev with
    | Settle r net => if bool_decide (r ∈ inflight v) then settle tr v r net else v
    | _ => v
    end
  else
    match ev with
    | Input q =>
        if is_relay tr && bool_decide (mode v = ListMode) then v
        else commit tr v (update v (apiKey v) q (debouncedQuery v) (mode v)
                            (selectedListId v) (page v))
    | DebounceTimer =>
        match timer v with
        | Some q =>
            let v' := set_inputs (apiKey v) (query v) (debouncedQuery v) (mode v)
                        (selectedListId v) (page v) None v in
            commit tr v' (update v' (apiKey v) (query v) (trim q) (mode v) (selectedListId v) (page v))
        | None => v
        end
    | ApiKey key =>
        commit tr v (update v key (query v) (debouncedQuery v) (mode v) (selectedListId v) (page v))
    | SearchAgain =>
        if (if is_relay tr then bool_decide (mode v = ListMode) else loading v) then v
        else commit tr v (update v (apiKey v) (query v) (debouncedQuery v) (mode v)
                            (selectedListId v) 1%Z)
    | LoadMore =>
        if negb (loading v) && hasMore v then
          commit tr v (update v (apiKey v) (query v) (debouncedQuery v) (mode v)
                         (selectedListId v) (page v + 1)%Z)
        else v
    | CategoryAll =>
        if is_relay tr && bool_decide (mode v = Categories) then
          commit tr v (update v (apiKey v) "" (debouncedQuery v) All None (page v))
        else v
    | CategoryList id =>
        if is_relay tr && bool_decide (mode v = Categories) then
          commit tr v (update v (apiKey v) "" (debouncedQuery v) ListMode (Some id) (page v))
        else v
    | Back =>
        if is_relay tr && negb (bool_decide (mode v = Categories)) then
          commit tr v (update v (apiKey v) "" (debouncedQuery v) Categories None (page v))
        else v
    | Settle r net =>
        if bool_decide (r ∈ inflight v) then
          let v' := settle tr v r net in commit tr v v'
        else v
    | Unmount =>
        let v := abort (cleanupCtl v) v in
        let v := set_inputs (apiKey v) (query v) (debouncedQuery v) (mode v)
                   (selectedListId v) (page v) None v in
        set_net (abortRef v) (controllers v) (aborted v) None (inflight v) false v
    end.

Definition run (tr : transport) (v : view) (evs : list event) : view :=
  fold_left (handle tr) evs v.

(** *** [onSend] *)

Inductive toast_type : Type := MESSAGE | SUCCESS | FAILURE.

Inductive host_call : Type :=
| SendMessage (channel : string) (content : string)
| ShowToast (message : string) (type : toast_type)
| CloseExpressionPicker
| CloseModal.

(** [channelId] is what [SelectedChannelStore.getChannelId()] returns and
    [public_url] the field of the clicked item. *)
Definition onSend (channelId : option string) (public_url : string) : list host_call :=
  if negb (match channelId with Some c => truthy_string c | None => false end) then [ShowToast "No channel selected." FAILURE]
  else [SendMessage (default "" channelId) public_url; CloseExpressionPicker].

End Picker.

(** ** The chat-bar plugin [MyAnimeGifModal] *)

Module ChatBar.

Record GifItem : Type := {
  id : Z;
  public_url : string
}.

Record GifList : Type := {
  list_id : Z;
  name : string;
  gif_count : Z
}.

Record Pagination : Type := {
  page : Z;
  per_page : Z;
  has_more : bool;
  next_page : option Z
}.

(** [data.pagination] as [runSearch] finds it: the object, or [undefined]
    (no such key) or [null]. *)
Inductive nullish : Type := Undefined | Null.

Inductive paging : Type :=
| Paged (p : Pagination)
| Unpaged (n : nullish).

Record GifListResponse : Type := {
  items : list GifItem;
  pagination : paging
}.

(** The [TypeError] of reading the property [k] of [undefined] or [null]. *)
Definition read_error (n : nullish) (k : string) : thrown :=
  ErrorObj ("Cannot read properties of "
            +:+ (match n with Undefined => "undefined" | Null => "null" end)
            +:+ " (reading '" +:+ k +:+ "')").

(** The parsed body of a response seen at the type [GifListResponse]:
    the fields [runSearch] and the cards read. A body has this view when
    it is an object whose [items] is an array of objects with a number
    [id] and a string [public_url], and whose [pagination] is absent,
    [null], or an object as the interface [Pagination] describes it;
    [has_more] is what [Boolean(...)] makes of the field. *)
Definition as_item (j : json) : option GifItem :=
  match j with
  | JObj fields =>
      match field "id" fields, field "public_url" fields with
      | Some (JNum i), Some (JStr u) => Some {| id := i; public_url := u |}
      | _, _ => None
      end
  | _ => None
  end.

Fixpoint as_items (l : list json) : option (list GifItem) :=
  match l with
  | [] => Some []
  | j :: rest =>
      match as_item j, as_items rest with
      | Some i, Some its => Some (i :: its)
      | _, _ => None
      end
  end.

Definition as_pagination (j : option json) : option paging :=
  match j with
  | None => Some (Unpaged Undefined)
  | Some JNull => Some (Unpaged Null)
  | Some (JObj fields) =>
      match field "page" fields, field "per_page" fields, field "next_page" fields with
      | Some (JNum p), Some (JNum pp), Some next =>
          match next with
          | JNull =>
              Some (Paged {| page := p; per_page := pp;
                             has_more := truthy (field "has_more" fields);
                             next_page := None |})
          | JNum n =>
              Some (Paged {| page := p; per_page := pp;
                             has_more := truthy (field "has_more" fields);
                             next_page := Some n |})
          | _ => None
          end
      | _, _, _ => None
      end
  | Some _ => None
  end.

Definition as_response (body : json) : option GifListResponse :=
  match body with
  | JObj fields =>
      match field "items" fields with
      | Some (JArr l) =>
          match as_items l, as_pagination (field "pagination" fields) with
          | Some its, Some pg => Some {| items := its; pagination := pg |}
          | _, _ => None
          end
      | _ => None
      end
  | _ => None
  end.

Definition SEARCH_LIMIT := 30%Z.
Definition LIST_LIMIT := 20%Z.

(** [raw.slice(0, -1)]. *)
Fixpoint drop_last (s : string) : string :=
  match s with
  | String c EmptyString => EmptyString
  | String c s' => String c (drop_last s')
  | EmptyString => EmptyString
  end.

Fixpoint last_is (c : ascii) (s : string) : bool :=
  match s with
  | String c' EmptyString => Ascii.eqb c c'
  | String _ s' => last_is c s'
  | EmptyString => false
  end.

Definition resolveBaseUrl (baseUrl : string) (useLocalDebug : bool) : string :=
  let raw := if useLocalDebug then "http://127.0.0.1:8000"
             else if truthy_string baseUrl then baseUrl
                  else "https://www.midevelopment.de/" in
  if last_is "/" raw then drop_last raw else raw.

Definition parseErrorResponse (res : Http.response) : string :=
  let detail :=
    match Http.body_json res with
    | Ok json =>
        match get_opt_prop (Some json) "detail" with
        | Some d => if truthy (Some d) then Some (to_string d) else None
        | None => None
        end
    | Throw _ => None
    end in
  match detail with
  | Some message => message
  | None =>
      match Http.body_text_after res with
      | Ok t => t
      | Throw _ => "Request failed (" +:+ string_of_Z (Http.status res) +:+ ")"
      end
  end.

(** What the network gives to [apiGet<T>]: a rejection, or a response
    together with its parsed body seen at the type [T] the call site
    casts it to (for [GifListResponse] the view [as_response] of the
    body). *)
Record reply (T : Type) : Type := Reply {
  response : Http.response;
  typed : T
}.
Arguments Reply {T} response typed.
Arguments response {T} r.
Arguments typed {T} r.

Definition apiGet {T} (net : result (reply T)) : result T :=
  let* r := net in
  if negb (Http.ok (response r)) then Throw (ErrorObj (parseErrorResponse (response r)))
  else let* _ := Http.body_json (response r) in Ok (typed r).

Inductive tab : Type := Search | Lists.

#[global] Instance tab_eq_dec : EqDecision tab.
Proof. solve_decision. Defined.

(** A call of [runSearch] in flight, with what its closure captured. *)
Record search_request : Type := {
  sr_query : string;
  sr_page : Z;
  sr_replace : bool;
  sr_base : string;
  sr_key : string
}.

#[global] Instance search_request_eq_dec : EqDecision search_request.
Proof. solve_decision. Defined.

(** The state of the modal, the settings it subscribes to, and what it
    left with the host: the pending debounce timer with the trimmed query
    it captured, the searches in flight, the number of the current run of
    the preview effect, and the object URLs created and revoked. The
    fetches of the saved lists are left out; the state they fill is kept. *)
Record modal : Type := Modal {
  apiKey : string;
  baseUrl : string;
  useLocalDebug : bool;
  mode : tab;
  query : string;
  searchResults : list GifItem;
  searchLoading : bool;
  searchError : option string;
  searchPage : Z;
  searchHasMore : bool;
  lists : list GifList;
  listError : option string;
  listItems : list GifItem;
  listItemsError : option string;
  previewUrls : gmap Z string;
  previewUrlsRef : gmap Z string;
  timer : option string;
  searches : list search_request;
  previewRun : nat;
  created : list string;
  revoked : list string;
  mounted : bool
}.

Definition apiBaseUrl (m : modal) : string := resolveBaseUrl (baseUrl m) (useLocalDebug m).

Definition set_search (res : list GifItem) (l : bool) (e : option string) (p : Z) (h : bool)
    (m : modal) : modal :=
  {| apiKey := apiKey m; baseUrl := baseUrl m; useLocalDebug := useLocalDebug m;
     mode := mode m; query := query m;
     searchResults := res; searchLoading := l; searchError := e; searchPage := p;
     searchHasMore := h;
     lists := lists m; listError := listError m; listItems := listItems m;
     listItemsError := listItemsError m;
     previewUrls := previewUrls m; previewUrlsRef := previewUrlsRef m;
     timer := timer m; searches := searches m; previewRun := previewRun m;
     created := created m; revoked := revoked m; mounted := mounted m |}.

Definition set_lists (ls : list GifList) (le : option string) (li : list GifItem)
    (lie : option string) (m : modal) : modal :=
  {| apiKey := apiKey m; baseUrl := baseUrl m; useLocalDebug := useLocalDebug m;
     mode := mode m; query := query m;
     searchResults := searchResults m; searchLoading := searchLoading m;
     searchError := searchError m; searchPage := searchPage m;
     searchHasMore := searchHasMore m;
     lists := ls; listError := le; listItems := li; listItemsError := lie;
     previewUrls := previewUrls m; previewUrlsRef := previewUrlsRef m;
     timer := timer m; searches := searches m; previewRun := previewRun m;
     created := created m; revoked := revoked m; mounted := mounted m |}.

Definition set_previews (urls ref : gmap Z string) (run : nat) (cr rv : list string)
    (m : modal) : modal :=
  {| apiKey := apiKey m; baseUrl := baseUrl m; useLocalDebug := useLocalDebug m;
     mode := mode m; query := query m;
     searchResults := searchResults m; searchLoading := searchLoading m;
     searchError := searchError m; searchPage := searchPage m;
     searchHasMore := searchHasMore m;
     lists := lists m; listError := listError m; listItems := listItems m;
     listItemsError := listItemsError m;
     previewUrls := urls; previewUrlsRef := ref;
     timer := timer m; searches := searches m; previewRun := run;
     created := cr; revoked := rv; mounted := mounted m |}.

Definition set_input (k b : string) (dbg : bool) (t : tab) (q : string) (m : modal) : modal :=
  {| apiKey := k; baseUrl := b; useLocalDebug := dbg; mode := t; query := q;
     searchResults := searchResults m; searchLoading := searchLoading m;
     searchError := searchError m; searchPage := searchPage m;
     searchHasMore := searchHasMore m;
     lists := lists m; listError := listError m; listItems := listItems m;
     listItemsError := listItemsError m;
     previewUrls := previewUrls m; previewUrlsRef := previewUrlsRef m;
     timer := timer m; searches := searches m; previewRun := previewRun m;
     created := created m; revoked := revoked m; mounted := mounted m |}.

Definition set_host (t : option string) (rs : list search_request) (mt : bool) (m : modal) : modal :=
  {| apiKey := apiKey m; baseUrl := baseUrl m; useLocalDebug := useLocalDebug m;
     mode := mode m; query := query m;
     searchResults := searchResults m; searchLoading := searchLoading m;
     searchError := searchError m; searchPage := searchPage m;
     searchHasMore := searchHasMore m;
     lists := lists m; listError := listError m; listItems := listItems m;
     listItemsError := listItemsError m;
     previewUrls := previewUrls m; previewUrlsRef := previewUrlsRef m;
     timer := t; searches := rs; previewRun := previewRun m;
     created := created m; revoked := revoked m; mounted := mt |}.

(** *** [runSearch] *)

(** The call, up to its [await]. *)
Definition runSearch (searchQuery : string) (page : Z) (replace : bool) (m : modal) : modal :=
  let r := {| sr_query := searchQuery; sr_page := page; sr_replace := replace;
              sr_base := apiBaseUrl m; sr_key := apiKey m |} in
  set_host (timer m) (searches m ++ [r]) (mounted m)
    (set_search (searchResults m) true None (searchPage m) (searchHasMore m) m).

(** The call, from its [await] on; a modal that is closed takes no state
    update. When the body has no [pagination], [data.pagination.page]
    throws after [setSearchResults] has been called: the results are
    updated and the error is the one of the [TypeError]. *)
Definition search_settled (r : search_request) (net : result (reply GifListResponse))
    (m : modal) : modal :=
  let m0 := set_host (timer m)
              (List.filter (fun r' => negb (bool_decide (r' = r))) (searches m))
              (mounted m) m in
  if negb (mounted m) then m0
  else
    match apiGet net with
    | Ok data =>
        let results :=
          if sr_replace r then items data
          else (searchResults m0 ++ items data)%list in
        match pagination data with
        | Paged p =>
            set_search results false (searchError m0) (page p) (has_more p) m0
        | Unpaged n =>
            set_search results false
              (Some (message_or (fun _ => "Search failed") (read_error n "page")))
              (searchPage m0) (searchHasMore m0) m0
        end
    | Throw err =>
        set_search (searchResults m0) false
          (Some (message_or (fun _ => "Search failed") err))
          (searchPage m0) (searchHasMore m0) m0
    end.

(** *** The effects *)

(** The effect on [apiBaseUrl, apiKey]. *)
Definition credentials_effect (m : modal) : modal :=
  set_previews ∅ (previewUrlsRef m) (previewRun m) (created m) (revoked m)
    (set_lists [] None [] None
       (set_search [] (searchLoading m) None (searchPage m) (searchHasMore m) m)).

(** The effect on [query, mode, runSearch], after the cleanup of its
    previous run has cleared the timer. *)
Definition search_effect (m : modal) : modal :=
  let m := set_host None (searches m) (mounted m) m in
  match mode m with
  | Lists => m
  | Search =>
      let trimmed := trim (query m) in
      if negb (truthy_string trimmed) then
        set_search [] (searchLoading m) None (searchPage m) false m
      else set_host (Some trimmed) (searches m) (mounted m) m
  end.

(** The effect on [previewUrls]. *)
Definition ref_effect (m : modal) : modal :=
  set_previews (previewUrls m) (previewUrls m) (previewRun m) (created m) (revoked m) m.

(** The effect on [mode, searchResults, listItems, apiBaseUrl, apiKey]:
    its cleanup cancels the run before, and a new run starts. *)
Definition preview_effect (m : modal) : modal :=
  set_previews (previewUrls m) (previewUrlsRef m) (S (previewRun m)) (created m) (revoked m) m.

Definition credentials (m : modal) := (apiBaseUrl m, apiKey m).
Definition search_deps (m : modal) := (query m, mode m, credentials m).

(** The effects of one commit, in the order of the source, given which of
    them run: the one on [previewUrls], the search effect, the preview
    effect and the one on the credentials. The state updates they ask for
    are applied after all of them have run. *)
Definition effects_with (sync srch prev cred : bool) (m : modal) : modal :=
  let m1 := if sync then ref_effect m else m in
  let m2 := if srch then search_effect m1 else m1 in
  let m3 := if prev then preview_effect m2 else m2 in
  if cred then credentials_effect m3 else m3.

Definition credentials_changed (force : bool) (old m : modal) : bool :=
  force || negb (bool_decide (credentials old = credentials m)).
Definition search_changed (force : bool) (old m : modal) : bool :=
  force || negb (bool_decide (search_deps old = search_deps m)).
Definition previews_changed (force : bool) (old m : modal) : bool :=
  force || negb (bool_decide (previewUrls old = previewUrls m)).
Definition mode_changed (old m : modal) : bool :=
  negb (bool_decide (mode old = mode m)).

(** An effect runs when one of its dependencies changed: [old] is the
    state of the previous render and [m] the state rendered now; [force]
    is the first render. Arrays are compared by reference: [changed] says
    that a setter gave [searchResults] or [listItems] a new array, and the
    boolean returned says that an effect of this commit did. *)
Definition effects (force : bool) (changed : bool) (old m : modal) : modal * bool :=
  let cred := credentials_changed force old m in
  let srch := search_changed force old m in
  (effects_with (previews_changed force old m) srch
     (force || changed || cred || mode_changed old m) cred m,
   cred || (srch && bool_decide (mode m = Search)
            && negb (truthy_string (trim (query m))))).

(** Renders and effects until the state settles. *)
Definition commit (changed : bool) (old m : modal) : modal :=
  let '(m1, again) := effects false changed old m in
  fst (effects false again m m1).

Definition open (key base : string) (dbg : bool) : modal :=
  let m := {| apiKey := key; baseUrl := base; useLocalDebug := dbg;
              mode := Search; query := "";
              searchResults := []; searchLoading := false; searchError := None;
              searchPage := 1%Z; searchHasMore := false;
              lists := []; listError := None; listItems := []; listItemsError := None;
              previewUrls := ∅; previewUrlsRef := ∅;
              timer := None; searches := []; previewRun := 0;
              created := []; revoked := []; mounted := true |} in
  let '(m1, again) := effects true true m m in
  fst (effects false again m m1).

(** *** [handleSend] *)

(** [channel] is the id of what [getCurrentChannel()] returns. *)
Definition handleSend (channel : option string) (gif : GifItem) (m : modal)
  : modal * list Picker.host_call :=
  match channel with
  | None => (m, [])
  | Some id => (m, [Picker.SendMessage id (public_url gif); Picker.CloseModal])
  end.

(** *** What happens to the modal *)

(** [SetQuery]: the text field changes; [SetMode]: one of the two mode
    buttons; [Settings]: the settings change; [SearchTimer]: the 350 ms
    timer fires; [SearchSettled]: the network answers a search in flight;
    [LoadMore]: the button in search mode; [PreviewLoaded]: the preview
    of one item has arrived for the run [run] of the preview effect and
    [handle] is the object URL the host would create for it; [Close]:
    the modal goes away. *)
Inductive event : Type :=
| SetQuery (q : string)
| SetMode (t : tab)
| Settings (key base : string) (dbg : bool)
| SearchTimer
| SearchSettled (r : search_request) (net : result (reply GifListResponse))
| LoadMore
| PreviewLoaded (run : nat) (gif : Z) (handle : string)
| Close.

Definition handle (m : modal) (ev : event) : modal :=
  if negb (mounted m) then
    match ev with
    | SearchSettled r net =>
        if bool_decide (r ∈ searches m) then search_settled r net m else m
    | _ => m
    end
  else
    match ev with
    | SetQuery q =>
        if bool_decide (mode m = Search)
        then commit false m (set_input (apiKey m) (baseUrl m) (useLocalDebug m) (mode m) q m)
        else m
    | SetMode t =>
        commit false m (set_input (apiKey m) (baseUrl m) (useLocalDebug m) t (query m) m)
    | Settings key base dbg =>
        commit false m (set_input key base dbg (mode m) (query m) m)
    | SearchTimer =>
        match timer m with
        | Some trimmed =>
            let m' := set_host None (searches m) (mounted m) m in
            commit false m' (runSearch trimmed 1%Z true m')
        | None => m
        end
    | SearchSettled r net =>
        if bool_decide (r ∈ searches m)
        then commit (match apiGet net with Ok _ => true | Throw _ => false end)
               m (search_settled r net m)
        else m
    | LoadMore =>
        if bool_decide (mode m = Search) && searchHasMore m && negb (searchLoading m)
        then commit false m (runSearch (trim (query m)) (searchPage m + 1)%Z false m)
        else m
    | PreviewLoaded run gif h =>
        if Nat.eqb run (previewRun m) then
          commit false m
            (set_previews (<[gif := h]> (previewUrls m)) (previewUrlsRef m)
               (previewRun m) (h :: created m) (revoked m) m)
        else m
    | Close =>
        let m := set_previews (previewUrls m) (previewUrlsRef m) (S (previewRun m))
                   (created m)
                   (revoked m ++ map snd (map_to_list (previewUrlsRef m))) m in
        set_host None (searches m) false m
    end.

Definition run (m : modal) (evs : list event) : modal := fold_left handle evs m.

End ChatBar.

(** ** Concrete inputs *)

Module Examples.

(** A response with a JSON body. *)
Definition json_response (status : Z) (statusText : string) (body : json) : Http.response :=
  {| Http.status := status; Http.statusText := statusText;
     Http.body_json := Ok body;
     Http.body_text_after := Throw (ErrorObj "body stream already read") |}.

Definition invalid_key_body : json := JObj [("detail", JStr "Invalid API key")].
Definition unauthorized : Http.response := json_response 401 "Unauthorized" invalid_key_body.
Definition unavailable : Http.response := json_response 503 "Service Unavailable" (JObj []).

(** *** The chat-bar modal *)

Definition gif_a : ChatBar.GifItem := {| ChatBar.id := 7; ChatBar.public_url := "https://x/7" |}.
Definition gif_b : ChatBar.GifItem := {| ChatBar.id := 8; ChatBar.public_url := "https://x/8" |}.

Definition one_page (its : list ChatBar.GifItem) : ChatBar.GifListResponse :=
  {| ChatBar.items := its;
     ChatBar.pagination :=
       ChatBar.Paged {| ChatBar.page := 1; ChatBar.per_page := 30;
                        ChatBar.has_more := false;
                        ChatBar.next_page := None |} |}.

(** The body the service sends for that page. *)
Definition item_json (g : ChatBar.GifItem) : json :=
  JObj [("id", JNum (ChatBar.id g)); ("public_url", JStr (ChatBar.public_url g));
        ("nsfw", JBool false); ("published", JBool true);
        ("created_at", JStr "2026-01-01T00:00:00Z")].

Definition page_json (its : list ChatBar.GifItem) : json :=
  JObj [("items", JArr (map item_json its));
        ("pagination", JObj [("page", JNum 1); ("per_page", JNum 30);
                             ("has_more", JBool false); ("next_page", JNull)])].

Definition found (its : list ChatBar.GifItem) : result (ChatBar.reply ChatBar.GifListResponse) :=
  Ok (ChatBar.Reply (json_response 200 "OK" (page_json its)) (one_page its)).

Definition search_for (q : string) : ChatBar.search_request :=
  {| ChatBar.sr_query := q; ChatBar.sr_page := 1; ChatBar.sr_replace := true;
     ChatBar.sr_base := "https://www.midevelopment.de"; ChatBar.sr_key := "k1" |}.

Definition modal_opened : ChatBar.modal := ChatBar.open "k1" "" false.

(** The search for "cat" has shown item 7 and its preview has arrived. *)
Definition modal_with_preview : ChatBar.modal :=
  ChatBar.run modal_opened
    [ChatBar.SetQuery "cat"; ChatBar.SearchTimer;
     ChatBar.SearchSettled (search_for "cat") (found [gif_a]);
     ChatBar.PreviewLoaded 3 7 "blob:7"].

(** Two searches in flight: "a", then "b". *)
Definition modal_two_searches : ChatBar.modal :=
  ChatBar.run modal_opened
    [ChatBar.SetQuery "a"; ChatBar.SearchTimer;
     ChatBar.SetQuery "b"; ChatBar.SearchTimer].

(** *** The host document: a picker with two tabs, the panel of the
    selected one, and a second panel that the host keeps out of display *)

Definition el (n : nat) (a : list (string * string)) (c : list string)
    (st : list (string * string)) : Dom.elem :=
  {| Dom.nid := n; Dom.attrs := list_to_map a; Dom.classes := c;
     Dom.style := list_to_map st; Dom.text := "" |}.

Definition picker : Dom.node :=
  Dom.Node (el 0 [] [] [])
    [ Dom.Node (el 1 [] [] [])
        [ Dom.Node (el 2 [("role", "tablist")] [] [])
            [ Dom.Node (el 3 [("role", "tab"); ("id", "gif-picker-tab");
                              ("aria-controls", "gif-picker-tab-panel");
                              ("aria-selected", "true")]
                          ["navButton"; "navButtonActive"] []) [];
              Dom.Node (el 4 [("role", "tab"); ("id", "emoji-picker-tab");
                              ("aria-controls", "emoji-picker-tab-panel");
                              ("aria-selected", "false")]
                          ["navButton"] []) [] ];
          Dom.Node (el 5 [] [] [])
            [ Dom.Node (el 6 [("role", "tabpanel"); ("id", "gif-picker-tab-panel")]
                          [] []) [];
              Dom.Node (el 7 [("role", "tabpanel"); ("id", "emoji-picker-tab-panel")]
                          [] [("display", "none")]) [] ] ] ].

(** The plugin has not started. *)
Definition before_start : Inject.state := Inject.initial picker 8.

(** What a test reads of a panel: [style.display], the [hidden]
    attribute and the marker [data-vc-mam-hidden]. *)
Definition panel_state (n : nat) (s : Inject.state)
  : option (string * option string * option string) :=
  match Dom.locate n (Inject.doc s) with
  | Some x => Some (Dom.get_style "display" (fst x),
                    Dom.getAttribute "hidden" (fst x),
                    Dom.getAttribute Inject.VC_MAM_HIDDEN (fst x))
  | None => None
  end.

(** *** The picker-tab view *)

Definition request_of (tr : Picker.transport) (controller : nat) (page : Z) : Picker.request :=
  {| Picker.r_controller := controller; Picker.r_page := page;
     Picker.r_url := "https://www.midevelopment.de/api/gifs?limit=20&page="
                     +:+ string_of_Z page +:+ "&nsfw=false&visibility=published";
     Picker.r_options :=
       {| Http.headers := [("X-API-Key", "k")];
          Http.signal := match tr with
                         | Picker.Direct => Some controller
                         | Picker.Relay _ => None
                         end |} |}.

Definition relay_request (controller : nat) (q : string) : Picker.request :=
  {| Picker.r_controller := controller; Picker.r_page := 1;
     Picker.r_url := "https://www.midevelopment.de/api/gifs?" +:+ q
                     +:+ "limit=20&page=1&nsfw=false&visibility=published";
     Picker.r_options := {| Http.headers := [("X-API-Key", "k")];
                            Http.signal := None |} |}.

(** A page of results as the service sends it. *)
Definition listing (its : list json) : Http.response :=
  json_response 200 "OK"
    (JObj [("pagination", JObj [("page", JNum 1); ("per_page", JNum 20);
                                ("has_more", JBool false); ("next_page", JNull)]);
           ("items", JArr its)]).

Definition listing_more (its : list json) : Http.response :=
  json_response 200 "OK"
    (JObj [("pagination", JObj [("page", JNum 1); ("per_page", JNum 20);
                                ("has_more", JBool true); ("next_page", JNum 2)]);
           ("items", JArr its)]).

(** The first page is shown and the second one has been asked for. *)
Definition view_page_two (tr : Picker.transport) : Picker.view :=
  Picker.run tr (Picker.mount tr "k")
    (match tr with
     | Picker.Direct => []
     | Picker.Relay _ => [Picker.CategoryAll]
     end ++
     [Picker.Settle (request_of tr 0 1) (Ok (listing_more [JStr "first"]));
      Picker.LoadMore]).

End Examples.

(** ** Definitions for the proofs *)

Module Invariants.
Import Dom Inject.

(** *** The document *)

Definition upd (n : nat) (f : elem -> elem) (e : elem) : elem :=
  if has_nid n e then f e else e.

Definition lift (f : elem -> elem) (x : located) : located := (f (fst x), map f (snd x)).

(** Node identities are distinct and below the next one created. *)
Definition wfb (s : state) : bool :=
  bool_decide (NoDup (nids (doc s))) && forallb (fun n => n <? fresh s)%nat (nids (doc s)).

(** The document carries none of the attributes the engine sets on
    tab-lists, tabs and panels. *)
Definition plugin_attrs : list string :=
  [MAM_TAB_ATTR; MAM_PANEL_ATTR; MAM_BOUND_ATTR; MAM_PANEL_ID_ATTR; MAM_TAB_ID_ATTR].

Definition clean_elem (e : elem) : bool :=
  forallb (fun k => negb (hasAttribute k e)) plugin_attrs.

Definition cleanb (d : node) : bool :=
  forallb (fun x => clean_elem (fst x)) (elements d).

(** The synthetic tabs that are children of the tab-list [tl], and the
    synthetic panels of the document. *)
Definition mam_tabs_of (tl : nat) (d : node) : list located :=
  List.filter
    (fun x => sel_mam_tab (fst x) &&
              match parentElement x with Some p => has_nid tl p | None => false end)
    (elements d).

Definition mam_panels (d : node) : list located := querySelectorAll sel_mam_panel d.

(** A tab-list that [tablist_of] gives for its children: it has the role,
    or neither it nor an ancestor has. *)
Definition anchored (x : located) : Prop :=
  sel_tablist (fst x) = true \/ List.find sel_tablist (fst x :: snd x) = None.

(** What the scan changes on the elements that were there: their identity
    and the attributes the selectors read stay. *)
Record benign (h : elem -> elem) : Prop := {
  bn_nid : forall e, nid (h e) = nid e;
  bn_attrs : forall e k,
    k <> MAM_BOUND_ATTR -> k <> MAM_PANEL_ID_ATTR -> k <> MAM_TAB_ID_ATTR ->
    attrs (h e) !! k = attrs e !! k;
  bn_bound : forall e,
    hasAttribute MAM_BOUND_ATTR e = true -> hasAttribute MAM_BOUND_ATTR (h e) = true
}.

(** An element the scan created: a synthetic tab under a bound tab-list
    that [tablist_of] gives for it. *)
Definition mamlike (x : located) : Prop :=
  sel_picker_panel (fst x) = false /\ sel_mam_tab (fst x) = true /\
  sel_mam_panel (fst x) = false /\
  exists tl, tablist_of x = Some tl /\ hasAttribute MAM_BOUND_ATTR tl = true.

Definition host (F : nat) (x : located) : bool := (nid (fst x) <? F)%nat.

(** The state of the scan of the document [d0], whose nodes are below
    [F], after the entries [done]. *)
Definition scanned (d0 : node) (F : nat) (done : list entry) (s : state) : Prop :=
  NoDup (nids (doc s)) /\
  (forall n, n ∈ nids (doc s) -> n < fresh s) /\
  fresh s = F + length done /\
  (forall tl, length (mam_tabs_of tl (doc s))
              = length (List.filter (Nat.eqb tl) (map tabList done))) /\
  (forall x, x ∈ elements (doc s) -> host F x = false -> mamlike x) /\
  exists h, benign h /\
    (forall e, nid e ∉ map tabList done -> h e = e) /\
    (forall x0, x0 ∈ elements d0 -> nid (fst x0) ∈ map tabList done ->
                hasAttribute MAM_BOUND_ATTR (h (fst x0)) = true) /\
    List.filter (host F) (elements (doc s)) = map (lift h) (elements d0).

(** What the scan needs of an entry: its tab-list and its sample tab are
    elements of the document [d0]. *)
Definition entry_ok (d0 : node) (en : entry) : Prop :=
  (exists x, x ∈ elements d0 /\ nid (fst x) = tabList en /\ anchored x) /\
  (exists t, t ∈ elements d0 /\ nid (fst t) = sampleTab en).

(** The decimal digits. *)
Definition digit (c : ascii) : bool :=
  let n := nat_of_ascii c in ((48 <=? n) && (n <=? 57))%nat.

Fixpoint digits (s : string) : bool :=
  match s with
  | String c s' => digit c && digits s'
  | EmptyString => true
  end.

(** [sub] cannot be a prefix of [p] followed by digits: the two differ
    inside [p], or [p] ends where [sub] goes on with a character that is
    not a digit. *)
Fixpoint clash (sub p : string) : bool :=
  match sub, p with
  | String a sub', String b p' => if Ascii.eqb a b then clash sub' p' else true
  | String a _, EmptyString => negb (digit a)
  | EmptyString, _ => false
  end.

Fixpoint all_clash (sub p : string) : bool :=
  clash sub p &&
  match p with
  | String _ p' => all_clash sub p'
  | EmptyString => true
  end.

(** *** The picker-tab view *)

(** The requests the view issues: the first generation attaches the
    signal of the request's controller, the relay is given none. *)
Definition issued (tr : Picker.transport) (r : Picker.request) : Prop :=
  Http.signal (Picker.r_options r) =
  match tr with
  | Picker.Direct => Some (Picker.r_controller r)
  | Picker.Relay _ => None
  end.

(** Every request in flight carries the signal of its controller, and is
    superseded unless its controller is the one [abortRef] holds. *)
Definition tracked (fl : list Picker.request) (ab : list nat) (ref : option nat) : Prop :=
  forall r, r ∈ fl ->
    issued Picker.Direct r /\ (Picker.r_controller r ∈ ab \/ ref = Some (Picker.r_controller r)).

Definition Inv (v : Picker.view) : Prop :=
  tracked (Picker.inflight v) (Picker.aborted v) (Picker.abortRef v).

(** [v'] has aborted what [v] had, and tracks its requests. *)
Definition later (v v' : Picker.view) : Prop :=
  Picker.aborted v ⊆ Picker.aborted v' /\ Inv v'.

End Invariants.

(** ** Further definitions for the proofs *)

Module Shapes.
Import Dom Inject.

(** The class names that are not among [names]. *)
Definition outside (names : list string) (c : string) : bool :=
  negb (existsb (fun name => String.eqb name c) names).

(** *** The document during a scan and a teardown *)

(** The elements of a tree. *)
Definition elems (d : node) : list elem := map fst (elements d).

(** The children that [remove] keeps. *)
Definition prune (n : nat) (ks : list node) : list node :=
  flat_map (fun k => if has_nid n (root_elem k) then [] else [remove n k]) ks.

(** No element carries the marker [data-vc-mam-display]. *)
Definition unmarked (d : node) : bool :=
  forallb (fun x => negb (hasAttribute VC_MAM_DISPLAY (fst x))) (elements d).

(** One injection as the scan has made it: the closure, the synthetic
    tab and the ids. *)
Record injected : Type := Injected {
  i_binding : binding;
  i_tab : elem;
  i_panelId : string;
  i_tabId : string
}.

Definition inject_at (i : injected) (d : node) : node :=
  let tl := b_tabList (i_binding i) in
  appendChild tl (Node (i_tab i) [])
    (update tl (setAttribute MAM_TAB_ID_ATTR (i_tabId i))
       (update tl (setAttribute MAM_PANEL_ID_ATTR (i_panelId i))
          (update tl (setAttribute MAM_BOUND_ATTR "true") d))).

Definition injections (L : list injected) (d : node) : node :=
  fold_left (fun d i => inject_at i d) L d.

(** What [cleanup] does to a document in which no panel was hidden and
    no synthetic panel made. *)
Definition eject (tl mid : nat) (d : node) : node :=
  update tl (removeAttribute MAM_TAB_ID_ATTR)
    (update tl (removeAttribute MAM_PANEL_ID_ATTR)
       (update tl (removeAttribute MAM_BOUND_ATTR) (remove mid d))).

(** An injection of a scan of a document whose nodes are below [F]. *)
Definition injection_ok (F : nat) (i : injected) : Prop :=
  nid (i_tab i) = b_mamTab (i_binding i) /\ F <= nid (i_tab i) /\
  b_tabList (i_binding i) < F /\
  attrs (i_tab i) !! VC_MAM_DISPLAY = None /\
  attrs (i_tab i) !! MAM_PANEL_ATTR = None.

(** The state of the scan of the document [d0] after the injections [L]. *)
Definition built (d0 : node) (F : nat) (L : list injected) (s : state) : Prop :=
  doc s = injections L d0 /\
  cleanupFns s = map i_binding L /\
  listeners s = flat_map listeners_of (map i_binding L) /\
  Forall (injection_ok F) L /\
  map (fun i => nid (i_tab i)) L = seq F (length L).

(** *** The picker-tab view without a key *)

Definition PROMPT := "Set your MAM API key in the plugin settings.".

(** The state [w] during the commit that follows the removal of the key
    in the state [v]. *)
Definition keyless (v w : Picker.view) : Prop :=
  Picker.apiKey w = "" /\ Picker.query w = Picker.query v /\
  Picker.debouncedQuery w = Picker.debouncedQuery v /\
  Picker.mode w = Picker.mode v /\
  Picker.selectedListId w = Picker.selectedListId v /\
  Picker.inflight w = Picker.inflight v /\ Picker.abortRef w = Picker.abortRef v /\
  Picker.aborted v ⊆ Picker.aborted w.

Definition prompted (tr : Picker.transport) (v w : Picker.view) : Prop :=
  Picker.loading w = false /\
  (forall c, Picker.abortRef v = Some c -> c ∈ Picker.aborted w) /\
  (tr = Picker.Direct \/ Picker.mode v <> Picker.Categories ->
   Picker.error w = Some PROMPT /\ Picker.items w = [] /\ Picker.hasMore w = false).

(** *** The chat-bar modal *)


End Shapes.

(** ** Properties *)

Module JsFacts.
Lemma trim_start_blank s : all_white s = true -> trim_start s = "".
Proof.
  induction s as [|c s IH]; simpl; [done|].
  intros [Hc Hs]%andb_prop. rewrite Hc. auto.
Qed.

Lemma trim_end_head c s : is_white c = false -> trim_end (String c s) <> "".
Proof. intros Hc. simpl. destruct (trim_end s); [rewrite Hc|]; discriminate. Qed.

Lemma trim_start_empty s : trim_start s = "" -> all_white s = true.
Proof.
  induction s as [|c s IH]; simpl; [done|].
  destruct (is_white c) eqn:Hc; [auto | discriminate].
Qed.

Lemma trim_start_head s : trim_start s = "" \/ exists c t, trim_start s = String c t /\ is_white c = false.
Proof.
  induction s as [|c s IH]; simpl; [by left|].
  destruct (is_white c) eqn:Hc; [exact IH | right; eauto].
Qed.

(** [trim] gives the empty string exactly on the strings that are empty
    or made of white space only. *)
Lemma trim_blank s : trim s = "" <-> all_white s = true.
Proof.
  unfold trim. split.
  - intros H. destruct (trim_start_head s) as [He | (c & t & He & Hc)].
    + by apply trim_start_empty.
    + rewrite He in H. by apply trim_end_head in H.
  - intros H. by rewrite trim_start_blank.
Qed.
End JsFacts.


Module BridgeFacts.
Import Bridge.

(** C2: [fetchMagApi] never throws, whatever the URL and the options:
    when a response arrives and its body parses as JSON it returns the
    record made of the response's [ok], [status] and [statusText] and of
    the parsed body; when [fetch] rejects or the body does not parse it
    returns exactly the record [ok = false], [status = -1],
    [statusText = "Network Error"], [data = { error: message }]. *)
Theorem fetchMagApi_never_raises
    (fetch : string -> option Http.options -> result Http.response)
    (url : string) (options : option Http.options) :
  match fetch url options with
  | Ok res =>
      match Http.body_json res with
      | Ok body =>
          fetchMagApi fetch url options =
          Ok {| ok := Http.ok res; status := Http.status res;
                statusText := Http.statusText res; data := body |}
      | Throw error =>
          fetchMagApi fetch url options = Ok (failure (message_or (fun r => r) error))
      end
  | Throw error =>
      fetchMagApi fetch url options = Ok (failure (message_or (fun r => r) error))
  end.
Proof.
  unfold fetchMagApi, failure.
  destruct (fetch url options) as [res | error]; simpl; [|reflexivity].
  destruct (Http.body_json res) as [body | error]; reflexivity.
Qed.
End BridgeFacts.

Module ChatBarFacts.
Import ChatBar JsFacts.

Lemma blank_not_truthy q : all_white q = true -> truthy_string (trim q) = false.
Proof. intros H. apply trim_blank in H. by rewrite H. Qed.

Lemma effects_eq force changed old m sync srch cred md :
  previews_changed force old m = sync -> search_changed force old m = srch ->
  credentials_changed force old m = cred -> mode_changed old m = md ->
  effects force changed old m =
  (effects_with sync srch (force || changed || cred || md) cred m,
   cred || (srch && bool_decide (mode m = Search)
            && negb (truthy_string (trim (query m))))).
Proof. intros <- <- <- <-. reflexivity. Qed.

Lemma search_effect_frame m :
  previewUrls (search_effect m) = previewUrls m /\
  credentials (search_effect m) = credentials m /\
  query (search_effect m) = query m /\ mode (search_effect m) = mode m /\
  searches (search_effect m) = searches m.
Proof.
  unfold search_effect, credentials, apiBaseUrl. cbn.
  destruct (mode m) eqn:E; cbn; [|by rewrite E].
  destruct (truthy_string _); cbn; by rewrite E.
Qed.

(** C7: in search mode, when the query becomes a string that is empty or
    made of white space only, no request is issued (none is in flight
    that was not, and no timer is left that would issue one), and the
    search results, the has-more flag and the search error are cleared. *)
Theorem blank_query_issues_no_request (m : modal) (q : string) :
  mounted m = true -> mode m = Search -> all_white q = true -> query m <> q ->
  let m' := handle m (SetQuery q) in
  searches m' = searches m /\ timer m' = None /\
  searchResults m' = [] /\ searchHasMore m' = false /\ searchError m' = None.
Proof.
  intros Hm Hmode Hq Hne.
  pose proof (blank_not_truthy q Hq) as Hblank.
  assert (handle m (SetQuery q) =
          preview_effect (search_effect
            (set_input (apiKey m) (baseUrl m) (useLocalDebug m) (mode m) q m))) as ->.
  { unfold handle. rewrite Hm. cbn [negb].
    rewrite bool_decide_eq_true_2 by done.
    unfold commit.
    rewrite (effects_eq false false m _ false true false false); cycle 1.
    - unfold previews_changed. by rewrite bool_decide_eq_true_2.
    - unfold search_changed, search_deps. rewrite bool_decide_eq_false_2; [done|].
      cbn. congruence.
    - unfold credentials_changed. by rewrite bool_decide_eq_true_2.
    - unfold mode_changed. by rewrite bool_decide_eq_true_2.
    - cbn [mode set_input query]. rewrite Hmode, Hblank.
      rewrite bool_decide_eq_true_2 by done.
      cbn [orb andb negb effects_with].
      set (m1 := set_input _ _ _ _ _ _).
      destruct (search_effect_frame m1) as (Hp & Hc & Hqq & Hmd & _).
      rewrite (effects_eq false true _ _ false false false false); cycle 1.
      + unfold previews_changed. by rewrite Hp, bool_decide_eq_true_2.
      + unfold search_changed, search_deps.
        by rewrite Hc, Hqq, Hmd, bool_decide_eq_true_2.
      + unfold credentials_changed. by rewrite Hc, bool_decide_eq_true_2.
      + unfold mode_changed. by rewrite Hmd, bool_decide_eq_true_2.
      + reflexivity. }
  unfold search_effect. cbn [mode set_host set_input query]. rewrite Hmode, Hblank. cbn. done.
Qed.

Lemma blank_query_issues_no_request_witness :
  let m := Examples.modal_with_preview in
  (mounted m = true /\ mode m = Search /\ all_white "  " = true /\ query m <> "  ") /\
  let m' := handle m (SetQuery "  ") in
  searches m' = searches m /\ timer m' = None /\
  searchResults m' = [] /\ searchHasMore m' = false /\ searchError m' = None.
Proof.
  split; [by vm_compute|].
  apply (blank_query_issues_no_request Examples.modal_with_preview "  "); by vm_compute.
Defined.

End ChatBarFacts.


Module PickerFacts.
Import Picker Invariants.

Lemma outcome_live tr v r net :
  issued tr r -> is_aborted (r_controller r) v = false -> outcome v r net = net.
Proof.
  unfold issued, outcome. intros -> Hlive. destruct tr; [by rewrite Hlive | done].
Qed.

Lemma outcome_aborted v r net :
  issued Direct r -> is_aborted (r_controller r) v = true ->
  outcome v r net = Throw (ErrorObj ABORT_ERROR).
Proof. unfold issued, outcome. intros -> Hgone. by rewrite Hgone. Qed.

(** A rejected chain of a request that is not superseded. *)
Lemma settle_failed tr v r net err :
  mounted v = true -> is_aborted (r_controller r) v = false ->
  chain tr r (outcome v r net) = Throw err ->
  settle tr v r net =
  set_results (if (r_page r =? 1)%Z then [] else items v)
    (Some (message_or (fun _ => "Request failed.") err)) false false (forget r v).
Proof.
  intros Hm Hlive Hchain. unfold settle. rewrite Hm, Hlive, Hchain. reflexivity.
Qed.

(** A fulfilled chain of a request that is not superseded. *)
Lemma settle_fulfilled tr v r net next more :
  mounted v = true -> is_aborted (r_controller r) v = false ->
  chain tr r (outcome v r net) = Ok (next, more) ->
  settle tr v r net =
  set_results (if (r_page r =? 1)%Z then next else items v ++ next)
    (error v) false more (forget r v).
Proof.
  intros Hm Hlive Hchain. unfold settle. rewrite Hm, Hlive, Hchain. reflexivity.
Qed.

(** C9: in both generations of the picker tab, when the fetch of page
    [p] fails and the request is not superseded, the error message is
    set and the has-more flag cleared; the items shown stay as they are
    when [p] is not 1, and are cleared when [p] is 1. *)
Theorem failed_page_keeps_items (tr : transport) (v : view) (r : request)
    (net : result Http.response) (err : thrown) :
  mounted v = true -> is_aborted (r_controller r) v = false ->
  chain tr r (outcome v r net) = Throw err ->
  let v' := settle tr v r net in
  error v' = Some (message_or (fun _ => "Request failed.") err) /\
  hasMore v' = false /\
  (r_page r <> 1%Z -> items v' = items v) /\
  (r_page r = 1%Z -> items v' = []).
Proof.
  intros Hm Hlive Hchain. cbn zeta. rewrite (settle_failed _ _ _ _ _ Hm Hlive Hchain).
  cbn. repeat split.
  - intros Hp. apply Z.eqb_neq in Hp. by rewrite Hp.
  - intros ->. reflexivity.
Qed.

Lemma failed_page_keeps_items_witness :
  let v := Examples.view_page_two (Relay true) in
  let r := Examples.request_of (Relay true) 1 2 in
  let net := Ok Examples.unavailable in
  let err := ErrorObj "Request failed (503)." in
  (mounted v = true /\ is_aborted (r_controller r) v = false /\
   chain (Relay true) r (outcome v r net) = Throw err) /\
  let v' := settle (Relay true) v r net in
  error v' = Some (message_or (fun _ => "Request failed.") err) /\
  hasMore v' = false /\
  (r_page r <> 1%Z -> items v' = items v) /\
  (r_page r = 1%Z -> items v' = []).
Proof.
  split; [by vm_compute|].
  apply (failed_page_keeps_items (Relay true) (Examples.view_page_two (Relay true))
           (Examples.request_of (Relay true) 1 2) (Ok Examples.unavailable)
           (ErrorObj "Request failed (503).")); by vm_compute.
Defined.

Lemma status_message_401 : status_message 401 = "Invalid API key.".
Proof. reflexivity. Qed.

Lemma status_message_other s :
  s <> 401%Z -> status_message s = "Request failed (" +:+ string_of_Z s +:+ ").".
Proof. intros H. unfold status_message. apply Z.eqb_neq in H. by rewrite H. Qed.

Lemma chain_direct_status r res :
  Http.ok res = false ->
  chain Direct r (Ok res) = Throw (ErrorObj (status_message (Http.status res))).
Proof. intros H. unfold chain, response_data. cbn. by rewrite H. Qed.

Lemma chain_relay_status r net env :
  Bridge.fetchMagApi (fun _ _ => net) (r_url r) (Some (r_options r)) = Ok env ->
  Bridge.ok env = false ->
  chain (Relay true) r net = Throw (ErrorObj (status_message (Bridge.status env))).
Proof. intros He H. unfold chain, response_data. rewrite He. cbn. by rewrite H. Qed.

Lemma relay_of_json r res body :
  Http.body_json res = Ok body ->
  Bridge.fetchMagApi (fun _ _ => Ok res) (r_url r) (Some (r_options r)) =
  Ok {| Bridge.ok := Http.ok res; Bridge.status := Http.status res;
        Bridge.statusText := Http.statusText res; Bridge.data := body |}.
Proof. intros H. unfold Bridge.fetchMagApi. cbn. by rewrite H. Qed.

Lemma status_401_not_ok res : Http.status res = 401%Z -> Http.ok res = false.
Proof. intros H. unfold Http.ok. by rewrite H. Qed.

End PickerFacts.

Module ErrorFacts.
Import PickerFacts Invariants.

(** C6 (as amended): a response with status 401 and the body
    [{"detail":"Invalid API key"}] is shown as "Invalid API key." by the
    two picker-tab generations and as the detail text "Invalid API key"
    by the chat-bar modal. Any other status that is not a success is
    shown by the first generation as "Request failed (status)." with the
    status of the response. The second generation shows the status of
    the record the relay returns: that is the status of the response
    when its body is JSON, and -1 when the body is not JSON, whatever
    the status of the response. *)
Theorem surfaced_error_messages :
  (forall tr v r res,
      tr = Picker.Direct \/ tr = Picker.Relay true ->
      Picker.mounted v = true -> issued tr r ->
      Picker.is_aborted (Picker.r_controller r) v = false ->
      Http.status res = 401%Z ->
      Http.body_json res = Ok (JObj [("detail", JStr "Invalid API key")]) ->
      Picker.error (Picker.settle tr v r (Ok res)) = Some "Invalid API key.") /\
  (forall v r res,
      Picker.mounted v = true -> issued Picker.Direct r ->
      Picker.is_aborted (Picker.r_controller r) v = false ->
      Http.ok res = false -> Http.status res <> 401%Z ->
      Picker.error (Picker.settle Picker.Direct v r (Ok res)) =
      Some ("Request failed (" +:+ string_of_Z (Http.status res) +:+ ").")) /\
  (forall v r net env,
      Picker.mounted v = true -> issued (Picker.Relay true) r ->
      Picker.is_aborted (Picker.r_controller r) v = false ->
      Bridge.fetchMagApi (fun _ _ => net)
        (Picker.r_url r) (Some (Picker.r_options r)) = Ok env ->
      Bridge.ok env = false -> Bridge.status env <> 401%Z ->
      Picker.error (Picker.settle (Picker.Relay true) v r net) =
      Some ("Request failed (" +:+ string_of_Z (Bridge.status env) +:+ ").")) /\
  (forall v r res body,
      Picker.mounted v = true -> issued (Picker.Relay true) r ->
      Picker.is_aborted (Picker.r_controller r) v = false ->
      Http.ok res = false -> Http.status res <> 401%Z ->
      Http.body_json res = Ok body ->
      Picker.error (Picker.settle (Picker.Relay true) v r (Ok res)) =
      Some ("Request failed (" +:+ string_of_Z (Http.status res) +:+ ").")) /\
  (forall v r res t,
      Picker.mounted v = true -> issued (Picker.Relay true) r ->
      Picker.is_aborted (Picker.r_controller r) v = false ->
      Http.body_json res = Throw t ->
      Picker.error (Picker.settle (Picker.Relay true) v r (Ok res)) =
      Some "Request failed (-1).") /\
  (forall m r res data,
      ChatBar.mounted m = true ->
      Http.status res = 401%Z ->
      Http.body_json res = Ok (JObj [("detail", JStr "Invalid API key")]) ->
      ChatBar.searchError (ChatBar.search_settled r (Ok (ChatBar.Reply res data)) m) =
      Some "Invalid API key").
Proof.
  assert (forall v r net env,
      Picker.mounted v = true -> issued (Picker.Relay true) r ->
      Picker.is_aborted (Picker.r_controller r) v = false ->
      Bridge.fetchMagApi (fun _ _ => net)
        (Picker.r_url r) (Some (Picker.r_options r)) = Ok env ->
      Bridge.ok env = false -> Bridge.status env <> 401%Z ->
      Picker.error (Picker.settle (Picker.Relay true) v r net) =
      Some ("Request failed (" +:+ string_of_Z (Bridge.status env) +:+ ").")) as Hrelay.
  { intros v r net env Hm Hi Hlive He Hok Hs.
    assert (Picker.chain (Picker.Relay true) r (Picker.outcome v r net) =
            Throw (ErrorObj (Picker.status_message (Bridge.status env)))) as Hchain.
    { rewrite (outcome_live (Picker.Relay true)) by done. by apply chain_relay_status. }
    rewrite (settle_failed _ _ _ _ _ Hm Hlive Hchain). cbn.
    by rewrite status_message_other. }
  split; [|split; [|split; [exact Hrelay|split; [|split]]]].
  - intros tr v r res Htr Hm Hi Hlive Hs Hb.
    pose proof (status_401_not_ok res Hs) as Hok.
    assert (Picker.chain tr r (Picker.outcome v r (Ok res)) =
            Throw (ErrorObj (Picker.status_message 401))) as Hchain.
    { rewrite (outcome_live tr) by done.
      destruct Htr as [-> | ->].
      - by rewrite chain_direct_status, Hs.
      - erewrite chain_relay_status; [| by apply relay_of_json | done]. cbn. by rewrite Hs. }
    rewrite (settle_failed _ _ _ _ _ Hm Hlive Hchain). reflexivity.
  - intros v r res Hm Hi Hlive Hok Hs.
    assert (Picker.chain Picker.Direct r (Picker.outcome v r (Ok res)) =
            Throw (ErrorObj (Picker.status_message (Http.status res)))) as Hchain.
    { rewrite (outcome_live Picker.Direct) by done. by apply chain_direct_status. }
    rewrite (settle_failed _ _ _ _ _ Hm Hlive Hchain). cbn.
    by rewrite status_message_other.
  - intros v r res body Hm Hi Hlive Hok Hs Hb.
    exact (Hrelay v r (Ok res) _ Hm Hi Hlive (relay_of_json r res body Hb) Hok Hs).
  - intros v r res t Hm Hi Hlive Hb.
    assert (Picker.chain (Picker.Relay true) r (Picker.outcome v r (Ok res)) =
            Throw (ErrorObj "Request failed (-1).")) as Hchain.
    { rewrite (outcome_live (Picker.Relay true)) by done.
      unfold Picker.chain, Picker.response_data, Bridge.fetchMagApi. cbn.
      rewrite Hb. reflexivity. }
    by rewrite (settle_failed _ _ _ _ _ Hm Hlive Hchain).
  - intros m r res data Hm Hs Hb.
    unfold ChatBar.search_settled. rewrite Hm. cbn [negb].
    unfold ChatBar.apiGet. cbn. rewrite (status_401_not_ok res Hs). cbn.
    unfold ChatBar.parseErrorResponse. rewrite Hb. reflexivity.
Qed.

(** C6 (counterexample): a response with status 502 whose body is not
    JSON is shown by the second generation as "Request failed (-1).",
    not as "Request failed (502)."; the first generation shows
    "Request failed (502).". *)
Lemma relay_hides_http_status :
  let v := Examples.view_page_two (Picker.Relay true) in
  let r := Examples.request_of (Picker.Relay true) 1 2 in
  let gateway := {| Http.status := 502; Http.statusText := "Bad Gateway";
                    Http.body_json := Throw (ErrorObj "Unexpected token '<'");
                    Http.body_text_after :=
                      Throw (ErrorObj "body stream already read") |} in
  Http.ok gateway = false /\ Http.status gateway = 502%Z /\
  Picker.error (Picker.settle (Picker.Relay true) v r (Ok gateway))
  = Some "Request failed (-1)." /\
  Picker.error (Picker.settle (Picker.Relay true) v r (Ok gateway))
  <> Some "Request failed (502)." /\
  Picker.error
    (Picker.settle Picker.Direct (Examples.view_page_two Picker.Direct)
       (Examples.request_of Picker.Direct 1 2) (Ok gateway))
  = Some "Request failed (502).".
Proof.
  cbv zeta. split; [reflexivity|]. split; [reflexivity|].
  split; [vm_compute; reflexivity|]. split; [|vm_compute; reflexivity].
  vm_compute. discriminate.
Qed.

Lemma surfaced_error_messages_witness :
  let v1 := Examples.view_page_two Picker.Direct in
  let r1 := Examples.request_of Picker.Direct 1 2 in
  let v2 := Examples.view_page_two (Picker.Relay true) in
  let r2 := Examples.request_of (Picker.Relay true) 1 2 in
  let page := {| Http.status := 502; Http.statusText := "Bad Gateway";
                 Http.body_json := Throw (ErrorObj "Unexpected token '<'");
                 Http.body_text_after := Throw (ErrorObj "body stream already read") |} in
  Picker.error (Picker.settle Picker.Direct v1 r1 (Ok Examples.unauthorized))
  = Some "Invalid API key." /\
  Picker.error (Picker.settle (Picker.Relay true) v2 r2 (Ok Examples.unauthorized))
  = Some "Invalid API key." /\
  Picker.error (Picker.settle Picker.Direct v1 r1 (Ok Examples.unavailable))
  = Some "Request failed (503)." /\
  Picker.error (Picker.settle (Picker.Relay true) v2 r2 (Ok Examples.unavailable))
  = Some "Request failed (503)." /\
  Picker.error (Picker.settle (Picker.Relay true) v2 r2 (Ok page))
  = Some "Request failed (-1)." /\
  ChatBar.searchError
    (ChatBar.search_settled (Examples.search_for "a")
       (Ok (ChatBar.Reply Examples.unauthorized (Examples.one_page [])))
       Examples.modal_two_searches)
  = Some "Invalid API key".
Proof.
  destruct surfaced_error_messages as (H401 & Hdirect & _ & Hrelay & Hraw & Hmodal).
  split; [|split; [|split; [|split; [|split]]]].
  - apply (H401 Picker.Direct); [by left | by vm_compute ..].
  - apply (H401 (Picker.Relay true)); [by right | by vm_compute ..].
  - apply (Hdirect (Examples.view_page_two Picker.Direct)
             (Examples.request_of Picker.Direct 1 2) Examples.unavailable);
      by vm_compute.
  - apply (Hrelay (Examples.view_page_two (Picker.Relay true))
             (Examples.request_of (Picker.Relay true) 1 2) Examples.unavailable (JObj []));
      by vm_compute.
  - apply (Hraw (Examples.view_page_two (Picker.Relay true))
             (Examples.request_of (Picker.Relay true) 1 2) _
             (ErrorObj "Unexpected token '<'"));
      by vm_compute.
  - apply Hmodal; by vm_compute.
Defined.

End ErrorFacts.


Module StaleFacts.
Import Picker PickerFacts Invariants.

Lemma is_aborted_elem c v : is_aborted c v = true <-> c ∈ aborted v.
Proof.
  unfold is_aborted. rewrite existsb_exists, list_elem_of_In. split.
  - intros (x & Hx & ->%Nat.eqb_eq). done.
  - intros H. exists c. by rewrite Nat.eqb_refl.
Qed.

Lemma later_refl v : Inv v -> later v v.
Proof. by split. Qed.

Lemma later_trans v1 v2 v3 : later v1 v2 -> later v2 v3 -> later v1 v3.
Proof. intros [H1 _] [H2 H3]. split; [|done]. intros c Hc. by apply H2, H1. Qed.

Lemma abort_spec c v :
  inflight (abort c v) = inflight v /\ abortRef (abort c v) = abortRef v /\
  cleanupCtl (abort c v) = cleanupCtl v /\ apiKey (abort c v) = apiKey v /\
  mode (abort c v) = mode v /\ controllers (abort c v) = controllers v /\
  aborted v ⊆ aborted (abort c v) /\
  (forall x, c = Some x -> x ∈ aborted (abort c v)).
Proof.
  unfold abort. destruct c as [c|]; [|by repeat split].
  destruct (is_aborted c v) eqn:E; cbn; repeat split; try done.
  - intros x [= <-]. by apply is_aborted_elem.
  - intros x Hx. by right.
  - intros x [= <-]. by left.
Qed.

Lemma fetch_effect_later v :
  Inv v ->
  later v (fetch_effect Direct v) /\
  (forall r, r ∈ inflight v -> r_controller r ∈ aborted (fetch_effect Direct v)).
Proof.
  intros HI. unfold fetch_effect, fetch_body.
  set (v1 := abort (cleanupCtl v) v).
  destruct (abort_spec (cleanupCtl v) v) as (Hfl1 & Href1 & _ & Hk1 & _ & _ & Hab1 & _).
  fold v1 in Hfl1, Href1, Hk1, Hab1.
  set (v2 := abort (abortRef v1) v1).
  destruct (abort_spec (abortRef v1) v1) as (Hfl2 & Href2 & _ & Hk2 & _ & _ & Hab2 & Hcur).
  fold v2 in Hfl2, Href2, Hk2, Hab2, Hcur.
  assert (forall r, r ∈ inflight v -> issued Direct r /\ r_controller r ∈ aborted v2) as Hold.
  { intros r Hr. destruct (HI r Hr) as [Hi [Ha | Hc]]; split; try done.
    - by apply Hab2, Hab1.
    - apply Hcur. by rewrite Href1. }
  cbn. destruct (negb (truthy_string (apiKey v2))); cbn.
  - split; [split|].
    + intros c Hc. by apply Hab2, Hab1.
    + intros r Hr. rewrite Hfl2, Hfl1 in Hr. destruct (Hold r Hr). by split; [|left].
    + intros r Hr. by apply Hold.
  - split; [split|].
    + intros c Hc. by apply Hab2, Hab1.
    + intros x [Hx | ->%list_elem_of_singleton]%elem_of_app.
      * rewrite Hfl2, Hfl1 in Hx. destruct (Hold x Hx). by split; [|left].
      * split; [reflexivity | by right].
    + intros x Hx. by apply Hold.
Qed.

Lemma effects_with_later d rs sw f v :
  Inv v ->
  later v (effects_with Direct d rs sw f v) /\
  (f = true -> forall r, r ∈ inflight v ->
               r_controller r ∈ aborted (effects_with Direct d rs sw f v)).
Proof.
  intros HI. unfold effects_with.
  set (v1 := if d then _ else v).
  assert (inflight v1 = inflight v /\ aborted v1 = aborted v /\ abortRef v1 = abortRef v)
    as (Hfl & Hab & Href) by (subst v1; by destruct d).
  assert (Inv v1) as HI1 by (unfold Inv; by rewrite Hfl, Hab, Href).
  destruct f; unfold later, Inv; cbn.
  - destruct (fetch_effect_later v1 HI1) as [[Hsub HI2] Hold]. split; [split|].
    + by rewrite <- Hab.
    + exact HI2.
    + intros _ r Hr. apply Hold. by rewrite Hfl.
  - split; [split|].
    + by rewrite Hab.
    + exact HI1.
    + done.
Qed.

Lemma effects_later old v :
  Inv v -> later v (effects Direct false old v).
Proof. intros HI. apply effects_with_later, HI. Qed.

Lemma commit_later v0 old v :
  aborted v0 ⊆ aborted v -> Inv v -> later v0 (commit Direct old v).
Proof.
  intros Hsub HI. unfold commit.
  pose proof (effects_later old v HI) as H1.
  pose proof (effects_later v _ (proj2 H1)) as H2.
  pose proof (effects_later (effects Direct false old v) _ (proj2 H2)) as H3.
  assert (later v0 v) as H0 by done.
  eauto using later_trans.
Qed.

Lemma Inv_same v v' :
  inflight v' = inflight v -> aborted v' = aborted v -> abortRef v' = abortRef v ->
  Inv v -> Inv v'.
Proof. unfold Inv. by intros -> -> ->. Qed.

Lemma forget_Inv r v : Inv v -> Inv (forget r v).
Proof.
  intros HI r' Hr'. apply HI. unfold forget in Hr'. cbn in Hr'.
  apply list_elem_of_In, filter_In in Hr'. apply list_elem_of_In, Hr'.
Qed.

Lemma settle_later v r net : Inv v -> later v (settle Direct v r net).
Proof.
  intros HI. pose proof (forget_Inv r v HI) as HF. unfold settle.
  destruct (negb (mounted v)); [by split|].
  destruct (chain _ _ _) as [[next more]|err];
    destruct (is_aborted _ _); by split.
Qed.

Lemma handle_later v ev : Inv v -> later v (handle Direct v ev).
Proof.
  intros HI. unfold handle.
  destruct (negb (mounted v)).
  { destruct ev; try by apply later_refl.
    case_bool_decide; [by apply settle_later | by apply later_refl]. }
  destruct ev; cbn [is_relay andb].
  - by apply commit_later.
  - destruct (timer v); [|by apply later_refl]. by apply commit_later.
  - by apply commit_later.
  - destruct (loading v); [by apply later_refl|]. by apply commit_later.
  - destruct (negb (loading v) && hasMore v); [|by apply later_refl].
    by apply commit_later.
  - by apply later_refl.
  - by apply later_refl.
  - by apply later_refl.
  - case_bool_decide; [|by apply later_refl].
    destruct (settle_later v r net HI). by apply commit_later.
  - destruct (abort_spec (cleanupCtl v) v) as (Hfl & Href & _ & _ & _ & _ & Hab & _).
    split; [done|]. intros r Hr. cbn in Hr. rewrite Hfl in Hr.
    destruct (HI r Hr) as [Hi [Ha | Hc]]; split; try done.
    + left. cbn. by apply Hab.
    + right. cbn. by rewrite Href.
Qed.

Lemma run_later evs v : Inv v -> later v (run Direct v evs).
Proof.
  revert v. induction evs as [|ev evs IH]; intros v HI; [by apply later_refl|].
  cbn. eapply later_trans; [by apply handle_later|].
  apply IH. by apply handle_later.
Qed.

Lemma mount_Inv key : Inv (mount Direct key).
Proof.
  unfold mount.
  assert (Inv (first_render Direct key)) as H0 by (intros r Hr; by apply elem_of_nil in Hr).
  pose proof (effects_with_later true true false true _ H0) as [[_ H1] _].
  pose proof (effects_later (first_render Direct key) _ H1) as [_ H2].
  apply (effects_later _ _ H2).
Qed.

(** A superseded request of the first generation changes nothing that is
    rendered, whatever the network answers. *)
Lemma settle_superseded v r net :
  issued Direct r -> r_controller r ∈ aborted v ->
  rendered (settle Direct v r net) = rendered v.
Proof.
  intros Hi Hgone%is_aborted_elem. unfold settle.
  destruct (negb (mounted v)); [done|].
  rewrite (outcome_aborted _ _ _ Hi Hgone), Hgone. reflexivity.
Qed.

(** The debounced query changes: the fetch effect runs. *)
Lemma debounce_supersedes v q r :
  Inv v -> mounted v = true -> timer v = Some q -> trim q <> debouncedQuery v ->
  r ∈ inflight v ->
  later v (handle Direct v DebounceTimer) /\
  r_controller r ∈ aborted (handle Direct v DebounceTimer).
Proof.
  intros HI Hm Ht Hq Hr. split; [by apply handle_later|].
  unfold handle. rewrite Hm, Ht. cbn [negb]. unfold commit.
  set (v0 := set_inputs _ _ _ _ _ _ None v).
  set (v1 := update v0 _ _ _ _ _ _).
  assert (Inv v1) as HI1 by by eapply Inv_same.
  assert (effects Direct false v0 v1 =
          effects_with Direct false true false true v1) as E.
  { unfold effects. f_equal.
    - cbn. by rewrite bool_decide_eq_true_2.
    - cbn. rewrite bool_decide_eq_false_2; [done|]. unfold reset_deps. cbn. congruence.
    - cbn. rewrite bool_decide_eq_false_2; [done|]. unfold fetch_deps. cbn. congruence. }
  rewrite E.
  destruct (effects_with_later false true false true v1 HI1) as [[_ HI2] Hold].
  pose proof (effects_later v1 _ HI2) as [Hs3 HI3].
  pose proof (effects_later (effects_with Direct false true false true v1) _ HI3) as [Hs4 _].
  apply Hs4, Hs3, Hold; done.
Qed.

End StaleFacts.


Module DomFacts.
Import Dom Invariants.

(** Induction on a tree with the hypothesis on all the children. *)
Lemma node_rect_kids (P : node -> Prop) :
  (forall e kids, Forall P kids -> P (Node e kids)) -> forall n, P n.
Proof.
  intros step. fix IH 1. intros [e kids]. apply step.
  induction kids as [|k kids IHk]; constructor; [apply IH | exact IHk].
Qed.

Lemma walk_update n f d anc :
  walk (map (upd n f) anc) (update n f d) = map (lift (upd n f)) (walk anc d).
Proof.
  revert anc. induction d as [e kids IH] using node_rect_kids. intros anc.
  cbn [update walk map]. unfold lift at 1. cbn [fst snd]. f_equal.
  induction IH as [|k kids Hk _ IHkids]; [reflexivity|].
  cbn [map flat_map]. rewrite map_app, <- IHkids. f_equal.
  apply (Hk (e :: anc)).
Qed.

Lemma elements_update n f d :
  elements (update n f d) = map (lift (upd n f)) (elements d).
Proof. apply (walk_update n f d []). Qed.

(** A new leaf under [parent]: the elements that were there stay as they
    are and in their order, and the leaf appears under every element that
    [parent] denotes. *)
Lemma walk_appendChild_old parent m d anc :
  Forall (fun x => has_nid (nid m) (fst x) = false) (walk anc d) ->
  List.filter (fun x => negb (has_nid (nid m) (fst x)))
    (walk anc (appendChild parent (Node m []) d)) = walk anc d.
Proof.
  revert anc. induction d as [e kids IH] using node_rect_kids. intros anc Hfresh.
  cbn [appendChild walk] in *. apply Forall_cons in Hfresh as [He Hkids].
  cbn [fst] in He. cbn [List.filter fst]. rewrite He. cbn [negb]. f_equal.
  assert (List.filter (fun x => negb (has_nid (nid m) (fst x)))
            (flat_map (walk (e :: anc)) (map (appendChild parent (Node m [])) kids))
          = flat_map (walk (e :: anc)) kids) as Hk.
  { clear He. revert Hkids. induction IH as [|k kids Hk _ IHkids]; [reflexivity|].
    cbn [map flat_map]. intros [H1 H2]%Forall_app.
    rewrite List.filter_app. f_equal; [by apply Hk | by apply IHkids]. }
  destruct (has_nid parent e); [|exact Hk].
  rewrite flat_map_app, List.filter_app. rewrite Hk. cbn.
  unfold has_nid at 1. rewrite Nat.eqb_refl. cbn. apply app_nil_r.
Qed.

Lemma walk_appendChild_new parent m d anc :
  Forall (fun x => has_nid (nid m) (fst x) = false) (walk anc d) ->
  List.filter (fun x => has_nid (nid m) (fst x))
    (walk anc (appendChild parent (Node m []) d))
  ≡ₚ map (fun x => (m, fst x :: snd x))
       (List.filter (fun x => has_nid parent (fst x)) (walk anc d)).
Proof.
  revert anc. induction d as [e kids IH] using node_rect_kids. intros anc Hfresh.
  cbn [appendChild walk] in *. apply Forall_cons in Hfresh as [He Hkids].
  cbn [fst] in He. cbn [List.filter fst]. rewrite He.
  assert (List.filter (fun x => has_nid (nid m) (fst x))
            (flat_map (walk (e :: anc)) (map (appendChild parent (Node m [])) kids))
          ≡ₚ map (fun x => (m, fst x :: snd x))
               (List.filter (fun x => has_nid parent (fst x))
                  (flat_map (walk (e :: anc)) kids))) as Hk.
  { clear He. revert Hkids. induction IH as [|k kids Hk _ IHkids]; [reflexivity|].
    cbn [map flat_map]. intros [H1 H2]%Forall_app.
    rewrite !List.filter_app, map_app. apply Permutation_app; [by apply Hk | by apply IHkids]. }
  destruct (has_nid parent e) eqn:Hp.
  - rewrite flat_map_app, List.filter_app, Hk. cbn [flat_map walk map List.filter fst snd app].
    unfold has_nid at 2. rewrite Nat.eqb_refl.
    rewrite <- Permutation_cons_append. reflexivity.
  - exact Hk.
Qed.

(** The ancestors of an element start with its parent, which is itself
    an element with the rest as its ancestors. *)
Lemma walk_parent anc d x :
  x ∈ walk anc d ->
  snd x = anc \/ exists a rest, snd x = a :: rest /\ (a, rest) ∈ walk anc d.
Proof.
  revert anc. induction d as [e kids IH] using node_rect_kids. intros anc.
  cbn [walk]. intros [-> | Hin]%elem_of_cons; [by left|]. right.
  apply list_elem_of_In, in_flat_map in Hin as (k & Hk & Hx).
  rewrite Forall_forall in IH.
  destruct (IH k (proj2 (list_elem_of_In _ _) Hk) (e :: anc) (proj2 (list_elem_of_In _ _) Hx))
    as [Heq | (a & rest & Heq & Ha)].
  - exists e, anc. split; [done | by left].
  - exists a, rest. split; [done|]. right.
    apply list_elem_of_In, in_flat_map. exists k. split; [done | by apply list_elem_of_In].
Qed.

Lemma elements_parent d x :
  x ∈ elements d ->
  snd x = [] \/ exists a rest, snd x = a :: rest /\ (a, rest) ∈ elements d.
Proof. apply walk_parent. Qed.

(** Every ancestor of an element is an element, with the ancestors that
    follow it. *)
Lemma elements_ancestor d (x : located) (pre : list elem) a rest :
  x ∈ elements d -> snd x = (pre ++ a :: rest)%list -> (a, rest) ∈ elements d.
Proof.
  revert x. induction pre as [|b pre IH]; intros x Hx Hsnd.
  - destruct (elements_parent d x Hx) as [He | (a' & rest' & He & Ha)];
      rewrite Hsnd in He; [done|]. by injection He as -> ->.
  - destruct (elements_parent d x Hx) as [He | (a' & rest' & He & Ha)];
      rewrite Hsnd in He; [done|]. injection He as <- <-.
    by apply (IH (b, (pre ++ a :: rest)%list)).
Qed.

Lemma locate_Some n d x : locate n d = Some x -> x ∈ elements d /\ nid (fst x) = n.
Proof.
  unfold locate. intros [Hin Hn]%find_some. split; [by apply list_elem_of_In|].
  by apply Nat.eqb_eq.
Qed.

Lemma find_unique {A} (key : A -> nat) (l : list A) (x : A) :
  NoDup (map key l) -> x ∈ l ->
  List.find (fun y => Nat.eqb (key y) (key x)) l = Some x.
Proof.
  induction l as [|y l IH]; [by intros _ ?%elem_of_nil|].
  cbn [map List.find]. intros [Hy Hl]%NoDup_cons [-> | Hx]%elem_of_cons.
  - by rewrite Nat.eqb_refl.
  - destruct (Nat.eqb (key y) (key x)) eqn:E; [|by apply IH].
    apply Nat.eqb_eq in E. exfalso. apply Hy. rewrite E.
    apply list_elem_of_fmap. by exists x.
Qed.

Lemma locate_unique d x :
  NoDup (nids d) -> x ∈ elements d -> locate (nid (fst x)) d = Some x.
Proof.
  intros Hnd Hx. unfold locate, has_nid.
  apply (find_unique (fun y => nid (fst y)) (elements d) x Hnd Hx).
Qed.

Lemma nids_update n f d :
  (forall e, nid (f e) = nid e) -> nids (update n f d) = nids d.
Proof.
  intros Hf. unfold nids. rewrite elements_update, map_map.
  apply map_ext. intros [e anc]. cbn. unfold upd. by destruct (has_nid n e).
Qed.

Lemma filter_length_split {A} (p q : A -> bool) (l : list A) :
  length (List.filter q l) =
  length (List.filter q (List.filter (fun x => negb (p x)) l))
  + length (List.filter q (List.filter p l)).
Proof.
  induction l as [|x l IH]; [done|]. cbn.
  destruct (p x), (q x) eqn:Hq; cbn; rewrite ?Hq; cbn; lia.
Qed.

Lemma filter_unique {A} (key : A -> nat) (l : list A) (x : A) :
  NoDup (map key l) -> x ∈ l ->
  List.filter (fun y => Nat.eqb (key y) (key x)) l = [x].
Proof.
  induction l as [|y l IH]; [by intros _ ?%elem_of_nil|].
  cbn [map List.filter]. intros [Hy Hl]%NoDup_cons Hx.
  assert (forall z, z ∈ l -> key z <> key y) as Hne.
  { intros z Hz E. apply Hy. rewrite <- E. apply list_elem_of_fmap. by exists z. }
  apply elem_of_cons in Hx as [-> | Hx].
  - rewrite Nat.eqb_refl. f_equal.
    clear IH Hy Hl. induction l as [|z l IH]; [done|]. cbn.
    assert (key z <> key y) as Hz by (apply Hne; by left).
    apply Nat.eqb_neq in Hz. rewrite Hz. apply IH. intros w Hw. apply Hne. by right.
  - assert (key y <> key x) as Hyx by (intros E; by apply (Hne x)).
    apply Nat.eqb_neq in Hyx. rewrite Hyx. by apply IH.
Qed.

Lemma filter_absent {A} (p : A -> bool) (l : list A) :
  (forall x, x ∈ l -> p x = false) -> List.filter p l = [].
Proof.
  induction l as [|x l IH]; [done|]. intros H. cbn.
  rewrite (H x) by by left. apply IH. intros y Hy. apply H. by right.
Qed.

End DomFacts.


Module ScanFacts.
Import Dom Inject Invariants DomFacts.

(** *** The identifiers [getMamIds] makes are not picker panel ids *)

Lemma digits_uint d : digits (NilEmpty.string_of_uint d) = true.
Proof. induction d; cbn; done. Qed.

Lemma digits_string_of_nat n : digits (string_of_nat n) = true.
Proof.
  unfold string_of_nat, NilZero.string_of_uint.
  pose proof (digits_uint (Nat.to_uint n)) as H.
  destruct (Nat.to_uint n); done.
Qed.

Lemma digits_no_prefix c sub s :
  digit c = false -> digits s = true -> String.prefix (String c sub) s = false.
Proof.
  intros Hc Hs. destruct s as [|c' s]; [done|]. cbn in *.
  apply andb_prop in Hs as [Hc' _].
  destruct (ascii_dec c c') as [->|Hne]; [congruence | done].
Qed.

Lemma digits_no_includes c sub s :
  digit c = false -> digits s = true -> includes (String c sub) s = false.
Proof.
  intros Hc. induction s as [|c' s IH]; intros Hs; [done|].
  cbn [includes]. rewrite (digits_no_prefix c sub _ Hc Hs). cbn in Hs.
  apply andb_prop in Hs as [_ Hs]. by apply IH.
Qed.

Lemma digits_no_ends_with c sub s :
  digit c = false -> digits s = true -> ends_with (String c sub) s = false.
Proof.
  intros Hc. induction s as [|c' s IH]; intros Hs; [done|].
  cbn [ends_with]. cbn in Hs. apply andb_prop in Hs as [Hc' Hs].
  rewrite (IH Hs), orb_false_r. apply String.eqb_neq. intros [= -> _]. congruence.
Qed.

Lemma prefix_cons c sub c' s :
  String.prefix (String c sub) (String c' s) =
  if Ascii.eqb c c' then String.prefix sub s else false.
Proof.
  cbn. destruct (ascii_dec c c') as [->|Hne].
  - by rewrite Ascii.eqb_refl.
  - apply Ascii.eqb_neq in Hne. by rewrite Hne.
Qed.

Lemma clash_prefix sub p s :
  clash sub p = true -> digits s = true -> String.prefix sub (p +:+ s) = false.
Proof.
  revert p. induction sub as [|a sub IH]; intros p Hc Hs; [by destruct p|].
  destruct p as [|b p].
  - cbn in Hc. apply negb_true_iff in Hc. by apply digits_no_prefix.
  - change (String b p +:+ s) with (String b (p +:+ s)). rewrite prefix_cons.
    cbn in Hc. destruct (Ascii.eqb a b); [by apply IH | done].
Qed.

Lemma all_clash_includes sub p s :
  all_clash sub p = true -> digits s = true -> includes sub (p +:+ s) = false.
Proof.
  induction p as [|b p IH]; intros Hc Hs.
  - cbn in Hc. rewrite andb_true_r in Hc. destruct sub as [|a sub]; [done|].
    cbn in Hc. apply negb_true_iff in Hc. by apply digits_no_includes.
  - cbn [all_clash] in Hc. apply andb_prop in Hc as [Hc Hrest].
    change (String b p +:+ s) with (String b (p +:+ s)). cbn [includes].
    change (String b (p +:+ s)) with (String b p +:+ s).
    rewrite (clash_prefix _ _ _ Hc Hs). by apply IH.
Qed.

Lemma prefix_self s : String.prefix s s = true.
Proof. induction s as [|c s IH]; [done|]. by rewrite prefix_cons, Ascii.eqb_refl. Qed.

Lemma ends_with_includes sub s : ends_with sub s = true -> includes sub s = true.
Proof.
  induction s as [|c s IH]; cbn [ends_with includes].
  - rewrite orb_false_r. intros ->%String.eqb_eq. done.
  - intros [->%String.eqb_eq | H]%orb_prop.
    + by rewrite prefix_self.
    + rewrite (IH H). apply orb_true_r.
Qed.

Lemma tab_id_not_panel n (e : elem) :
  attrs e !! "id" = Some ("mam-picker-tab-" +:+ string_of_nat n) ->
  sel_picker_panel e = false.
Proof.
  intros He. unfold sel_picker_panel. rewrite He.
  assert (includes "picker-tab-panel" ("mam-picker-tab-" +:+ string_of_nat n) = false) as Hi.
  { apply all_clash_includes; [by vm_compute | apply digits_string_of_nat]. }
  rewrite Hi, orb_false_r.
  destruct (ends_with _ _) eqn:E; [|done]. apply ends_with_includes in E. congruence.
Qed.


(** *** Searching a list *)

Lemma find_map {A B} (f : A -> B) (p : B -> bool) (l : list A) :
  List.find p (map f l) = f <$> List.find (fun x => p (f x)) l.
Proof. induction l as [|x l IH]; [done|]. cbn. by destruct (p (f x)). Qed.



Lemma find_ext_in {A} (p q : A -> bool) (l : list A) :
  (forall x, x ∈ l -> p x = q x) -> List.find p l = List.find q l.
Proof.
  induction l as [|y l IH]; [done|]. intros H. cbn.
  rewrite (H y) by by left. destruct (q y); [done|]. apply IH. intros x Hx. apply H. by right.
Qed.

Lemma find_elem {A} (p : A -> bool) (l : list A) (x : A) :
  List.find p l = Some x -> x ∈ l /\ p x = true.
Proof. intros [H1 H2]%find_some. split; [by apply list_elem_of_In | done]. Qed.

(** *** Attributes *)

Lemma attrs_setAttribute k v e k' :
  attrs (setAttribute k v e) !! k' = if decide (k = k') then Some v else attrs e !! k'.
Proof. cbn. apply lookup_insert. Qed.

Lemma attrs_removeAttribute k e k' :
  attrs (removeAttribute k e) !! k' = if decide (k = k') then None else attrs e !! k'.
Proof. cbn. apply lookup_delete. Qed.

Lemma fold_remove_classes names e :
  nid (fold_left (fun e name => classList_remove name e) names e) = nid e /\
  attrs (fold_left (fun e name => classList_remove name e) names e) = attrs e.
Proof.
  revert e. induction names as [|n names IH]; intros e; [done|]. cbn [fold_left].
  destruct (IH (classList_remove n e)) as [-> ->]. done.
Qed.

Lemma new_tab_spec fresh panelId tabId names src :
  let m := new_tab fresh panelId tabId names src in
  nid m = fresh /\
  attrs m !! "id" = Some tabId /\
  attrs m !! "role" = Some "tab" /\
  attrs m !! MAM_TAB_ATTR = Some "" /\
  attrs m !! MAM_PANEL_ATTR = attrs src !! MAM_PANEL_ATTR.
Proof.
  cbn zeta. unfold new_tab, setTabActiveState.
  destruct (fold_remove_classes names
    (setAttribute "tabindex" "-1"
       (removeAttribute "aria-current"
          (setAttribute "aria-selected" "false"
             {| nid := fresh;
                attrs := attrs (setAttribute "id" tabId
                           (setAttribute "aria-controls" panelId
                              (setAttribute "role" "tab"
                                 (setAttribute MAM_TAB_ATTR ""
                                    {| nid := fresh; attrs := attrs src;
                                       classes := classes src; style := style src;
                                       text := text src |}))));
                classes := classes src; style := style src; text := MAM_LABEL |}))))
    as [Hn Ha].
  cbn in Hn, Ha |- *. rewrite Hn, Ha. split; [done|].
  repeat split; by simplify_map_eq.
Qed.

(** The selectors read attributes that a benign change keeps. *)
Lemma benign_attr_is h k v e :
  benign h -> k <> MAM_BOUND_ATTR -> k <> MAM_PANEL_ID_ATTR -> k <> MAM_TAB_ID_ATTR ->
  attr_is k v (h e) = attr_is k v e.
Proof. intros Hb ???. unfold attr_is. by rewrite (bn_attrs h Hb). Qed.

Lemma benign_hasAttribute h k e :
  benign h -> k <> MAM_BOUND_ATTR -> k <> MAM_PANEL_ID_ATTR -> k <> MAM_TAB_ID_ATTR ->
  hasAttribute k (h e) = hasAttribute k e.
Proof. intros Hb ???. unfold hasAttribute. by rewrite (bn_attrs h Hb). Qed.

Lemma benign_sel h e :
  benign h ->
  sel_tablist (h e) = sel_tablist e /\ sel_tab (h e) = sel_tab e /\
  sel_picker_panel (h e) = sel_picker_panel e /\
  sel_mam_tab (h e) = sel_mam_tab e /\ sel_mam_panel (h e) = sel_mam_panel e /\
  elem_id (h e) = elem_id e /\
  (forall id, sel_controls id (h e) = sel_controls id e) /\
  (forall id, sel_tab_controls id (h e) = sel_tab_controls id e).
Proof.
  intros Hb.
  unfold sel_tablist, sel_tab, sel_picker_panel, sel_mam_tab, sel_mam_panel, elem_id,
    sel_tab_controls, sel_controls, sel_tab.
  rewrite !(benign_attr_is h) by done. rewrite !(benign_hasAttribute h) by done.
  rewrite (bn_attrs h Hb) by done.
  repeat split; intros; by rewrite !(benign_attr_is h) by done.
Qed.

Lemma benign_id : benign (fun e => e).
Proof. by split. Qed.

Lemma benign_compose g h : benign g -> benign h -> benign (fun e => g (h e)).
Proof.
  intros Hg Hh. split.
  - intros e. by rewrite (bn_nid g Hg), (bn_nid h Hh).
  - intros e k ???. by rewrite (bn_attrs g Hg), (bn_attrs h Hh).
  - intros e H. by apply (bn_bound g Hg), (bn_bound h Hh).
Qed.

Lemma benign_upd n k v :
  k = MAM_BOUND_ATTR \/ k = MAM_PANEL_ID_ATTR \/ k = MAM_TAB_ID_ATTR ->
  benign (upd n (setAttribute k v)).
Proof.
  intros Hk. split; intros e; unfold upd; destruct (has_nid n e); try done.
  - intros k' ???. rewrite attrs_setAttribute. case_decide; [|done]. subst.
    by destruct Hk as [-> | [-> | ->]].
  - unfold hasAttribute. rewrite attrs_setAttribute. by case_decide.
Qed.

(** *** [tablist_of] *)

Lemma tablist_of_lift h x :
  (forall e, sel_tablist (h e) = sel_tablist e) ->
  tablist_of (lift h x) = h <$> tablist_of x.
Proof.
  intros Hs. unfold tablist_of, closest, parentElement, lift. cbn [fst snd].
  change (h (fst x) :: map h (snd x)) with (map h (fst x :: snd x)).
  rewrite find_map. rewrite (find_ext_in _ sel_tablist) by (intros; apply Hs).
  destruct (List.find sel_tablist _); [done|]. by destruct (snd x).
Qed.

Lemma tablist_of_elem x tl :
  tablist_of x = Some tl -> tl ∈ fst x :: snd x.
Proof.
  unfold tablist_of, closest, parentElement.
  destruct (List.find sel_tablist _) eqn:E.
  - intros [= <-]. by apply find_elem in E as [? _].
  - destruct (snd x) as [|p rest]; [done|]. intros [= <-]. right. by left.
Qed.

(** The tab-list of an element is an element, and its children that do
    not have the role of a tab-list find it again. *)
Lemma tablist_of_located d x tl :
  x ∈ elements d -> tablist_of x = Some tl ->
  exists y, y ∈ elements d /\ fst y = tl /\ anchored y.
Proof.
  intros Hx Ht. unfold tablist_of, closest, parentElement in Ht.
  destruct (List.find sel_tablist (fst x :: snd x)) eqn:E.
  - injection Ht as ->. apply find_elem in E as [Hin Hsel].
    apply elem_of_cons in Hin as [-> | Hin].
    + exists x. by repeat split; [|left].
    + apply list_elem_of_split in Hin as (pre & rest & Hsplit).
      exists (tl, rest). split; [by eapply elements_ancestor|]. by split; [|left].
  - destruct (snd x) as [|p rest] eqn:Hs; [done|]. injection Ht as ->.
    exists (tl, rest). split; [by apply (elements_ancestor d x [])|].
    split; [done|]. right. cbn [fst snd]. cbn in E.
    by destruct (sel_tablist (fst x)).
Qed.

Lemma anchored_child m y :
  anchored y -> sel_tablist m = false -> tablist_of (m, fst y :: snd y) = Some (fst y).
Proof.
  intros Ha Hm. unfold tablist_of, closest, parentElement. cbn [fst snd List.find head].
  rewrite Hm. destruct Ha as [Ha | Ha].
  - by rewrite Ha.
  - cbn in Ha. by rewrite Ha.
Qed.

Lemma anchored_lift h y :
  (forall e, sel_tablist (h e) = sel_tablist e) -> anchored y -> anchored (lift h y).
Proof.
  intros Hs [Ha | Ha]; [left | right]; unfold lift; cbn [fst snd].
  - by rewrite Hs.
  - change (h (fst y) :: map h (snd y)) with (map h (fst y :: snd y)).
    rewrite find_map, (find_ext_in _ sel_tablist) by (intros; apply Hs). by rewrite Ha.
Qed.

End ScanFacts.


Module CollectFacts.
Import Dom Inject Invariants DomFacts ScanFacts.

Lemma seen_elem n seen : existsb (Nat.eqb n) seen = true <-> n ∈ seen.
Proof.
  rewrite existsb_exists, list_elem_of_In. split.
  - by intros (x & Hx & ->%Nat.eqb_eq).
  - intros H. exists n. by rewrite Nat.eqb_refl.
Qed.

Lemma tab_for_elem d id t : tab_for d id = Some t -> t ∈ elements d.
Proof.
  unfold tab_for, querySelector.
  destruct (List.find _ _) eqn:E1.
  - intros [= <-]. by apply find_elem in E1 as [? _].
  - intros E2. by apply find_elem in E2 as [? _].
Qed.

Lemma collect_sound d panels seen en :
  en ∈ collect d panels seen ->
  exists p t tl, p ∈ panels /\ tab_for d (elem_id (fst p)) = Some t /\
                 tablist_of t = Some tl /\ tabList en = nid tl /\
                 sampleTab en = nid (fst t).
Proof.
  revert seen. induction panels as [|p panels IH]; intros seen; [by intros ?%elem_of_nil|].
  cbn [collect].
  assert (forall seen', en ∈ collect d panels seen' ->
            exists p0 t tl, p0 ∈ p :: panels /\ tab_for d (elem_id (fst p0)) = Some t /\
                            tablist_of t = Some tl /\ tabList en = nid tl /\
                            sampleTab en = nid (fst t)) as Hrest.
  { intros seen' H. destruct (IH seen' H) as (p0 & t & tl & Hp & Hrest).
    exists p0, t, tl. split; [by right | done]. }
  destruct (tab_for d (elem_id (fst p))) as [t|] eqn:Et; [|by apply Hrest].
  destruct (tablist_of t) as [tl|] eqn:El; [|by apply Hrest].
  destruct (existsb _ seen); [by apply Hrest|].
  intros [-> | H]%elem_of_cons; [|by apply (Hrest (nid tl :: seen))].
  exists p, t, tl. by split; [left|].
Qed.

Lemma collect_distinct d panels seen :
  NoDup (map tabList (collect d panels seen)) /\
  (forall en, en ∈ collect d panels seen -> tabList en ∉ seen).
Proof.
  revert seen. induction panels as [|p panels IH]; intros seen.
  { split; [constructor | by intros ? ?%elem_of_nil]. }
  cbn [collect].
  destruct (tab_for d (elem_id (fst p))) as [t|]; [|apply IH].
  destruct (tablist_of t) as [tl|]; [|apply IH].
  destruct (existsb _ seen) eqn:Es; [apply IH|].
  destruct (IH (nid tl :: seen)) as [Hnd Hout]. split.
  - cbn [map]. constructor; [|done].
    intros (en & Heq & Hen)%list_elem_of_fmap. apply (Hout en Hen). rewrite <- Heq. by left.
  - intros en [-> | Hen]%elem_of_cons.
    + cbn. intros Hin%seen_elem. congruence.
    + intros Hin. apply (Hout en Hen). by right.
Qed.

Lemma collect_complete d panels seen p t tl :
  p ∈ panels -> tab_for d (elem_id (fst p)) = Some t -> tablist_of t = Some tl ->
  nid tl ∈ seen \/ nid tl ∈ map tabList (collect d panels seen).
Proof.
  revert seen. induction panels as [|q panels IH]; intros seen; [by intros ?%elem_of_nil|].
  intros Hp Ht Hl. cbn [collect]. apply elem_of_cons in Hp as [<- | Hp].
  - rewrite Ht, Hl. destruct (existsb _ seen) eqn:Es.
    + left. by apply seen_elem.
    + right. cbn. by left.
  - destruct (tab_for d (elem_id (fst q))) as [t'|]; [|by apply IH].
    destruct (tablist_of t') as [tl'|]; [|by apply IH].
    destruct (existsb _ seen); [by apply IH|].
    destruct (IH (nid tl' :: seen) Hp Ht Hl) as [[-> | Hin]%elem_of_cons | Hin].
    + right. cbn. by left.
    + by left.
    + right. cbn. by right.
Qed.

Lemma findPickerEntries_ok d en :
  en ∈ findPickerEntries d -> entry_ok d en.
Proof.
  intros (p & t & tl & Hp & Ht & Hl & Htl & Hst)%collect_sound.
  pose proof (tab_for_elem _ _ _ Ht) as Hin.
  destruct (tablist_of_located d t tl Hin Hl) as (y & Hy & <- & Ha).
  split; [exists y | exists t]; done.
Qed.


End CollectFacts.


Module InjectFacts.
Import Dom Inject Invariants DomFacts ScanFacts CollectFacts.

Lemma locate_in d x n :
  NoDup (nids d) -> x ∈ elements d -> nid (fst x) = n -> locate n d = Some x.
Proof. intros Hnd Hx <-. by apply locate_unique. Qed.

Lemma elements_update_in n f d x :
  x ∈ elements d -> lift (upd n f) x ∈ elements (update n f d).
Proof. intros Hx. rewrite elements_update. apply list_elem_of_fmap. by exists x. Qed.

Lemma nid_upd_set n k v e : nid (upd n (setAttribute k v) e) = nid e.
Proof. unfold upd. by destruct (has_nid n e). Qed.

Lemma nids_update_set n k v d : nids (update n (setAttribute k v) d) = nids d.
Proof. by apply nids_update. Qed.

Lemma getMamIds_new s tl :
  attr_at tl MAM_PANEL_ID_ATTR (doc s) = None ->
  let id := S (panelIdCounter s) in
  let panelId := "mam-picker-tab-panel-" +:+ string_of_nat id in
  let tabId := "mam-picker-tab-" +:+ string_of_nat id in
  getMamIds s tl =
  ({| doc := update tl (setAttribute MAM_TAB_ID_ATTR tabId)
               (update tl (setAttribute MAM_PANEL_ID_ATTR panelId) (doc s));
      fresh := fresh s; panelIdCounter := id; cleanupFns := cleanupFns s;
      mamRoots := mamRoots s; listeners := listeners s; frames := frames s;
      observer := observer s |}, (panelId, tabId)).
Proof. intros H. unfold getMamIds. by rewrite H. Qed.

(** One injection into a tab-list that is not bound and has no ids. *)
Lemma injectMamTab_new gen s en X T :
  NoDup (nids (doc s)) ->
  X ∈ elements (doc s) -> nid (fst X) = tabList en ->
  attrs (fst X) !! MAM_BOUND_ATTR = None ->
  attrs (fst X) !! MAM_PANEL_ID_ATTR = None ->
  T ∈ elements (doc s) -> nid (fst T) = sampleTab en ->
  let tl := tabList en in
  let id := S (panelIdCounter s) in
  let panelId := "mam-picker-tab-panel-" +:+ string_of_nat id in
  let tabId := "mam-picker-tab-" +:+ string_of_nat id in
  let u := fun e => upd tl (setAttribute MAM_TAB_ID_ATTR tabId)
                      (upd tl (setAttribute MAM_PANEL_ID_ATTR panelId)
                         (upd tl (setAttribute MAM_BOUND_ATTR "true") e)) in
  let d := update tl (setAttribute MAM_TAB_ID_ATTR tabId)
             (update tl (setAttribute MAM_PANEL_ID_ATTR panelId)
                (update tl (setAttribute MAM_BOUND_ATTR "true") (doc s))) in
  exists names,
    let m := new_tab (fresh s) panelId tabId names (u (fst T)) in
    doc (injectMamTab gen s en) = appendChild tl (Node m []) d /\
    fresh (injectMamTab gen s en) = S (fresh s).
Proof.
  intros Hnd HX HXn HXb HXp HT HTn. cbn zeta.
  unfold injectMamTab.
  assert (hasAttribute_at (tabList en) MAM_BOUND_ATTR (doc s) = false) as ->.
  { unfold hasAttribute_at, attr_at. rewrite (locate_in _ X) by done.
    unfold getAttribute. by rewrite HXb. }
  set (g1 := setAttribute MAM_BOUND_ATTR "true").
  set (s1 := update_at (tabList en) g1 s).
  assert (doc s1 = update (tabList en) g1 (doc s)) as Hd1 by reflexivity.
  assert (NoDup (nids (doc s1))) as Hnd1 by (rewrite Hd1; subst g1; by rewrite nids_update_set).
  rewrite <- Hd1 in *.
  pose proof (elements_update_in (tabList en) g1 _ _ HX) as HX1.
  pose proof (elements_update_in (tabList en) g1 _ _ HT) as HT1.
  rewrite (locate_in (doc s1) (lift (upd (tabList en) g1) T)); [|done|done|]; cycle 1.
  { cbn [lift fst]. subst g1. by rewrite nid_upd_set. }
  rewrite (getMamIds_new s1); cycle 1.
  { unfold attr_at. rewrite (locate_in (doc s1) (lift (upd (tabList en) g1) X));
      [|done|done|by cbn [lift fst]; subst g1; rewrite nid_upd_set].
    cbn [lift fst]. unfold upd, has_nid. rewrite HXn, Nat.eqb_refl.
    unfold getAttribute. subst g1. rewrite attrs_setAttribute. by case_decide. }
  cbn [doc fresh panelIdCounter].
  set (g2 := setAttribute MAM_PANEL_ID_ATTR _).
  set (g3 := setAttribute MAM_TAB_ID_ATTR _).
  assert (NoDup (nids (update (tabList en) g3 (update (tabList en) g2 (doc s1))))) as Hnd3
    by (subst g2 g3; by rewrite !nids_update_set).
  pose proof (elements_update_in (tabList en) g3 _ _
                (elements_update_in (tabList en) g2 _ _ HT1)) as HT3.
  rewrite (locate_in _ _ _ Hnd3 HT3); cycle 1.
  { cbn [lift fst]. subst g1 g2 g3. by rewrite !nid_upd_set. }
  eexists. split; reflexivity.
Qed.


Lemma lift_compose g f x : lift g (lift f x) = lift (fun e => g (f e)) x.
Proof. unfold lift. cbn. by rewrite map_map. Qed.

Lemma filter_map_comm {A B} (q : B -> bool) (f : A -> B) (l : list A) :
  List.filter q (map f l) = map f (List.filter (fun x => q (f x)) l).
Proof. induction l as [|x l IH]; [done|]. cbn. destruct (q (f x)); cbn; by rewrite IH. Qed.

Lemma filter_ext_in {A} (p q : A -> bool) (l : list A) :
  (forall x, x ∈ l -> p x = q x) -> List.filter p l = List.filter q l.
Proof.
  induction l as [|y l IH]; [done|]. intros H. cbn.
  rewrite (H y) by by left. rewrite IH; [done|]. intros x Hx. apply H. by right.
Qed.

Lemma filter_partition {A} (p : A -> bool) (l : list A) :
  l ≡ₚ (List.filter (fun x => negb (p x)) l ++ List.filter p l)%list.
Proof.
  induction l as [|x l IH]; [done|]. cbn. destruct (p x); cbn.
  - by rewrite <- Permutation_middle, <- IH.
  - by rewrite <- IH.
Qed.

Lemma filter_absorb {A} (q p : A -> bool) (l : list A) :
  (forall x, q x = true -> p x = false) ->
  List.filter q l = List.filter q (List.filter (fun x => negb (p x)) l).
Proof.
  intros H. induction l as [|x l IH]; [done|]. cbn.
  destruct (q x) eqn:Hq.
  - rewrite (H x Hq). cbn. rewrite Hq. by f_equal.
  - destruct (p x); cbn; rewrite ?Hq; done.
Qed.

Lemma elem_of_filter_host F l x :
  x ∈ List.filter (host F) l -> x ∈ l /\ host F x = true.
Proof. intros [? ?]%list_elem_of_In%filter_In. by rewrite list_elem_of_In. Qed.

End InjectFacts.


Module StepFacts.
Import Dom Inject Invariants DomFacts ScanFacts CollectFacts InjectFacts.

Lemma clean_elem_spec e :
  clean_elem e = true ->
  attrs e !! MAM_TAB_ATTR = None /\ attrs e !! MAM_PANEL_ATTR = None /\
  attrs e !! MAM_BOUND_ATTR = None /\ attrs e !! MAM_PANEL_ID_ATTR = None /\
  attrs e !! MAM_TAB_ID_ATTR = None.
Proof.
  unfold clean_elem, plugin_attrs, hasAttribute. cbn [forallb].
  rewrite !andb_true_iff, !negb_true_iff.
  intros (H1 & H2 & H3 & H4 & H5 & _).
  repeat split;
    match goal with
    | |- attrs e !! ?k = None => by destruct (attrs e !! k)
    end.
Qed.

Lemma cleanb_spec d x : cleanb d = true -> x ∈ elements d -> clean_elem (fst x) = true.
Proof.
  unfold cleanb. rewrite forallb_forall. intros H Hx. by apply H, list_elem_of_In.
Qed.

Lemma host_lift F h x : (forall e, nid (h e) = nid e) -> host F (lift h x) = host F x.
Proof. intros Hn. unfold host, lift. cbn. by rewrite Hn. Qed.

Lemma mamlike_lift h x : benign h -> mamlike x -> mamlike (lift h x).
Proof.
  intros Hb (Hp & Ht & Hm & tl & Htl & Hbd).
  destruct (benign_sel h (fst x) Hb) as (_ & _ & Hpp & Hmt & Hmp & _).
  unfold mamlike. cbn [lift fst]. rewrite Hpp, Hmt, Hmp. repeat split; try done.
  exists (h tl). rewrite tablist_of_lift by (intros e; apply (benign_sel h e Hb)).
  rewrite Htl. split; [done|]. by apply (bn_bound h Hb).
Qed.

Lemma mam_tab_lift h tl x :
  benign h ->
  (sel_mam_tab (fst (lift h x)) &&
   match parentElement (lift h x) with Some p => has_nid tl p | None => false end)
  = (sel_mam_tab (fst x) &&
     match parentElement x with Some p => has_nid tl p | None => false end).
Proof.
  intros Hb. destruct (benign_sel h (fst x) Hb) as (_ & _ & _ & Hmt & _).
  unfold parentElement, lift. cbn [fst snd]. rewrite Hmt. f_equal.
  destruct (snd x) as [|p rest]; [done|]. cbn. unfold has_nid. by rewrite (bn_nid h Hb).
Qed.


Lemma upd_other n f e : nid e <> n -> upd n f e = e.
Proof. intros H%Nat.eqb_neq. unfold upd, has_nid. by rewrite H. Qed.

(** One injection of the scan keeps what the scan has established. *)
Lemma scanned_step gen d0 F done s en :
  cleanb d0 = true ->
  scanned d0 F done s -> entry_ok d0 en -> tabList en ∉ map tabList done ->
  scanned d0 F (done ++ [en]) (injectMamTab gen s en).
Proof.
  intros Hclean (Hnd & Hlt & HF & Hcount & Hmam & h & Hb & Hid & Hbound & Hhost)
    [(x0 & Hx0 & Hx0n & Hanch) (t0 & Ht0 & Ht0n)] Hnew.
  set (tl := tabList en) in *.
  (* the tab-list and the sample tab as they are now *)
  assert (forall y, y ∈ elements d0 -> lift h y ∈ elements (doc s)) as Hnow.
  { intros y Hy.
    assert (lift h y ∈ List.filter (host F) (elements (doc s))) as Hin
      by (rewrite Hhost; apply list_elem_of_fmap; by exists y).
    by apply elem_of_filter_host in Hin as [? _]. }
  assert (h (fst x0) = fst x0) as Hx0h by (apply Hid; by rewrite Hx0n).
  destruct (clean_elem_spec _ (cleanb_spec _ _ Hclean Hx0)) as (_ & _ & Hxb & Hxp & _).
  destruct (clean_elem_spec _ (cleanb_spec _ _ Hclean Ht0)) as (_ & Htp & _).
  destruct (injectMamTab_new gen s en (lift h x0) (lift h t0)) as (names & Hdoc & Hfresh);
    try (by apply Hnow); cbn [lift fst]; rewrite ?(bn_nid h Hb), ?Hx0h; try done.
  fold tl in Hdoc.
  set (id := S (panelIdCounter s)) in *.
  set (panelId := "mam-picker-tab-panel-" +:+ string_of_nat id) in *.
  set (tabId := "mam-picker-tab-" +:+ string_of_nat id) in *.
  set (U := fun e => upd tl (setAttribute MAM_TAB_ID_ATTR tabId)
                       (upd tl (setAttribute MAM_PANEL_ID_ATTR panelId)
                          (upd tl (setAttribute MAM_BOUND_ATTR "true") e))) in *.
  set (d := update tl _ (update tl _ (update tl _ (doc s)))) in *.
  set (m := new_tab (fresh s) panelId tabId names (U (fst (lift h t0)))) in *.
  set (s' := injectMamTab gen s en) in *.
  assert (doc s' = appendChild tl (Node m []) d) as Hdoc' by exact Hdoc.
  clear Hdoc. rename Hdoc' into Hdoc.
  assert (benign U) as HbU.
  { apply (benign_compose (upd tl _) (fun e => upd tl _ (upd tl _ e)));
      [apply benign_upd; auto|].
    apply (benign_compose (upd tl _) (upd tl _)); apply benign_upd; auto. }
  assert (elements d = map (lift U) (elements (doc s))) as Hd.
  { subst d. rewrite !elements_update, !map_map. apply map_ext. intros y.
    by rewrite !lift_compose. }
  assert (nids d = nids (doc s)) as Hnids by (subst d; by rewrite !nids_update_set).
  destruct (new_tab_spec (fresh s) panelId tabId names (U (fst (lift h t0))))
    as (Hmn & Hmid & Hmrole & Hmtab & Hmpanel).
  fold m in Hmn, Hmid, Hmrole, Hmtab, Hmpanel.
  assert (Forall (fun x => has_nid (nid m) (fst x) = false) (elements d)) as Hmfresh.
  { apply Forall_forall. intros y Hy. unfold has_nid. apply Nat.eqb_neq.
    assert (nid (fst y) ∈ nids (doc s)) as Hin
      by (rewrite <- Hnids; apply list_elem_of_fmap; by exists y).
    apply Hlt in Hin. lia. }
  pose proof (walk_appendChild_old tl m d [] Hmfresh) as Hold.
  pose proof (walk_appendChild_new tl m d [] Hmfresh) as Hadd.
  fold (elements d) in Hold, Hadd. fold (elements (appendChild tl (Node m []) d)) in Hold, Hadd.
  rewrite <- Hdoc in Hold, Hadd.
  (* the tab-list in the document that receives the tab *)
  set (Y := lift U (lift h x0)).
  assert (Y ∈ elements d) as HY
    by (rewrite Hd; apply list_elem_of_fmap; exists (lift h x0); split; [done | by apply Hnow]).
  assert (nid (fst Y) = tl) as HYn
    by (subst Y; cbn [lift fst]; by rewrite (bn_nid U HbU), (bn_nid h Hb)).
  assert (List.filter (fun x => has_nid tl (fst x)) (elements d) = [Y]) as Honly.
  { rewrite <- (filter_unique (fun y => nid (fst y)) (elements d) Y);
      [|by rewrite <- Hnids in Hnd | done].
    apply filter_ext_in. intros y _. unfold has_nid. by rewrite HYn. }
  rewrite Honly in Hadd. cbn [map] in Hadd. apply Permutation_singleton_r in Hadd.
  set (M := (m, fst Y :: snd Y)) in *.
  pose proof (filter_partition (fun x => has_nid (nid m) (fst x)) (elements (doc s'))) as Hperm.
  cbn beta in Hperm. rewrite Hold, Hadd in Hperm.
  assert (hasAttribute MAM_BOUND_ATTR (fst Y) = true) as HYb.
  { subst Y U. cbn [lift fst]. rewrite Hx0h.
    apply (bn_bound _ (benign_upd tl MAM_TAB_ID_ATTR tabId ltac:(auto))).
    apply (bn_bound _ (benign_upd tl MAM_PANEL_ID_ATTR panelId ltac:(auto))).
    unfold upd, has_nid. rewrite Hx0n, Nat.eqb_refl. unfold hasAttribute.
    by rewrite attrs_setAttribute, decide_True. }
  assert (mamlike M) as HM.
  { unfold mamlike, M. cbn [fst].
    split; [by apply (tab_id_not_panel id)|].
    split; [unfold sel_mam_tab, hasAttribute; by rewrite Hmtab|].
    split.
    { unfold sel_mam_panel, hasAttribute. rewrite Hmpanel. cbn [lift fst].
      by rewrite (bn_attrs U HbU), (bn_attrs h Hb), Htp. }
    exists (fst Y). split; [|done]. apply anchored_child.
    - subst Y. apply anchored_lift; [intros e; apply (benign_sel U e HbU)|].
      apply anchored_lift; [intros e; apply (benign_sel h e Hb) | done].
    - unfold sel_tablist, attr_is. by rewrite Hmrole. }
  unfold scanned. rewrite Hfresh.
  split; [|split; [|split; [|split; [|split]]]].
  - unfold nids. rewrite Hperm, map_app. cbn [map fst M].
    fold (nids d). rewrite Hnids, Hmn. apply NoDup_app. split; [done|]. split.
    + intros n Hn%Hlt [-> | []%elem_of_nil]%elem_of_cons. lia.
    + apply NoDup_singleton.
  - intros n. unfold nids. rewrite Hperm, map_app. cbn [map fst M].
    fold (nids d). rewrite Hnids, Hmn.
    intros [Hn%Hlt | [-> | []%elem_of_nil]%elem_of_cons]%elem_of_app; lia.
  - rewrite length_app. cbn. lia.
  - intros tl'. unfold mam_tabs_of.
    rewrite (filter_length_split (fun x => has_nid (nid m) (fst x))), Hold, Hadd.
    rewrite Hd, filter_map_comm, length_map.
    rewrite (filter_ext_in _ _ _ (fun x _ => mam_tab_lift U tl' x HbU)).
    fold (mam_tabs_of tl' (doc s)). rewrite Hcount.
    rewrite map_app, List.filter_app, length_app. f_equal.
    cbn [map List.filter M fst parentElement snd head].
    unfold sel_mam_tab, hasAttribute. rewrite Hmtab. cbn [andb].
    unfold has_nid. rewrite HYn. fold tl. rewrite (Nat.eqb_sym tl tl').
    by destruct (Nat.eqb tl' tl).
  - intros x Hx Hh. rewrite Hperm in Hx.
    apply elem_of_app in Hx as [Hx | [-> | []%elem_of_nil]%elem_of_cons]; [|done].
    rewrite Hd in Hx. apply list_elem_of_fmap in Hx as (y & -> & Hy).
    apply mamlike_lift; [done|]. apply Hmam; [done|].
    by rewrite host_lift in Hh by apply (bn_nid U HbU).
  - exists (fun e => U (h e)). split; [by apply benign_compose|]. split; [|split].
    + intros e He. rewrite map_app in He. cbn in He.
      rewrite Hid by (intros ?; apply He, elem_of_app; by left).
      subst U. cbn beta.
      assert (nid e <> tl) as Hne by (intros E; apply He, elem_of_app; right; rewrite E; by left).
      by rewrite !(upd_other tl _ e Hne).
    + intros y Hy Hin. rewrite map_app in Hin.
      apply elem_of_app in Hin as [Hin | [Hin | []%elem_of_nil]%elem_of_cons].
      * by apply (bn_bound U HbU), Hbound.
      * subst U. cbn beta.
        apply (bn_bound _ (benign_upd tl MAM_TAB_ID_ATTR tabId ltac:(auto))).
        apply (bn_bound _ (benign_upd tl MAM_PANEL_ID_ATTR panelId ltac:(auto))).
        unfold upd, has_nid. rewrite (bn_nid h Hb), Hin, Nat.eqb_refl.
        unfold hasAttribute. by rewrite attrs_setAttribute, decide_True.
    + rewrite (filter_absorb (host F) (fun x => has_nid (nid m) (fst x))); cycle 1.
      { intros x. unfold host, has_nid. rewrite Hmn.
        intros Hx%Nat.ltb_lt. apply Nat.eqb_neq. lia. }
      rewrite Hold, Hd, filter_map_comm.
      rewrite (filter_ext_in _ (host F)) by (intros; apply host_lift, (bn_nid U HbU)).
      rewrite Hhost, map_map. apply map_ext. intros y. apply lift_compose.
Qed.

End StepFacts.


Module IdempotenceFacts.
Import Dom Inject Invariants DomFacts ScanFacts CollectFacts InjectFacts StepFacts.


Lemma wfb_spec s :
  wfb s = true -> NoDup (nids (doc s)) /\ (forall n, n ∈ nids (doc s) -> n < fresh s).
Proof.
  unfold wfb. intros [Hnd Hlt]%andb_prop. split; [by apply bool_decide_eq_true in Hnd|].
  rewrite forallb_forall in Hlt. intros n Hn%list_elem_of_In. by apply Nat.ltb_lt, Hlt.
Qed.

Lemma lift_id x : lift (fun e => e) x = x.
Proof. destruct x as [e anc]. unfold lift. cbn. by rewrite map_id. Qed.

Lemma scanned_initial s :
  wfb s = true -> cleanb (doc s) = true -> scanned (doc s) (fresh s) [] s.
Proof.
  intros [Hnd Hlt]%wfb_spec Hclean.
  assert (forall x, x ∈ elements (doc s) -> host (fresh s) x = true) as Hhost.
  { intros x Hx. apply Nat.ltb_lt, Hlt, list_elem_of_fmap. by exists x. }
  split; [done|]. split; [done|]. split; [cbn; lia|]. split; [|split].
  - intros tl. unfold mam_tabs_of. rewrite filter_absent; [done|].
    intros x Hx. destruct (clean_elem_spec _ (cleanb_spec _ _ Hclean Hx)) as (Ht & _).
    unfold sel_mam_tab, hasAttribute. by rewrite Ht.
  - intros x Hx Hh. rewrite Hhost in Hh; done.
  - exists (fun e => e). split; [apply benign_id|]. split; [done|]. split.
    + by intros ? ? ?%elem_of_nil.
    + rewrite (map_ext _ (fun x => x) lift_id), map_id.
      rewrite (filter_ext_in _ (fun _ => true)) by done.
      clear. induction (elements (doc s)) as [|x l IH]; [done|]. cbn. by rewrite IH.
Qed.






End IdempotenceFacts.


Module PanelFacts.
Import Dom Inject Invariants Examples ScanFacts.

Lemma get_set_style prop v e : get_style prop (set_style prop v e) = v.
Proof.
  unfold get_style, set_style. cbn. destruct (String.eqb v "") eqn:E.
  - apply String.eqb_eq in E. subst. by rewrite lookup_delete_eq.
  - by rewrite lookup_insert_eq.
Qed.

Lemma attrs_set_style prop v e : attrs (set_style prop v e) = attrs e.
Proof. reflexivity. Qed.

Lemma style_setAttribute k v e : style (setAttribute k v e) = style e.
Proof. reflexivity. Qed.

Lemma style_removeAttribute k e : style (removeAttribute k e) = style e.
Proof. reflexivity. Qed.

Ltac attr_norm :=
  repeat first
    [ rewrite attrs_set_style
    | rewrite attrs_setAttribute
    | rewrite attrs_removeAttribute
    | rewrite decide_True by done
    | rewrite decide_False by done ].

(** The two loop bodies of [setMamActive] on a sibling panel that is
    displayed: what the activation hides, the deactivation gives back. *)
Lemma displayed_panel_comes_back (panel : elem) :
  get_style "display" panel <> "none" ->
  getAttribute VC_MAM_HIDDEN panel = None ->
  let back := restore_panel (hide_panel panel) in
  get_style "display" back = get_style "display" panel /\
  hasAttribute "hidden" back = hasAttribute "hidden" panel /\
  getAttribute VC_MAM_DISPLAY back = None /\
  getAttribute VC_MAM_HIDDEN back = None.
Proof.
  intros Hd Hmh. cbn zeta. apply String.eqb_neq in Hd.
  unfold hide_panel. rewrite Hd. cbn [negb].
  unfold getAttribute in *. attr_norm. rewrite Hmh.
  unfold restore_panel, getAttribute. attr_norm.
  unfold hasAttribute, getAttribute. attr_norm.
  destruct (attrs panel !! "hidden") as [h|] eqn:Hh; cbv iota;
    [ change (String.eqb "1" "1") with true
    | change (String.eqb "0" "1") with false ];
    cbv iota; attr_norm; rewrite ?Hh;
    (split; [apply get_set_style | done]).
Qed.

(** The same on a sibling panel whose inline display is "none": the
    activation sets [hidden] on it and the marker [data-vc-mam-hidden],
    and the deactivation leaves it as the activation made it. *)
Lemma undisplayed_panel_stays_hidden (panel : elem) :
  get_style "display" panel = "none" ->
  getAttribute VC_MAM_DISPLAY panel = None ->
  restore_panel (hide_panel panel) = hide_panel panel /\
  hasAttribute "hidden" (hide_panel panel) = true /\
  hasAttribute VC_MAM_HIDDEN (hide_panel panel) = true.
Proof.
  intros Hd Hmd. unfold hide_panel. rewrite Hd.
  cbn [String.eqb Ascii.eqb Bool.eqb negb].
  unfold getAttribute in *.
  assert (forall p, attrs p !! VC_MAM_DISPLAY = None ->
                    restore_panel p = p) as Hsame
    by (intros p Hp; unfold restore_panel, getAttribute; by rewrite Hp).
  destruct (attrs panel !! VC_MAM_HIDDEN) as [h|] eqn:Hh.
  - split; [apply Hsame; by attr_norm|].
    unfold hasAttribute. attr_norm. by rewrite Hh.
  - split; [apply Hsame; by attr_norm|].
    unfold hasAttribute at 1 3. by attr_norm.
Qed.

(** A scan that the mutations of an activation trigger changes nothing. *)
Lemma scan_after_activation_unchanged (gen : generation) :
  let active := run gen (start gen before_start) [MouseDown 8; Click 8; AnimationFrame] in
  handle gen active Mutation = active.
Proof. destruct gen; vm_compute; reflexivity. Qed.

(** C3: in the picker of [Examples.picker], panel 7 has the inline
    display "none" and no [hidden] attribute when the synthetic tab is
    activated (mousedown, click, animation frame); after the host tab 4
    has been selected its display is still "none" but it carries the
    [hidden] attribute and the marker [data-vc-mam-hidden], which the
    deactivation only takes away from panels that have the marker
    [data-vc-mam-display]. Panel 6, which was displayed, comes back as
    it was. The three copies of the engine behave alike. *)
Theorem deactivation_leaves_hidden (gen : generation) :
  let bound := start gen before_start in
  let back := run gen bound [MouseDown 8; Click 8; AnimationFrame; Click 4] in
  panel_state 7 bound = Some ("none", None, None) /\
  panel_state 7 back = Some ("none", Some "", Some "0") /\
  panel_state 6 bound = Some ("", None, None) /\
  panel_state 6 back = Some ("", None, None).
Proof. destruct gen; vm_compute; repeat split. Qed.

(** C1: in the picker of [Examples.picker], after the synthetic tab has
    been activated (mousedown, click, animation frame) and the plugin
    stopped, the synthetic tab and the synthetic panel are gone and no
    listener and no cleanup closure is left, but panel 6, which had no
    [hidden] attribute before the start, keeps the [hidden] attribute
    and the marker [data-vc-mam-hidden] of the activation: the document
    is not the one before the start. Stopping without an activation
    gives that document back. The three copies of the engine behave
    alike. *)
Theorem teardown_leaves_hidden (gen : generation) :
  let bound := start gen before_start in
  let stopped := stop (run gen bound [MouseDown 8; Click 8; AnimationFrame]) in
  panel_state 6 before_start = Some ("", None, None) /\
  panel_state 6 stopped = Some ("", Some "", Some "0") /\
  mam_tabs_of 2 (doc stopped) = [] /\ mam_panels (doc stopped) = [] /\
  listeners stopped = [] /\ cleanupFns stopped = [] /\
  doc stopped <> doc before_start /\
  doc (stop bound) = doc before_start.
Proof. destruct gen; vm_compute; repeat split; intros H; discriminate H. Qed.

End PanelFacts.

Module ModalFacts.
Import ChatBar Examples.

Lemma ref_effect_revoked m : revoked (ref_effect m) = revoked m.
Proof. reflexivity. Qed.

Lemma preview_effect_revoked m : revoked (preview_effect m) = revoked m.
Proof. reflexivity. Qed.

Lemma credentials_effect_revoked m : revoked (credentials_effect m) = revoked m.
Proof. reflexivity. Qed.

Lemma search_effect_revoked m : revoked (search_effect m) = revoked m.
Proof.
  unfold search_effect. cbn [mode set_host query].
  destruct (mode m); [|reflexivity].
  by destruct (negb (truthy_string (trim (query m)))).
Qed.

Lemma effects_with_revoked sync srch prev cred m :
  revoked (effects_with sync srch prev cred m) = revoked m.
Proof.
  unfold effects_with.
  destruct sync, srch, prev, cred;
    by rewrite ?credentials_effect_revoked, ?preview_effect_revoked,
               ?search_effect_revoked, ?ref_effect_revoked.
Qed.

Lemma commit_revoked changed old m : revoked (commit changed old m) = revoked m.
Proof. unfold commit, effects. cbn. by rewrite !effects_with_revoked. Qed.

(** No change of the settings revokes an object URL. *)
Lemma settings_revoke_nothing m key base dbg :
  revoked (handle m (Settings key base dbg)) = revoked m.
Proof.
  unfold handle. destruct (negb (mounted m)); [done|]. by rewrite commit_revoked.
Qed.

(** C4: the modal shows item 7 with its preview "blob:7"; when the API
    key changes, the results, the lists and the previews are cleared but
    no object URL is revoked, and closing the modal afterwards revokes
    none either, whereas closing it without the change revokes
    "blob:7". *)
Theorem credentials_change_leaks_preview :
  let changed := handle modal_with_preview (Settings "k2" "" false) in
  created modal_with_preview = ["blob:7"] /\
  previewUrls modal_with_preview !! 7%Z = Some "blob:7" /\
  previewUrls changed = ∅ /\ previewUrlsRef changed = ∅ /\
  searchResults changed = [] /\ lists changed = [] /\ listItems changed = [] /\
  revoked changed = [] /\
  revoked (handle changed Close) = [] /\
  revoked (handle modal_with_preview Close) = ["blob:7"].
Proof. vm_compute. repeat split. Qed.

(** C5 (counterexample): in the chat-bar modal the searches for "a" and
    then "b" are both in flight; the answer for "b" arrives first and
    the answer for "a" after it: the modal, whose query is "b", shows
    the results for "a". *)
Lemma modal_renders_stale_response :
  let m := run modal_two_searches
             [SearchSettled (search_for "b") (found [gif_b]);
              SearchSettled (search_for "a") (found [gif_a])] in
  searches modal_two_searches = [search_for "a"; search_for "b"] /\
  query m = "b" /\ searchResults m = [gif_a] /\ searchResults m <> [gif_b].
Proof. vm_compute. repeat split. discriminate. Qed.

(** C10: a click on a card of the chat-bar modal when there is no
    current channel does nothing: no call to the host (no message, no
    toast, no closing of the modal) and the same modal state; [onSend]
    of the picker-tab plugins shows the failure toast "No channel
    selected." when no channel is selected. *)
Theorem send_without_channel (m : modal) (gif : GifItem) (public_url : string) :
  handleSend None gif m = (m, []) /\
  Picker.onSend None public_url = [Picker.ShowToast "No channel selected." Picker.FAILURE].
Proof. split; reflexivity. Qed.

End ModalFacts.

Module LatestFacts.
Import Invariants PickerFacts StaleFacts.

(** The second generation gives the relay no signal and its [then]
    handler does not look at the controller: the answer to a superseded
    request is rendered when it comes after the answer to the newer one. *)
Lemma relay_renders_stale_response :
  let v := Picker.run (Picker.Relay true) (Picker.mount (Picker.Relay true) "k")
             [Picker.CategoryAll; Picker.Input "a"; Picker.DebounceTimer] in
  let old := Examples.relay_request 0 "" in
  let new := Examples.relay_request 1 "q=a&" in
  let v' := Picker.run (Picker.Relay true) v
              [Picker.Settle new (Ok (Examples.listing [JStr "for a"]));
               Picker.Settle old (Ok (Examples.listing [JStr "for all"]))] in
  Picker.inflight v = [old; new] /\ Picker.aborted v = [0] /\
  Picker.debouncedQuery v' = "a" /\ Picker.items v' = [JStr "for all"].
Proof. vm_compute. repeat split. Qed.

(** C5 (as amended): in the first generation of the picker tab, once the
    debounced query has changed while a request is in flight, the answer
    to that request changes nothing of what is rendered, whatever it is
    and whenever it comes; the chat-bar modal has no cancellation: the
    answer to a search for page 1 replaces the results shown when it
    comes, whatever the query is by then. *)
Theorem superseded_response_is_discarded :
  (forall key evs q r evs' net,
      let v := Picker.run Picker.Direct (Picker.mount Picker.Direct key) evs in
      Picker.mounted v = true -> Picker.timer v = Some q ->
      trim q <> Picker.debouncedQuery v -> r ∈ Picker.inflight v ->
      let v' := Picker.run Picker.Direct
                  (Picker.handle Picker.Direct v Picker.DebounceTimer) evs' in
      Picker.rendered (Picker.settle Picker.Direct v' r net) = Picker.rendered v') /\
  (forall m r net data,
      ChatBar.mounted m = true -> ChatBar.sr_replace r = true ->
      ChatBar.apiGet net = Ok data ->
      ChatBar.searchResults (ChatBar.search_settled r net m) = ChatBar.items data).
Proof.
  split.
  - intros key evs q r evs' net v Hm Ht Hq Hr v'.
    assert (Inv v) as HI by (apply (run_later evs), mount_Inv).
    destruct (debounce_supersedes v q r HI Hm Ht Hq Hr) as [[_ HI1] Hgone].
    destruct (run_later evs' _ HI1) as [Hsub _].
    apply settle_superseded; [by apply HI | by apply Hsub].
  - intros m r net data Hm Hr Hd. unfold ChatBar.search_settled.
    rewrite Hm, Hd, Hr. cbn [negb]. cbv zeta.
    destruct (ChatBar.pagination data); reflexivity.
Qed.

Lemma superseded_response_is_discarded_witness :
  let v := Picker.run Picker.Direct (Picker.mount Picker.Direct "k") [Picker.Input "a"] in
  let r := Examples.request_of Picker.Direct 0 1 in
  let v' := Picker.run Picker.Direct
              (Picker.handle Picker.Direct v Picker.DebounceTimer) [] in
  (Picker.mounted v = true /\ Picker.timer v = Some "a" /\
   trim "a" <> Picker.debouncedQuery v /\ r ∈ Picker.inflight v) /\
  Picker.rendered (Picker.settle Picker.Direct v' r (Ok Examples.unavailable))
  = Picker.rendered v' /\
  ChatBar.searchResults
    (ChatBar.search_settled (Examples.search_for "a") (Examples.found [Examples.gif_a])
       Examples.modal_two_searches) = [Examples.gif_a].
Proof.
  split; [|split].
  - repeat split; [by vm_compute | vm_compute; left].
  - apply (proj1 superseded_response_is_discarded "k" [Picker.Input "a"] "a");
      [reflexivity | reflexivity | by vm_compute | vm_compute; left].
  - apply (proj2 superseded_response_is_discarded Examples.modal_two_searches
             (Examples.search_for "a") (Examples.found [Examples.gif_a])
             (Examples.one_page [Examples.gif_a])); reflexivity.
Defined.

End LatestFacts.

(** ** Further properties *)

Module SiblingFacts.
Import Dom Inject Invariants ScanFacts PanelFacts.

Lemma elem_eq (a b : elem) :
  nid a = nid b -> attrs a = attrs b -> classes a = classes b ->
  style a = style b -> text a = text b -> a = b.
Proof. destruct a, b; cbn; intros; by subst. Qed.

Lemma hide_panel_display panel : get_style "display" (hide_panel panel) = "none".
Proof.
  unfold hide_panel. cbv zeta. unfold get_style.
  rewrite style_setAttribute. cbn. by rewrite lookup_insert_eq.
Qed.

Lemma hide_panel_marker panel :
  exists h, getAttribute VC_MAM_HIDDEN (hide_panel panel) = Some h.
Proof.
  unfold hide_panel. cbv zeta. unfold getAttribute.
  rewrite attrs_setAttribute, decide_False, attrs_set_style by done.
  destruct (attrs (if negb (get_style "display" panel =? "none")
                   then setAttribute VC_MAM_DISPLAY (get_style "display" panel) panel
                   else panel) !! VC_MAM_HIDDEN) as [h|] eqn:E.
  - by exists h.
  - rewrite attrs_setAttribute, decide_True by done. by eexists.
Qed.

(** X6: the activation can be repeated (the click listener activates
    once at once and once more in the next animation frame): on a sibling
    panel the second pass of [setMamActive] changes nothing, so the
    display and the [hidden] state saved by the first are the ones the
    deactivation finds. *)
Theorem hide_panel_twice (panel : elem) :
  hide_panel (hide_panel panel) = hide_panel panel.
Proof.
  destruct (hide_panel_marker panel) as [h Hh].
  pose proof (hide_panel_display panel) as Hd.
  set (p := hide_panel panel) in *.
  unfold hide_panel at 1. cbv zeta. rewrite Hd.
  change (negb ("none" =? "none")) with false. cbv iota. rewrite Hh.
  subst p. unfold hide_panel. cbv zeta.
  apply elem_eq; cbn; try reflexivity.
  - by rewrite insert_insert_eq.
  - by rewrite insert_insert_eq.
Qed.

(** X7: what the activation does to a sibling panel that carries
    no marker of the plugin, the deactivation undoes exactly when the
    panel had an inline display other than "none": then the display, the
    [hidden] state and the absence of both markers come back.  A panel
    whose inline display was "none" keeps the [hidden] attribute and the
    marker [data-vc-mam-hidden] that the activation set. *)
Theorem sibling_round_trip (panel : elem) :
  getAttribute VC_MAM_DISPLAY panel = None ->
  getAttribute VC_MAM_HIDDEN panel = None ->
  let back := restore_panel (hide_panel panel) in
  getAttribute VC_MAM_DISPLAY back = None /\
  if String.eqb (get_style "display" panel) "none"
  then back = hide_panel panel /\ hasAttribute "hidden" back = true /\
       hasAttribute VC_MAM_HIDDEN back = true
  else get_style "display" back = get_style "display" panel /\
       hasAttribute "hidden" back = hasAttribute "hidden" panel /\
       getAttribute VC_MAM_HIDDEN back = None.
Proof.
  intros Hmd Hmh. cbn zeta.
  destruct (String.eqb (get_style "display" panel) "none") eqn:Hd.
  - apply String.eqb_eq in Hd.
    destruct (undisplayed_panel_stays_hidden panel Hd Hmd) as (E & H1 & H2).
    rewrite E. split; [|by repeat split].
    unfold hide_panel. rewrite Hd. change (negb ("none" =? "none")) with false.
    cbv iota zeta. unfold getAttribute in *. rewrite Hmh.
    by attr_norm.
  - apply String.eqb_neq in Hd.
    destruct (displayed_panel_comes_back panel Hd Hmh) as (H1 & H2 & H3 & H4).
    by repeat split.
Qed.

Lemma sibling_round_trip_witness :
  let shown := Examples.el 6 [("role", "tabpanel")] [] [("display", "flex")] in
  let kept_out := Examples.el 7 [("role", "tabpanel")] [] [("display", "none")] in
  (getAttribute VC_MAM_DISPLAY shown = None /\ getAttribute VC_MAM_HIDDEN shown = None) /\
  (getAttribute VC_MAM_DISPLAY kept_out = None /\
   getAttribute VC_MAM_HIDDEN kept_out = None) /\
  (get_style "display" (restore_panel (hide_panel shown)) = "flex" /\
   hasAttribute "hidden" (restore_panel (hide_panel shown)) = false) /\
  hasAttribute "hidden" kept_out = false /\
  hasAttribute "hidden" (restore_panel (hide_panel kept_out)) = true.
Proof.
  cbn zeta.
  set (shown := Examples.el 6 [("role", "tabpanel")] [] [("display", "flex")]).
  set (kept_out := Examples.el 7 [("role", "tabpanel")] [] [("display", "none")]).
  assert (getAttribute VC_MAM_DISPLAY shown = None) as A1 by (vm_compute; reflexivity).
  assert (getAttribute VC_MAM_HIDDEN shown = None) as A2 by (vm_compute; reflexivity).
  assert (getAttribute VC_MAM_DISPLAY kept_out = None) as B1 by (vm_compute; reflexivity).
  assert (getAttribute VC_MAM_HIDDEN kept_out = None) as B2 by (vm_compute; reflexivity).
  pose proof (sibling_round_trip shown A1 A2) as [_ S].
  pose proof (sibling_round_trip kept_out B1 B2) as [_ K].
  assert (String.eqb (get_style "display" shown) "none" = false) as E1
    by (vm_compute; reflexivity).
  assert (String.eqb (get_style "display" kept_out) "none" = true) as E2
    by (vm_compute; reflexivity).
  rewrite E1 in S. rewrite E2 in K.
  destruct S as (S1 & S2 & _). destruct K as (_ & K2 & _).
  split; [exact (conj A1 A2)|]. split; [exact (conj B1 B2)|].
  split; [split|split].
  - rewrite S1. vm_compute. reflexivity.
  - rewrite S2. vm_compute. reflexivity.
  - vm_compute. reflexivity.
  - exact K2.
Defined.

End SiblingFacts.

Module TabStateFacts.
Import Dom Inject Invariants Shapes DomFacts ScanFacts PanelFacts SiblingFacts.

Lemma fold_remove_spec names e :
  let e' := fold_left (fun e name => classList_remove name e) names e in
  nid e' = nid e /\ attrs e' = attrs e /\ style e' = style e /\ text e' = text e /\
  classes e' = List.filter (outside names) (classes e).
Proof.
  revert e. induction names as [|n names IH]; intros e; cbn zeta.
  - cbn. repeat split. unfold outside. cbn. induction (classes e) as [|c cs IHc]; [done|].
    cbn. by rewrite <- IHc.
  - cbn [fold_left]. destruct (IH (classList_remove n e)) as (H1 & H2 & H3 & H4 & H5).
    cbn zeta in *. rewrite H1, H2, H3, H4, H5. cbn. repeat split.
    induction (classes e) as [|c cs IHc]; [done|].
    cbn. unfold outside at 2. cbn.
    destruct (String.eqb n c); cbn; [exact IHc|].
    fold (outside names c). destruct (outside names c); [by rewrite IHc | exact IHc].
Qed.

Lemma fold_add_spec names e :
  let e' := fold_left (fun e name => classList_add name e) names e in
  nid e' = nid e /\ attrs e' = attrs e /\ style e' = style e /\ text e' = text e /\
  exists added, classes e' = (classes e ++ added)%list /\
                forall c, c ∈ added -> c ∈ names.
Proof.
  revert e. induction names as [|n names IH]; intros e; cbn zeta.
  - cbn. repeat split. exists []. split; [by rewrite app_nil_r | by intros c Hc; inversion Hc].
  - cbn [fold_left]. destruct (IH (classList_add n e)) as (H1 & H2 & H3 & H4 & added & H5 & H6).
    cbn zeta in *. rewrite H1, H2, H3, H4, H5. cbn. repeat split.
    destruct (existsb (String.eqb n) (classes e)).
    + exists added. split; [done|]. intros c Hc. right. by apply H6.
    + exists (n :: added). split; [by rewrite <- app_assoc|].
      intros c Hc. apply elem_of_cons in Hc as [-> | Hc]; [by left | right; by apply H6].
Qed.

Lemma outside_names names added :
  (forall c, c ∈ added -> c ∈ names) -> List.filter (outside names) added = [].
Proof.
  intros H. apply filter_absent. intros c Hc. unfold outside.
  apply negb_false_iff, existsb_exists. exists c. split.
  - apply list_elem_of_In, H, Hc.
  - apply String.eqb_refl.
Qed.

Lemma filter_twice {A} (p : A -> bool) (l : list A) :
  List.filter p (List.filter p l) = List.filter p l.
Proof.
  induction l as [|x l IH]; [done|]. cbn. destruct (p x) eqn:E; cbn; [|done].
  by rewrite E, IH.
Qed.

(** X5: marking a tab inactive, then active, then inactive again
    with the same class names gives what the first marking gave: the
    synthetic tab, which [injectMamTab] leaves marked inactive, is after
    an activation and a deactivation exactly as the injection made it
    (attributes [aria-selected], [aria-current], [tabindex] and the
    class list). *)
Theorem tab_state_round_trip (names : list string) (tab : elem) :
  let made := setTabActiveState false names tab in
  setTabActiveState false names (setTabActiveState true names made) = made.
Proof.
  cbn zeta. unfold setTabActiveState.
  set (off := fun t => setAttribute "tabindex" "-1" (removeAttribute "aria-current"
                        (setAttribute "aria-selected" "false" t))).
  set (on := fun t => setAttribute "tabindex" "0" (setAttribute "aria-current" "page"
                        (setAttribute "aria-selected" "true" t))).
  change (fold_left (fun e name => classList_remove name e) names
            (off (fold_left (fun e name => classList_add name e) names
                    (on (fold_left (fun e name => classList_remove name e) names (off tab)))))
          = fold_left (fun e name => classList_remove name e) names (off tab)).
  set (made := fold_left (fun e name => classList_remove name e) names (off tab)).
  destruct (fold_remove_spec names (off tab)) as (M1 & M2 & M3 & M4 & M5).
  fold made in M1, M2, M3, M4, M5.
  destruct (fold_add_spec names (on made)) as (A1 & A2 & A3 & A4 & added & A5 & A6).
  set (lit := fold_left (fun e name => classList_add name e) names (on made)) in *.
  destruct (fold_remove_spec names (off lit)) as (R1 & R2 & R3 & R4 & R5).
  cbn zeta in *.
  apply elem_eq.
  - rewrite R1. cbn. rewrite A1. by cbn.
  - rewrite R2. cbn. rewrite A2. cbn. rewrite M2. cbn.
    apply map_eq. intros k.
    repeat first [rewrite lookup_insert | rewrite lookup_delete].
    repeat case_decide; try done; congruence.
  - rewrite R5. cbn. rewrite A5. cbn. rewrite List.filter_app.
    rewrite (outside_names names added A6), app_nil_r.
    rewrite M5. apply filter_twice.
  - rewrite R3. cbn. rewrite A3. by cbn.
  - rewrite R4. cbn. rewrite A4. by cbn.
Qed.

End TabStateFacts.

Module IdFacts.
Import Dom Inject Invariants Shapes DomFacts ScanFacts CollectFacts InjectFacts.

Lemma attr_at_in d x n k :
  NoDup (nids d) -> x ∈ elements d -> nid (fst x) = n ->
  attr_at n k d = attrs (fst x) !! k.
Proof. intros Hnd Hx Hn. unfold attr_at. by rewrite (locate_in d x n). Qed.

Lemma attr_at_update d x n k v k' :
  NoDup (nids d) -> x ∈ elements d -> nid (fst x) = n ->
  attr_at n k' (update n (setAttribute k v) d)
  = if decide (k = k') then Some v else attr_at n k' d.
Proof.
  intros Hnd Hx Hn.
  rewrite (attr_at_in _ (lift (upd n (setAttribute k v)) x) n).
  - cbn. unfold upd, has_nid. rewrite Hn, Nat.eqb_refl, attrs_setAttribute.
    case_decide; [done|]. by rewrite (attr_at_in d x n).
  - by rewrite nids_update_set.
  - by apply elements_update_in.
  - cbn. by rewrite nid_upd_set.
Qed.

Lemma truthy_app a s t : truthy_string (String a s +:+ t) = true.
Proof. reflexivity. Qed.

(** X2: the ids of a tab-list are issued once: for a tab-list of
    the document, a second call of [getMamIds] returns the ids of the
    first and changes neither the document nor the counter. *)
Theorem getMamIds_stable (s : state) (tl : nat) (x : located) :
  NoDup (nids (doc s)) -> x ∈ elements (doc s) -> nid (fst x) = tl ->
  getMamIds (fst (getMamIds s tl)) tl = getMamIds s tl.
Proof.
  intros Hnd Hx Hn. unfold getMamIds at 2 3.
  destruct (truthy_attr (attr_at tl MAM_PANEL_ID_ATTR (doc s))
            && truthy_attr (attr_at tl MAM_TAB_ID_ATTR (doc s))) eqn:E.
  - cbn [fst]. unfold getMamIds. by rewrite E.
  - cbn [fst]. unfold getMamIds. cbn [doc].
    set (panelId := "mam-picker-tab-panel-" +:+ string_of_nat (S (panelIdCounter s))).
    set (tabId := "mam-picker-tab-" +:+ string_of_nat (S (panelIdCounter s))).
    set (d1 := update tl (setAttribute MAM_PANEL_ID_ATTR panelId) (doc s)).
    assert (NoDup (nids d1)) as Hnd1 by (subst d1; by rewrite nids_update_set).
    assert (lift (upd tl (setAttribute MAM_PANEL_ID_ATTR panelId)) x ∈ elements d1) as Hx1
      by (subst d1; by apply elements_update_in).
    assert (nid (fst (lift (upd tl (setAttribute MAM_PANEL_ID_ATTR panelId)) x)) = tl) as Hn1
      by (cbn; by rewrite nid_upd_set).
    rewrite !(attr_at_update d1 _ tl _ _ _ Hnd1 Hx1 Hn1).
    rewrite decide_False, decide_True by done.
    subst d1. rewrite (attr_at_update (doc s) x tl _ _ _ Hnd Hx Hn).
    rewrite decide_True by done.
    by cbn.
Qed.

Lemma getMamIds_stable_witness :
  let s := Examples.before_start in
  let x := (Examples.el 2 [("role", "tablist")] [] [],
            [Examples.el 1 [] [] []; Examples.el 0 [] [] []]) in
  (NoDup (nids (doc s)) /\ x ∈ elements (doc s) /\ nid (fst x) = 2) /\
  fst (getMamIds s 2) <> s /\
  getMamIds (fst (getMamIds s 2)) 2 = getMamIds s 2.
Proof.
  cbn zeta.
  assert (NoDup (nids (doc Examples.before_start))) as Hnd
    by (apply (bool_decide_unpack _); vm_compute; exact I).
  assert ((Examples.el 2 [("role", "tablist")] [] [],
           [Examples.el 1 [] [] []; Examples.el 0 [] [] []])
          ∈ elements (doc Examples.before_start)) as Hx.
  { apply (list_elem_of_lookup_2 _ 2). vm_compute. reflexivity. }
  split; [exact (conj Hnd (conj Hx eq_refl))|]. split.
  - intros E. apply (f_equal panelIdCounter) in E. vm_compute in E. discriminate E.
  - exact (getMamIds_stable Examples.before_start 2 _ Hnd Hx eq_refl).
Defined.

Lemma string_of_nat_inj n m : string_of_nat n = string_of_nat m -> n = m.
Proof.
  unfold string_of_nat. intros H.
  assert (forall k, Nat.to_uint k <> Decimal.Nil) as Hnn.
  { intros k. rewrite <- (Unsigned.of_to k) at 1. rewrite Unsigned.to_of.
    apply unorm_nonnil. }
  apply (f_equal NilZero.uint_of_string) in H.
  rewrite !NilZero.usu in H by apply Hnn.
  apply Unsigned.to_uint_inj. congruence.
Qed.

Lemma app_cancel (p a b : string) : p +:+ a = p +:+ b -> a = b.
Proof.
  induction p as [|c p IH]; [done|]. intros H. apply IH.
  change (String c (p +:+ a) = String c (p +:+ b)) in H. by injection H.
Qed.

Lemma panel_not_tab n m :
  "mam-picker-tab-panel-" +:+ string_of_nat n <> "mam-picker-tab-" +:+ string_of_nat m.
Proof.
  change ("mam-picker-tab-panel-" +:+ string_of_nat n)
    with ("mam-picker-tab-" +:+ ("panel-" +:+ string_of_nat n)).
  intros H. apply app_cancel in H.
  pose proof (digits_string_of_nat m) as Hd. rewrite <- H in Hd. discriminate Hd.
Qed.

(** X3: each time [getMamIds] issues ids it advances the counter,
    and the ids issued at two different values of the counter are four
    different strings: no two tab-lists get the same tab id or the same
    panel id, and a tab id is never a panel id. *)
Theorem issued_ids_differ (s s' : state) (tl tl' : nat) :
  attr_at tl MAM_PANEL_ID_ATTR (doc s) = None ->
  attr_at tl' MAM_PANEL_ID_ATTR (doc s') = None ->
  panelIdCounter s <> panelIdCounter s' ->
  let '(s1, (panelId, tabId)) := getMamIds s tl in
  let '(_, (panelId', tabId')) := getMamIds s' tl' in
  panelIdCounter s1 = S (panelIdCounter s) /\
  panelId <> panelId' /\ tabId <> tabId' /\
  panelId <> tabId /\ panelId <> tabId' /\ panelId' <> tabId.
Proof.
  intros H H' Hne. rewrite (getMamIds_new s tl H), (getMamIds_new s' tl' H').
  cbn [panelIdCounter]. split; [done|]. repeat split.
  - intros E. apply app_cancel, string_of_nat_inj in E. lia.
  - intros E. apply app_cancel, string_of_nat_inj in E. lia.
  - apply panel_not_tab.
  - apply panel_not_tab.
  - apply panel_not_tab.
Qed.

Lemma issued_ids_differ_witness :
  let s := Examples.before_start in
  let s' := fst (getMamIds s 2) in
  (attr_at 2 MAM_PANEL_ID_ATTR (doc s) = None /\
   attr_at 5 MAM_PANEL_ID_ATTR (doc s') = None /\
   panelIdCounter s <> panelIdCounter s') /\
  snd (getMamIds s 2) = ("mam-picker-tab-panel-1", "mam-picker-tab-1") /\
  snd (getMamIds s' 5) = ("mam-picker-tab-panel-2", "mam-picker-tab-2") /\
  "mam-picker-tab-panel-1" <> "mam-picker-tab-panel-2".
Proof.
  cbn zeta.
  assert (attr_at 2 MAM_PANEL_ID_ATTR (doc Examples.before_start) = None) as H1
    by (vm_compute; reflexivity).
  assert (attr_at 5 MAM_PANEL_ID_ATTR (doc (fst (getMamIds Examples.before_start 2))) = None)
    as H2 by (vm_compute; reflexivity).
  assert (panelIdCounter Examples.before_start
          <> panelIdCounter (fst (getMamIds Examples.before_start 2))) as H3
    by (vm_compute; lia).
  pose proof (issued_ids_differ Examples.before_start
                (fst (getMamIds Examples.before_start 2)) 2 5 H1 H2 H3) as H.
  split; [by repeat split|].
  assert (snd (getMamIds Examples.before_start 2)
          = ("mam-picker-tab-panel-1", "mam-picker-tab-1")) as E1 by (vm_compute; reflexivity).
  assert (snd (getMamIds (fst (getMamIds Examples.before_start 2)) 5)
          = ("mam-picker-tab-panel-2", "mam-picker-tab-2")) as E2 by (vm_compute; reflexivity).
  split; [exact E1|]. split; [exact E2|].
  destruct (getMamIds Examples.before_start 2) as [s1 [p t]].
  destruct (getMamIds (fst (s1, (p, t))) 5) as [s2 [p' t']].
  cbn [snd] in E1, E2. inversion E1; inversion E2; subst.
  exact (proj1 (proj2 H)).
Defined.

End IdFacts.

Module EntryFacts.
Import Dom Inject Invariants Shapes DomFacts ScanFacts CollectFacts InjectFacts.

Lemma collect_entry d panels seen en :
  en ∈ collect d panels seen ->
  exists p t tl, p ∈ panels /\ tab_for d (elem_id (fst p)) = Some t /\
                 tablist_of t = Some tl /\
                 en = {| tabList := nid tl; sampleTab := nid (fst t);
                         samplePanel := nid (fst p) |}.
Proof.
  revert seen. induction panels as [|p panels IH]; intros seen; [by intros ?%elem_of_nil|].
  cbn [collect].
  assert (forall seen', en ∈ collect d panels seen' ->
            exists p0 t tl, p0 ∈ p :: panels /\ tab_for d (elem_id (fst p0)) = Some t /\
                            tablist_of t = Some tl /\
                            en = {| tabList := nid tl; sampleTab := nid (fst t);
                                    samplePanel := nid (fst p0) |}) as Hrest.
  { intros seen' H. destruct (IH seen' H) as (p0 & t & tl & Hp & Hrest).
    exists p0, t, tl. split; [by right | done]. }
  destruct (tab_for d (elem_id (fst p))) as [t|] eqn:Et; [|by apply Hrest].
  destruct (tablist_of t) as [tl|] eqn:El; [|by apply Hrest].
  destruct (existsb _ seen); [by apply Hrest|].
  intros [-> | H]%elem_of_cons; [|by apply (Hrest (nid tl :: seen))].
  exists p, t, tl. by split; [left|].
Qed.

Lemma tab_for_controls d id t :
  tab_for d id = Some t -> attr_is "aria-controls" id (fst t) = true.
Proof.
  unfold tab_for, querySelector.
  destruct (List.find _ _) eqn:E1.
  - intros [= <-]. apply find_elem in E1 as [_ H].
    unfold sel_tab_controls, sel_controls in H. by apply andb_prop in H as [_ H].
  - intros E2. by apply find_elem in E2 as [_ H].
Qed.

(** X1: what [findPickerEntries] returns on a document in which
    the id of no candidate panel has a double quote, a backslash, a line
    break or NUL (the characters that would change the selector the id is
    pasted into): no two entries have the same tab-list; the sample panel
    of an entry is an element whose id holds "picker-tab-panel", its
    sample tab an element whose [aria-controls] is that id, and its
    tab-list the sample tab or one of its ancestors; and every tab-list
    that [closest] or [parentElement] gives for the tab of such a panel
    has an entry. *)
Theorem findPickerEntries_one_per_tablist (d : node) :
  plain_ids d = true ->
  NoDup (map tabList (findPickerEntries d)) /\
  (forall en, en ∈ findPickerEntries d ->
     exists panel tab tl,
       panel ∈ elements d /\ tab ∈ elements d /\
       (exists i, getAttribute "id" (fst panel) = Some i /\
                  includes "picker-tab-panel" i = true /\ css_plain i = true) /\
       getAttribute "aria-controls" (fst tab) = Some (elem_id (fst panel)) /\
       tl ∈ fst tab :: snd tab /\
       en = {| tabList := nid tl; sampleTab := nid (fst tab);
               samplePanel := nid (fst panel) |}) /\
  (forall panel tab tl,
     panel ∈ elements d -> sel_picker_panel (fst panel) = true ->
     tab_for d (elem_id (fst panel)) = Some tab -> tablist_of tab = Some tl ->
     nid tl ∈ map tabList (findPickerEntries d)).
Proof.
  intros Hplain.
  split; [apply collect_distinct|]. split.
  - intros en (p & t & tl & Hp & Ht & Hl & ->)%collect_entry.
    exists p, t, tl.
    unfold querySelectorAll in Hp. apply list_elem_of_In, filter_In in Hp as [Hp Hsel].
    apply list_elem_of_In in Hp.
    split; [done|]. split; [by apply (tab_for_elem d (elem_id (fst p)))|].
    split; [|split; [|split; [by apply tablist_of_elem | done]]].
    + assert (css_plain (elem_id (fst p)) = true) as Hid.
      { unfold plain_ids in Hplain. rewrite forallb_forall in Hplain.
        specialize (Hplain p (proj1 (list_elem_of_In _ _) Hp)).
        by rewrite Hsel in Hplain. }
      unfold sel_picker_panel in Hsel. unfold elem_id, getAttribute in *.
      destruct (attrs (fst p) !! "id") as [i|]; [|done]. exists i. split; [done|].
      split; [|exact Hid].
      apply orb_prop in Hsel as [H|H]; [by apply ends_with_includes | done].
    + apply tab_for_controls in Ht. unfold attr_is in Ht. unfold getAttribute.
      destruct (attrs (fst t) !! "aria-controls") as [v|]; [|done].
      by apply String.eqb_eq in Ht as ->.
  - intros p t tl Hp Hsel Ht Hl.
    assert (p ∈ querySelectorAll sel_picker_panel d) as Hcand
      by (apply list_elem_of_In, filter_In; by rewrite <- list_elem_of_In).
    destruct (collect_complete d _ [] p t tl Hcand Ht Hl) as [H|H]; [|done].
    by apply elem_of_nil in H.
Qed.

Lemma findPickerEntries_one_per_tablist_witness :
  plain_ids Examples.picker = true /\
  map tabList (findPickerEntries Examples.picker) = [2] /\
  NoDup (map tabList (findPickerEntries Examples.picker)).
Proof.
  assert (plain_ids Examples.picker = true) as H by (vm_compute; reflexivity).
  destruct (findPickerEntries_one_per_tablist Examples.picker H) as (Hnd & _).
  split; [exact H|]. split; [vm_compute; reflexivity | exact Hnd].
Defined.

(** X4: the panel id that [getMamIds] issues holds
    "picker-tab-panel", so the synthetic panel made with it is matched by
    the selector of [findPickerEntries] and is a candidate panel of every
    later scan; the tab id it issues is not matched. *)
Theorem issued_ids_and_selector (s : state) (tl : nat) :
  attr_at tl MAM_PANEL_ID_ATTR (doc s) = None ->
  let '(_, (panelId, tabId)) := getMamIds s tl in
  (forall gen fresh src, sel_picker_panel (new_panel gen fresh panelId src) = true) /\
  (forall fresh names src, sel_picker_panel (new_tab fresh panelId tabId names src) = false).
Proof.
  intros H. rewrite (getMamIds_new s tl H). split.
  - intros gen fresh src. unfold sel_picker_panel.
    assert (attrs (new_panel gen fresh
                     ("mam-picker-tab-panel-" +:+ string_of_nat (S (panelIdCounter s))) src)
            !! "id" = Some ("mam-picker-tab-panel-" +:+ string_of_nat (S (panelIdCounter s))))
      as ->.
    { unfold new_panel. destruct gen; cbn; by rewrite lookup_insert_eq. }
    apply orb_true_intro. right. reflexivity.
  - intros fresh names src.
    destruct (new_tab_spec fresh
                ("mam-picker-tab-panel-" +:+ string_of_nat (S (panelIdCounter s)))
                ("mam-picker-tab-" +:+ string_of_nat (S (panelIdCounter s))) names src)
      as (_ & Hid & _).
    by apply (tab_id_not_panel (S (panelIdCounter s))).
Qed.

Lemma issued_ids_and_selector_witness :
  attr_at 2 MAM_PANEL_ID_ATTR (doc Examples.before_start) = None /\
  sel_picker_panel (new_panel Gen2 9 "mam-picker-tab-panel-1" (Examples.el 6 [] [] [])) = true /\
  sel_picker_panel
    (new_tab 8 "mam-picker-tab-panel-1" "mam-picker-tab-1" [] (Examples.el 3 [] [] [])) = false.
Proof.
  assert (attr_at 2 MAM_PANEL_ID_ATTR (doc Examples.before_start) = None) as H1
    by (vm_compute; reflexivity).
  pose proof (issued_ids_and_selector Examples.before_start 2 H1) as H.
  assert (getMamIds Examples.before_start 2
          = (fst (getMamIds Examples.before_start 2),
             ("mam-picker-tab-panel-1", "mam-picker-tab-1"))) as E
    by (vm_compute; reflexivity).
  rewrite E in H. destruct H as [Hp Ht].
  split; [exact H1|]. split; [apply Hp | apply Ht].
Defined.

End EntryFacts.

Module TreeFacts.
Import Dom Inject Invariants Shapes DomFacts ScanFacts CollectFacts InjectFacts.

Lemma remove_unfold n e kids : remove n (Node e kids) = Node e (prune n kids).
Proof.
  cbn [remove]. f_equal. unfold prune.
  induction kids as [|k kids IH]; [reflexivity|].
  cbn [flat_map]. rewrite IH. by destruct (has_nid n (root_elem k)).
Qed.

Lemma prune_app n ks ks' : prune n (ks ++ ks') = (prune n ks ++ prune n ks')%list.
Proof. unfold prune. apply flat_map_app. Qed.

Lemma elems_node e kids : elems (Node e kids) = e :: flat_map elems kids.
Proof.
  unfold elems, elements. cbn [walk map fst]. f_equal.
  assert (forall anc (d : node), map fst (walk anc d) = map fst (walk [] d)) as Hanc.
  { intros anc d. revert anc. induction d as [e' kids' IH] using node_rect_kids.
    intros anc. cbn [walk map fst]. f_equal.
    induction IH as [|k ks Hk _ IHks]; [reflexivity|].
    cbn [flat_map]. rewrite !map_app. f_equal; [|exact IHks].
    rewrite (Hk (e' :: anc)). symmetry. apply (Hk [e']). }
  induction kids as [|k kids IH]; [reflexivity|].
  cbn [flat_map]. rewrite map_app, IH. f_equal. apply Hanc.
Qed.

Lemma elems_root d : root_elem d ∈ elems d.
Proof. destruct d as [e kids]. rewrite elems_node. by left. Qed.

Lemma elems_kid e kids k x : k ∈ kids -> x ∈ elems k -> x ∈ elems (Node e kids).
Proof.
  intros Hk Hx. rewrite elems_node. right.
  apply list_elem_of_In, in_flat_map. exists k. by rewrite <- !list_elem_of_In.
Qed.

Lemma elems_nids d : nids d = map nid (elems d).
Proof. unfold nids, elems. by rewrite map_map. Qed.

Lemma elem_of_elems d e : e ∈ elems d <-> exists x, x ∈ elements d /\ fst x = e.
Proof.
  unfold elems. rewrite list_elem_of_fmap. split.
  - intros (x & -> & Hx). by exists x.
  - intros (x & Hx & <-). by exists x.
Qed.

(** *** [update] *)

Lemma update_same n f d :
  (forall e, e ∈ elems d -> nid e = n -> f e = e) -> update n f d = d.
Proof.
  induction d as [e kids IH] using node_rect_kids. intros H.
  cbn [update]. f_equal.
  - unfold has_nid. destruct (Nat.eqb (nid e) n) eqn:E; [|done].
    apply H; [apply (elems_root (Node e kids)) | by apply Nat.eqb_eq].
  - assert (forall k x, k ∈ kids -> x ∈ elems k -> nid x = n -> f x = x) as Hk
      by (intros k x Hin Hx; apply H; by apply (elems_kid e kids k)).
    clear H. induction IH as [|k ks Hk' _ IHks]; [reflexivity|].
    cbn [map]. f_equal.
    + apply Hk'. intros x Hx. apply (Hk k); [by left | done].
    + apply IHks. intros k' x Hin. apply Hk. by right.
Qed.

Lemma update_update n f g d :
  (forall e, nid (g e) = nid e) ->
  update n f (update n g d) = update n (fun e => f (g e)) d.
Proof.
  intros Hg. induction d as [e kids IH] using node_rect_kids.
  cbn [update]. f_equal.
  - unfold has_nid. destruct (Nat.eqb (nid e) n) eqn:E.
    + by rewrite Hg, E.
    + by rewrite E.
  - rewrite map_map. induction IH as [|k ks Hk _ IHks]; [reflexivity|].
    cbn [map]. by f_equal.
Qed.

Lemma update_comm n n' f g d :
  n <> n' -> (forall e, nid (f e) = nid e) -> (forall e, nid (g e) = nid e) ->
  update n f (update n' g d) = update n' g (update n f d).
Proof.
  intros Hne Hf Hg. induction d as [e kids IH] using node_rect_kids.
  cbn [update]. f_equal.
  - unfold has_nid.
    destruct (Nat.eqb (nid e) n) eqn:E, (Nat.eqb (nid e) n') eqn:E';
      rewrite ?Hf, ?Hg, ?E, ?E'; try done.
    apply Nat.eqb_eq in E, E'. congruence.
  - rewrite !map_map. induction IH as [|k ks Hk _ IHks]; [reflexivity|].
    cbn [map]. by f_equal.
Qed.

Lemma root_update n f d :
  root_elem (update n f d) = upd n f (root_elem d).
Proof. by destruct d. Qed.

Lemma root_appendChild p c d : root_elem (appendChild p c d) = root_elem d.
Proof. by destruct d. Qed.

Lemma update_appendChild n f p c d :
  (forall e, nid (f e) = nid e) ->
  update n f (appendChild p c d) = appendChild p (update n f c) (update n f d).
Proof.
  intros Hf. induction d as [e kids IH] using node_rect_kids.
  cbn [update appendChild]. f_equal.
  assert (map (update n f) (map (appendChild p c) kids)
          = map (appendChild p (update n f c)) (map (update n f) kids)) as Hk.
  { rewrite !map_map. induction IH as [|k ks Hk _ IHks]; [reflexivity|].
    cbn [map]. by f_equal. }
  assert (has_nid p (if has_nid n e then f e else e) = has_nid p e) as ->
    by (unfold has_nid; destruct (Nat.eqb (nid e) n); by rewrite ?Hf).
  destruct (has_nid p e); [|exact Hk].
  rewrite map_app, Hk. reflexivity.
Qed.

Lemma update_remove n f k d :
  (forall e, nid (f e) = nid e) ->
  update n f (remove k d) = remove k (update n f d).
Proof.
  intros Hf. induction d as [e kids IH] using node_rect_kids.
  rewrite remove_unfold. cbn [update]. rewrite remove_unfold. f_equal.
  unfold prune. induction IH as [|c ks Hc _ IHks]; [reflexivity|].
  cbn [flat_map map]. rewrite map_app, IHks. f_equal.
  rewrite root_update.
  assert (has_nid k (upd n f (root_elem c)) = has_nid k (root_elem c)) as ->
    by (unfold upd, has_nid; destruct (Nat.eqb (nid (root_elem c)) n); by rewrite ?Hf).
  destruct (has_nid k (root_elem c)); [reflexivity|]. cbn [map]. by rewrite Hc.
Qed.

(** *** [remove] and [appendChild] *)

Lemma remove_absent n d : n ∉ nids d -> remove n d = d.
Proof.
  induction d as [e kids IH] using node_rect_kids. intros Hn.
  rewrite remove_unfold. f_equal.
  assert (forall k x, k ∈ kids -> x ∈ elems k -> nid x <> n) as Hk.
  { intros k x Hin Hx E. apply Hn. rewrite elems_nids. apply list_elem_of_fmap.
    exists x. split; [done|]. by apply (elems_kid e kids k). }
  clear Hn. unfold prune. induction IH as [|k ks Hk' _ IHks]; [reflexivity|].
  cbn [flat_map].
  assert (has_nid n (root_elem k) = false) as ->.
  { apply Nat.eqb_neq. apply (Hk k); [by left | apply elems_root]. }
  cbn [app]. f_equal.
  - apply Hk'. rewrite elems_nids. intros (x & Hx & Hin)%list_elem_of_fmap.
    apply (Hk k x); [by left | done | done].
  - apply IHks. intros k' x Hin. apply Hk. by right.
Qed.

Lemma remove_appended p m d :
  nid m ∉ nids d -> remove (nid m) (appendChild p (Node m []) d) = d.
Proof.
  induction d as [e kids IH] using node_rect_kids. intros Hn.
  cbn [appendChild]. rewrite remove_unfold. f_equal.
  assert (forall k x, k ∈ kids -> x ∈ elems k -> nid x <> nid m) as Hk.
  { intros k x Hin Hx E. apply Hn. rewrite elems_nids. apply list_elem_of_fmap.
    exists x. split; [done|]. by apply (elems_kid e kids k). }
  assert (prune (nid m) (map (appendChild p (Node m [])) kids) = kids) as Hkids.
  { clear Hn. unfold prune. induction IH as [|k ks Hk' _ IHks]; [reflexivity|].
    cbn [map flat_map]. rewrite root_appendChild.
    assert (has_nid (nid m) (root_elem k) = false) as ->.
    { apply Nat.eqb_neq. apply (Hk k); [by left | apply elems_root]. }
    cbn [app]. f_equal.
    - apply Hk'. rewrite elems_nids. intros (x & Hx & Hin)%list_elem_of_fmap.
      apply (Hk k x); [by left | done | done].
    - apply IHks. intros k' x Hin. apply Hk. by right. }
  destruct (has_nid p e); [|exact Hkids].
  rewrite prune_app, Hkids. unfold prune. cbn [flat_map root_elem].
  unfold has_nid. rewrite Nat.eqb_refl. cbn. apply app_nil_r.
Qed.

Lemma remove_appendChild n p m d :
  nid m <> n ->
  remove n (appendChild p (Node m []) d) = appendChild p (Node m []) (remove n d).
Proof.
  intros Hne. induction d as [e kids IH] using node_rect_kids.
  cbn [appendChild]. rewrite !remove_unfold. cbn [appendChild]. f_equal.
  assert (prune n (map (appendChild p (Node m [])) kids)
          = map (appendChild p (Node m [])) (prune n kids)) as Hkids.
  { unfold prune. induction IH as [|k ks Hk _ IHks]; [reflexivity|].
    cbn [map flat_map]. rewrite root_appendChild, map_app, IHks. f_equal.
    destruct (has_nid n (root_elem k)); [reflexivity|]. cbn [map]. by rewrite Hk. }
  destruct (has_nid p e); [|exact Hkids].
  rewrite prune_app, Hkids. f_equal. unfold prune. cbn [flat_map root_elem].
  assert (has_nid n m = false) as -> by (by apply Nat.eqb_neq).
  by rewrite remove_unfold.
Qed.

(** *** The elements after a change *)

Lemma elems_update n f d : elems (update n f d) = map (upd n f) (elems d).
Proof. unfold elems. rewrite elements_update, !map_map. by apply map_ext. Qed.

Lemma elems_appendChild p m d e :
  e ∈ elems (appendChild p (Node m []) d) -> e = m \/ e ∈ elems d.
Proof.
  induction d as [e0 kids IH] using node_rect_kids.
  cbn [appendChild]. rewrite !elems_node.
  intros [-> | Hin]%elem_of_cons; [right; by left|].
  assert (forall ks, Forall (fun k => e ∈ elems (appendChild p (Node m []) k) ->
                                      e = m \/ e ∈ elems k) ks ->
            e ∈ flat_map elems (map (appendChild p (Node m [])) ks) ->
            e = m \/ e ∈ flat_map elems ks) as Hks.
  { intros ks Hall. induction Hall as [|k ks' Hk _ IHks]; [by intros ?%elem_of_nil|].
    cbn [map flat_map]. intros [H | H]%elem_of_app.
    - destruct (Hk H) as [-> | Hin']; [by left | right; apply elem_of_app; by left].
    - destruct (IHks H) as [-> | Hin']; [by left | right; apply elem_of_app; by right]. }
  destruct (has_nid p e0).
  - rewrite flat_map_app in Hin. apply elem_of_app in Hin as [Hin | Hin].
    + destruct (Hks kids IH Hin) as [-> | H]; [by left | right; by right].
    + cbn [flat_map] in Hin. rewrite app_nil_r, elems_node in Hin. cbn [flat_map] in Hin.
      apply elem_of_cons in Hin as [-> | Hin]; [by left | by apply elem_of_nil in Hin].
  - destruct (Hks kids IH Hin) as [-> | H]; [by left | right; by right].
Qed.

Lemma nids_appendChild p m d n :
  n ∈ nids (appendChild p (Node m []) d) -> n = nid m \/ n ∈ nids d.
Proof.
  rewrite !elems_nids. intros (e & -> & He)%list_elem_of_fmap.
  destruct (elems_appendChild p m d e He) as [-> | H]; [by left|].
  right. apply list_elem_of_fmap. by exists e.
Qed.

End TreeFacts.

Module EjectFacts.
Import Dom Inject Invariants Shapes DomFacts ScanFacts CollectFacts InjectFacts TreeFacts.

Lemma elem_same (a b : elem) :
  nid a = nid b -> attrs a = attrs b -> classes a = classes b ->
  style a = style b -> text a = text b -> a = b.
Proof. destruct a, b; cbn; intros; by subst. Qed.

Lemma unset_set (e : elem) panelId tabId :
  attrs e !! MAM_BOUND_ATTR = None -> attrs e !! MAM_PANEL_ID_ATTR = None ->
  attrs e !! MAM_TAB_ID_ATTR = None ->
  removeAttribute MAM_TAB_ID_ATTR
    (removeAttribute MAM_PANEL_ID_ATTR
       (removeAttribute MAM_BOUND_ATTR
          (setAttribute MAM_TAB_ID_ATTR tabId
             (setAttribute MAM_PANEL_ID_ATTR panelId
                (setAttribute MAM_BOUND_ATTR "true" e))))) = e.
Proof.
  intros Hb Hp Ht. apply elem_same; try reflexivity.
  cbn. apply map_eq. intros k.
  repeat first [rewrite lookup_delete | rewrite lookup_insert].
  repeat case_decide; subst; done.
Qed.

(** Undoing the one injection that was made. *)
Lemma eject_inject i d :
  nid (i_tab i) ∉ nids d ->
  (forall e, e ∈ elems d -> nid e = b_tabList (i_binding i) ->
             attrs e !! MAM_BOUND_ATTR = None /\ attrs e !! MAM_PANEL_ID_ATTR = None /\
             attrs e !! MAM_TAB_ID_ATTR = None) ->
  eject (b_tabList (i_binding i)) (nid (i_tab i)) (inject_at i d) = d.
Proof.
  intros Hfresh Hclean. unfold eject, inject_at. cbv zeta.
  set (tl := b_tabList (i_binding i)) in *.
  rewrite remove_appended by (by rewrite !nids_update_set).
  rewrite !update_update by (intros; reflexivity).
  apply update_same. intros e He Hn.
  destruct (Hclean e He Hn) as (Hb & Hp & Ht). by apply unset_set.
Qed.

(** Undoing an injection commutes with another injection. *)
Lemma eject_inject_other tl mid i d :
  b_tabList (i_binding i) <> tl -> nid (i_tab i) <> mid -> nid (i_tab i) <> tl ->
  eject tl mid (inject_at i d) = inject_at i (eject tl mid d).
Proof.
  intros Htl Hmid Hm. unfold eject, inject_at. cbv zeta.
  set (tl' := b_tabList (i_binding i)) in *.
  set (m := i_tab i) in *.
  assert (forall f, update tl f (Node m []) = Node m []) as Hleaf.
  { intros f. cbn. unfold has_nid.
    by rewrite (proj2 (Nat.eqb_neq (nid m) tl) Hm). }
  rewrite remove_appendChild by done.
  rewrite <- !update_remove by (intros; reflexivity).
  rewrite !update_appendChild, !Hleaf by (intros; reflexivity).
  f_equal.
  rewrite !(update_comm tl tl') by (done || (intros; reflexivity)).
  reflexivity.
Qed.

Lemma injections_cons i L d : injections (i :: L) d = injections L (inject_at i d).
Proof. reflexivity. Qed.

Lemma injections_app L i d : injections (L ++ [i]) d = inject_at i (injections L d).
Proof. unfold injections. by rewrite fold_left_app. Qed.

Lemma eject_injections tl mid L d :
  Forall (fun i => b_tabList (i_binding i) <> tl /\ nid (i_tab i) <> mid /\
                   nid (i_tab i) <> tl) L ->
  eject tl mid (injections L d) = injections L (eject tl mid d).
Proof.
  intros H. revert d. induction H as [|i L (H1 & H2 & H3) _ IH]; intros d; [reflexivity|].
  rewrite !injections_cons, IH. by rewrite eject_inject_other.
Qed.

(** The elements of a document after injections. *)
Lemma inject_at_elems i d e :
  e ∈ elems (inject_at i d) ->
  e = i_tab i \/
  exists e0, e0 ∈ elems d /\ nid e = nid e0 /\
    forall k, k <> MAM_BOUND_ATTR -> k <> MAM_PANEL_ID_ATTR -> k <> MAM_TAB_ID_ATTR ->
              attrs e !! k = attrs e0 !! k.
Proof.
  unfold inject_at. cbv zeta. intros [-> | He]%elems_appendChild; [by left|]. right.
  rewrite !elems_update, !map_map in He.
  apply list_elem_of_fmap in He as (e0 & -> & He0). exists e0. split; [done|].
  set (tl := b_tabList (i_binding i)).
  pose proof (benign_upd tl MAM_TAB_ID_ATTR (i_tabId i) ltac:(auto)) as B1.
  pose proof (benign_upd tl MAM_PANEL_ID_ATTR (i_panelId i) ltac:(auto)) as B2.
  pose proof (benign_upd tl MAM_BOUND_ATTR "true" ltac:(auto)) as B3.
  split.
  - by rewrite (bn_nid _ B1), (bn_nid _ B2), (bn_nid _ B3).
  - intros k K1 K2 K3.
    by rewrite (bn_attrs _ B1), (bn_attrs _ B2), (bn_attrs _ B3).
Qed.

Lemma injections_attr L d k :
  k <> MAM_BOUND_ATTR -> k <> MAM_PANEL_ID_ATTR -> k <> MAM_TAB_ID_ATTR ->
  (forall e, e ∈ elems d -> attrs e !! k = None) ->
  Forall (fun i => attrs (i_tab i) !! k = None) L ->
  forall e, e ∈ elems (injections L d) -> attrs e !! k = None.
Proof.
  intros K1 K2 K3 Hd HL. revert d Hd.
  induction HL as [|i L Hi _ IH]; intros d Hd; [exact Hd|].
  rewrite injections_cons. apply IH. intros e He.
  destruct (inject_at_elems i d e He) as [-> | (e0 & He0 & _ & Hk)]; [exact Hi|].
  rewrite Hk by done. by apply Hd.
Qed.

End EjectFacts.

Module CleanupFacts.
Import Dom Inject Invariants Shapes DomFacts ScanFacts CollectFacts InjectFacts TreeFacts
       EjectFacts.

Lemma restore_display_same e :
  attrs e !! VC_MAM_DISPLAY = None -> restore_display e = e.
Proof. intros H. unfold restore_display, getAttribute. by rewrite H. Qed.

Lemma restore_loop_same (panels : list located) d :
  (forall e, e ∈ elems d -> attrs e !! VC_MAM_DISPLAY = None) ->
  fold_left (fun d x => update (nid (fst x)) restore_display d) panels d = d.
Proof.
  intros H. induction panels as [|p panels IH]; [reflexivity|].
  cbn [fold_left]. rewrite update_same; [exact IH|].
  intros e He _. by apply restore_display_same, H.
Qed.

Lemma no_mam_panel n d :
  (forall e, e ∈ elems d -> attrs e !! MAM_PANEL_ATTR = None) ->
  querySelector_in n sel_mam_panel d = None.
Proof.
  intros H. unfold querySelector_in.
  destruct (List.find _ (elements d)) as [x|] eqn:E; [|reflexivity].
  apply find_elem in E as [Hx Hsel]. apply andb_prop in Hsel as [Hsel _].
  unfold sel_mam_panel, hasAttribute in Hsel.
  rewrite (H (fst x)) in Hsel; [done|]. apply elem_of_elems. by exists x.
Qed.

(** [cleanup] on a document in which no panel was hidden and no synthetic
    panel made. *)
Lemma cleanup_plain s b :
  (forall e, e ∈ elems (doc s) -> attrs e !! VC_MAM_DISPLAY = None) ->
  (forall e, e ∈ elems (doc s) -> attrs e !! MAM_PANEL_ATTR = None) ->
  cleanup s b =
  {| doc := eject (b_tabList b) (b_mamTab b) (doc s);
     fresh := fresh s; panelIdCounter := panelIdCounter s;
     cleanupFns := cleanupFns s; mamRoots := mamRoots s;
     listeners := List.filter (fun l => negb (bool_decide (l ∈ listeners_of b)))
                    (listeners s);
     frames := frames s; observer := observer s |}.
Proof.
  intros Hd Hp. unfold cleanup. cbv zeta. cbn [doc].
  destruct (locate (b_samplePanel b) (doc s)) as [sample|].
  - unfold with_doc at 2. cbn [doc fresh panelIdCounter cleanupFns mamRoots listeners
                              frames observer].
    rewrite (restore_loop_same _ (doc s) Hd).
    unfold with_doc at 2 3 4. cbn [doc].
    rewrite (no_mam_panel _ (doc s) Hp). reflexivity.
  - reflexivity.
Qed.

Lemma filter_both {A} (p q : A -> bool) (l : list A) :
  List.filter p (List.filter q l) = List.filter (fun x => q x && p x) l.
Proof.
  induction l as [|x l IH]; [reflexivity|]. cbn.
  destruct (q x); cbn; [destruct (p x)|]; by rewrite ?IH.
Qed.

(** The teardown of the injections [L] of a document [d0], on a state
    whose document is [d0] with these injections. *)
Lemma cleanup_injections F d0 L s :
  (forall n, n ∈ nids d0 -> n < F) ->
  (forall e, e ∈ elems d0 ->
             attrs e !! MAM_BOUND_ATTR = None /\ attrs e !! MAM_PANEL_ID_ATTR = None /\
             attrs e !! MAM_TAB_ID_ATTR = None /\ attrs e !! VC_MAM_DISPLAY = None /\
             attrs e !! MAM_PANEL_ATTR = None) ->
  Forall (injection_ok F) L ->
  NoDup (map (fun i => nid (i_tab i)) L) ->
  NoDup (map (fun i => b_tabList (i_binding i)) L) ->
  doc s = injections L d0 ->
  let s' := fold_left cleanup (map i_binding L) s in
  doc s' = d0 /\
  listeners s' =
  List.filter (fun l => forallb (fun b => negb (bool_decide (l ∈ listeners_of b)))
                          (map i_binding L)) (listeners s) /\
  fresh s' = fresh s /\ panelIdCounter s' = panelIdCounter s /\
  cleanupFns s' = cleanupFns s /\ mamRoots s' = mamRoots s /\
  frames s' = frames s /\ observer s' = observer s.
Proof.
  intros Hlt Hd0 HL. revert s.
  induction HL as [|i L Hi HL IH]; intros s Hnm Hnt Hdoc; cbn zeta.
  { cbn. split; [exact Hdoc|]. split; [|by repeat split].
    induction (listeners s) as [|l ls IHl]; [reflexivity|]. cbn. by rewrite <- IHl. }
  cbn [map fold_left].
  apply NoDup_cons in Hnm as [Hm_new Hnm]. apply NoDup_cons in Hnt as [Ht_new Hnt].
  destruct Hi as (Hmid & HmF & HtlF & Hmd & Hmp).
  assert (Forall (fun i => attrs (i_tab i) !! VC_MAM_DISPLAY = None) (i :: L)) as HLd.
  { constructor; [done|]. eapply Forall_impl; [exact HL|]. by intros j (_ & _ & _ & H & _). }
  assert (Forall (fun i => attrs (i_tab i) !! MAM_PANEL_ATTR = None) (i :: L)) as HLp.
  { constructor; [done|]. eapply Forall_impl; [exact HL|]. by intros j (_ & _ & _ & _ & H). }
  rewrite cleanup_plain; cycle 1.
  { rewrite Hdoc. apply injections_attr; try done. intros e He. by apply Hd0. }
  { rewrite Hdoc. apply injections_attr; try done. intros e He. by apply Hd0. }
  set (s1 := {| doc := eject _ _ (doc s) |}).
  assert (doc s1 = injections L d0) as Hdoc1.
  { subst s1. cbn [doc]. rewrite Hdoc, injections_cons, <- Hmid.
    rewrite eject_injections; cycle 1.
    { clear IH. apply Forall_forall. intros j Hj.
      rewrite Forall_forall in HL. destruct (HL j Hj) as (_ & HjF & _).
      split; [|split].
      - intros E. apply Ht_new. apply list_elem_of_fmap. by exists j.
      - intros E. apply Hm_new. apply list_elem_of_fmap. by exists j.
      - lia. }
    rewrite eject_inject; [reflexivity | |].
    - intros Hin%Hlt. lia.
    - intros e He _. destruct (Hd0 e He) as (H1 & H2 & H3 & _). by repeat split. }
  destruct (IH s1 Hnm Hnt Hdoc1) as (G1 & G2 & G3 & G4 & G5 & G6 & G7 & G8).
  cbn zeta in G1, G2, G3, G4, G5, G6, G7, G8.
  split; [exact G1|]. split; [|by repeat split].
  rewrite G2. subst s1. cbn [listeners]. rewrite filter_both. reflexivity.
Qed.

End CleanupFacts.

Module TeardownFacts.
Import Dom Inject Invariants Shapes DomFacts ScanFacts CollectFacts InjectFacts StepFacts
       IdempotenceFacts TreeFacts EjectFacts CleanupFacts.

Lemma new_tab_unmarked fresh panelId tabId names src :
  let m := new_tab fresh panelId tabId names src in
  attrs m !! VC_MAM_DISPLAY = attrs src !! VC_MAM_DISPLAY /\
  attrs m !! MAM_PANEL_ATTR = attrs src !! MAM_PANEL_ATTR.
Proof.
  cbn zeta. unfold new_tab, setTabActiveState.
  destruct (fold_remove_classes names
    (setAttribute "tabindex" "-1"
       (removeAttribute "aria-current"
          (setAttribute "aria-selected" "false"
             {| nid := fresh;
                attrs := attrs (setAttribute "id" tabId
                           (setAttribute "aria-controls" panelId
                              (setAttribute "role" "tab"
                                 (setAttribute MAM_TAB_ATTR ""
                                    {| nid := fresh; attrs := attrs src;
                                       classes := classes src; style := style src;
                                       text := text src |}))));
                classes := classes src; style := style src; text := MAM_LABEL |}))))
    as [Hn Ha].
  cbn in Hn, Ha |- *. rewrite Ha. split; by simplify_map_eq.
Qed.

(** One injection into a tab-list that is not bound and has no ids: the
    whole state. *)
Lemma injectMamTab_state gen s en X T :
  NoDup (nids (doc s)) ->
  X ∈ elements (doc s) -> nid (fst X) = tabList en ->
  attrs (fst X) !! MAM_BOUND_ATTR = None ->
  attrs (fst X) !! MAM_PANEL_ID_ATTR = None ->
  T ∈ elements (doc s) -> nid (fst T) = sampleTab en ->
  let tl := tabList en in
  let id := S (panelIdCounter s) in
  let panelId := "mam-picker-tab-panel-" +:+ string_of_nat id in
  let tabId := "mam-picker-tab-" +:+ string_of_nat id in
  let u := fun e => upd tl (setAttribute MAM_TAB_ID_ATTR tabId)
                      (upd tl (setAttribute MAM_PANEL_ID_ATTR panelId)
                         (upd tl (setAttribute MAM_BOUND_ATTR "true") e)) in
  exists names,
    let b := {| b_tabList := tl; b_mamTab := fresh s; b_samplePanel := samplePanel en;
                b_activeClassNames := names |} in
    let i := {| i_binding := b;
                i_tab := new_tab (fresh s) panelId tabId names (u (fst T));
                i_panelId := panelId; i_tabId := tabId |} in
    injectMamTab gen s en =
    {| doc := inject_at i (doc s); fresh := S (fresh s); panelIdCounter := id;
       cleanupFns := cleanupFns s ++ [b]; mamRoots := mamRoots s;
       listeners := listeners s ++ listeners_of b;
       frames := frames s; observer := observer s |}.
Proof.
  intros Hnd HX HXn HXb HXp HT HTn. cbn zeta.
  unfold injectMamTab.
  assert (hasAttribute_at (tabList en) MAM_BOUND_ATTR (doc s) = false) as ->.
  { unfold hasAttribute_at, attr_at. rewrite (locate_in _ X) by done.
    unfold getAttribute. by rewrite HXb. }
  set (g1 := setAttribute MAM_BOUND_ATTR "true").
  set (s1 := update_at (tabList en) g1 s).
  assert (doc s1 = update (tabList en) g1 (doc s)) as Hd1 by reflexivity.
  assert (NoDup (nids (doc s1))) as Hnd1 by (rewrite Hd1; subst g1; by rewrite nids_update_set).
  pose proof (elements_update_in (tabList en) g1 _ _ HX) as HX1.
  pose proof (elements_update_in (tabList en) g1 _ _ HT) as HT1.
  rewrite <- Hd1 in HX1, HT1.
  rewrite (locate_in (doc s1) (lift (upd (tabList en) g1) T)); [|done|done|]; cycle 1.
  { cbn [lift fst]. subst g1. by rewrite nid_upd_set. }
  rewrite (getMamIds_new s1); cycle 1.
  { unfold attr_at. rewrite (locate_in (doc s1) (lift (upd (tabList en) g1) X));
      [|done|done|by cbn [lift fst]; subst g1; rewrite nid_upd_set].
    cbn [lift fst]. unfold upd, has_nid. rewrite HXn, Nat.eqb_refl.
    unfold getAttribute. subst g1. rewrite attrs_setAttribute. by case_decide. }
  cbn [doc fresh panelIdCounter cleanupFns mamRoots listeners frames observer].
  set (g2 := setAttribute MAM_PANEL_ID_ATTR _).
  set (g3 := setAttribute MAM_TAB_ID_ATTR _).
  assert (NoDup (nids (update (tabList en) g3 (update (tabList en) g2 (doc s1))))) as Hnd3
    by (subst g2 g3; by rewrite !nids_update_set).
  pose proof (elements_update_in (tabList en) g3 _ _
                (elements_update_in (tabList en) g2 _ _ HT1)) as HT3.
  rewrite (locate_in _ _ _ Hnd3 HT3); cycle 1.
  { cbn [lift fst]. subst g1 g2 g3. by rewrite !nid_upd_set. }
  eexists. reflexivity.
Qed.

Lemma unmarked_spec d x :
  unmarked d = true -> x ∈ elements d -> attrs (fst x) !! VC_MAM_DISPLAY = None.
Proof.
  unfold unmarked. rewrite forallb_forall. intros H Hx%list_elem_of_In.
  specialize (H x Hx). unfold hasAttribute in H.
  by destruct (attrs (fst x) !! VC_MAM_DISPLAY).
Qed.

(** One step of the scan builds one injection. *)
Lemma built_step gen d0 F done L s en :
  cleanb d0 = true -> unmarked d0 = true -> (forall n, n ∈ nids d0 -> n < F) ->
  scanned d0 F done s -> built d0 F L s -> length L = length done ->
  entry_ok d0 en -> tabList en ∉ map tabList done ->
  exists i, b_tabList (i_binding i) = tabList en /\
            built d0 F (L ++ [i]) (injectMamTab gen s en).
Proof.
  intros Hclean Hunm HltF (Hnd & Hlt & HF & Hcount & Hmam & h & Hb & Hid & Hbound & Hhost)
    (Hdoc & Hfns & Hls & HL & Hseq) Hlen
    [(x0 & Hx0 & Hx0n & Hanch) (t0 & Ht0 & Ht0n)] Hnew.
  set (tl := tabList en) in *.
  assert (forall y, y ∈ elements d0 -> lift h y ∈ elements (doc s)) as Hnow.
  { intros y Hy.
    assert (lift h y ∈ List.filter (host F) (elements (doc s))) as Hin
      by (rewrite Hhost; apply list_elem_of_fmap; by exists y).
    by apply elem_of_filter_host in Hin as [? _]. }
  assert (h (fst x0) = fst x0) as Hx0h by (apply Hid; by rewrite Hx0n).
  destruct (clean_elem_spec _ (cleanb_spec _ _ Hclean Hx0)) as (_ & _ & Hxb & Hxp & _).
  destruct (clean_elem_spec _ (cleanb_spec _ _ Hclean Ht0)) as (_ & Htp & _).
  pose proof (unmarked_spec d0 t0 Hunm Ht0) as Htd.
  destruct (injectMamTab_state gen s en (lift h x0) (lift h t0)) as (names & Hstate);
    try (by apply Hnow); cbn [lift fst]; rewrite ?(bn_nid h Hb), ?Hx0h; try done.
  cbn zeta in Hstate. fold tl in Hstate.
  set (id := S (panelIdCounter s)) in *.
  set (panelId := "mam-picker-tab-panel-" +:+ string_of_nat id) in *.
  set (tabId := "mam-picker-tab-" +:+ string_of_nat id) in *.
  set (U := fun e => upd tl (setAttribute MAM_TAB_ID_ATTR tabId)
                       (upd tl (setAttribute MAM_PANEL_ID_ATTR panelId)
                          (upd tl (setAttribute MAM_BOUND_ATTR "true") e))) in *.
  set (m := new_tab (fresh s) panelId tabId names (U (fst (lift h t0)))) in *.
  set (b := {| b_tabList := tl; b_mamTab := fresh s; b_samplePanel := samplePanel en;
               b_activeClassNames := names |}) in *.
  set (i := {| i_binding := b; i_tab := m; i_panelId := panelId; i_tabId := tabId |}) in *.
  assert (benign U) as HbU.
  { apply (benign_compose (upd tl _) (fun e => upd tl _ (upd tl _ e)));
      [apply benign_upd; auto|].
    apply (benign_compose (upd tl _) (upd tl _)); apply benign_upd; auto. }
  destruct (new_tab_spec (fresh s) panelId tabId names (U (fst (lift h t0)))) as (Hmn & _).
  destruct (new_tab_unmarked (fresh s) panelId tabId names (U (fst (lift h t0))))
    as (Hmd & Hmp).
  fold m in Hmn, Hmd, Hmp. cbn [lift fst] in Hmd, Hmp.
  exists i. split; [reflexivity|].
  rewrite Hstate. unfold built.
  cbn [doc cleanupFns listeners].
  split; [by rewrite injections_app, Hdoc|].
  split; [by rewrite map_app, Hfns|].
  split.
  { rewrite map_app, flat_map_app, Hls. reflexivity. }
  split.
  - apply Forall_app. split; [exact HL|]. constructor; [|constructor].
    unfold injection_ok. cbn [i_tab i_binding i b b_mamTab b_tabList].
    split; [exact Hmn|]. split; [rewrite Hmn; lia|]. split.
    + apply HltF. apply list_elem_of_fmap. exists x0. by rewrite Hx0n.
    + split.
      * by rewrite Hmd, (bn_attrs U HbU), (bn_attrs h Hb), Htd.
      * by rewrite Hmp, (bn_attrs U HbU), (bn_attrs h Hb), Htp.
  - rewrite map_app, length_app, Hseq. cbn [map length].
    rewrite Nat.add_1_r, seq_S. cbn [i_tab i]. by rewrite Hmn, HF, Hlen.
Qed.

(** The scan builds one injection for each entry. *)
Lemma scan_built gen d0 F rest done L s :
  cleanb d0 = true -> unmarked d0 = true -> (forall n, n ∈ nids d0 -> n < F) ->
  scanned d0 F done s -> built d0 F L s ->
  map (fun i => b_tabList (i_binding i)) L = map tabList done ->
  (forall en, en ∈ rest -> entry_ok d0 en) ->
  NoDup (map tabList (done ++ rest)) ->
  exists L', built d0 F L' (fold_left (injectMamTab gen) rest s) /\
             map (fun i => b_tabList (i_binding i)) L' = map tabList (done ++ rest).
Proof.
  intros Hclean Hunm HltF. revert done L s.
  induction rest as [|en rest IH]; intros done L s Hs Hb Htl Hok Hnd.
  - exists L. by rewrite app_nil_r.
  - cbn [fold_left].
    assert (tabList en ∉ map tabList done) as Hnew.
    { rewrite map_app in Hnd. apply NoDup_app in Hnd as (_ & Hdis & _).
      intros Hin. apply (Hdis _ Hin). by left. }
    assert (length L = length done) as Hlen
      by (apply (f_equal length) in Htl; by rewrite !length_map in Htl).
    destruct (built_step gen d0 F done L s en Hclean Hunm HltF Hs Hb Hlen
                ltac:(apply Hok; by left) Hnew) as (i & Hi & Hb').
    pose proof (scanned_step gen d0 F done s en Hclean Hs ltac:(apply Hok; by left) Hnew)
      as Hs'.
    rewrite (cons_middle en done rest), app_assoc in Hnd |- *.
    apply (IH (done ++ [en])%list (L ++ [i])%list); try done.
    + rewrite !map_app, Htl. cbn. by rewrite Hi.
    + intros en' Hen'. apply Hok. by right.
Qed.

Lemma getMamIds_rest s tl :
  mamRoots (fst (getMamIds s tl)) = mamRoots s /\
  frames (fst (getMamIds s tl)) = frames s.
Proof. unfold getMamIds. by destruct (_ && _). Qed.

Lemma injectMamTab_rest gen s en :
  mamRoots (injectMamTab gen s en) = mamRoots s /\
  frames (injectMamTab gen s en) = frames s.
Proof.
  unfold injectMamTab. destruct (hasAttribute_at _ _ _); [done|].
  set (s1 := update_at _ _ s).
  assert (mamRoots s1 = mamRoots s /\ frames s1 = frames s) as [R1 F1] by done.
  destruct (locate (sampleTab en) (doc s1)); [|done].
  destruct (getMamIds_rest s1 (tabList en)) as [R2 F2].
  destruct (getMamIds s1 (tabList en)) as [s2 [panelId tabId]]. cbn [fst] in R2, F2.
  destruct (locate (sampleTab en) (doc s2)); cbn; by rewrite ?R2, ?F2.
Qed.

Lemma removed_all (bs : list binding) :
  List.filter (fun l => forallb (fun b => negb (bool_decide (l ∈ listeners_of b))) bs)
    (flat_map listeners_of bs) = [].
Proof.
  apply filter_absent. intros l Hl.
  apply list_elem_of_In, in_flat_map in Hl as (b & Hb & Hl).
  apply not_true_is_false. intros Hall. rewrite forallb_forall in Hall.
  specialize (Hall b Hb). apply negb_true_iff, bool_decide_eq_false in Hall.
  apply Hall. by apply list_elem_of_In.
Qed.

(** X8: a start followed by a stop, with no activation in
    between, gives the document back exactly as it was, whatever the
    document, provided it carried none of the plugin's attributes before:
    every synthetic tab is removed and every attribute set on a tab-list
    is taken away; no listener and no cleanup closure is left and the
    observer is disconnected. *)
Theorem start_stop_restores (gen : generation) (d : node) (F : nat) :
  wfb (initial d F) = true -> cleanb d = true -> unmarked d = true ->
  let s := stop (start gen (initial d F)) in
  doc s = d /\ listeners s = [] /\ cleanupFns s = [] /\ observer s = false /\
  mamRoots s = [] /\ frames s = [].
Proof.
  intros Hwf Hclean Hunm. cbn zeta.
  set (s0 := {| doc := d; fresh := F; panelIdCounter := 0; cleanupFns := [];
                mamRoots := []; listeners := []; frames := []; observer := true |}).
  assert (start gen (initial d F) = scanForPicker gen s0) as -> by reflexivity.
  assert (wfb s0 = true) as Hwf0 by exact Hwf.
  destruct (wfb_spec s0 Hwf0) as [Hnd Hlt]. cbn [doc fresh s0] in Hnd, Hlt.
  pose proof (scanned_initial s0 Hwf0 Hclean) as Hs0. cbn [doc fresh s0] in Hs0.
  assert (built d F [] s0) as Hb0.
  { unfold built. cbn. repeat split; constructor. }
  destruct (scan_built gen d F (findPickerEntries d) [] [] s0 Hclean Hunm Hlt Hs0 Hb0
              eq_refl) as (L & (Hdoc & Hfns & Hls & HL & Hseq) & Htl).
  { intros en Hen. by apply findPickerEntries_ok. }
  { cbn [app]. apply collect_distinct. }
  change (fold_left (injectMamTab gen) (findPickerEntries d) s0)
    with (scanForPicker gen s0) in Hdoc, Hfns, Hls.
  set (s1 := scanForPicker gen s0) in *.
  assert (mamRoots s1 = [] /\ frames s1 = []) as [Hroots Hframes].
  { subst s1. unfold scanForPicker.
    assert (forall l s, mamRoots s = [] -> frames s = [] ->
              mamRoots (fold_left (injectMamTab gen) l s) = [] /\
              frames (fold_left (injectMamTab gen) l s) = []) as Hkeep.
    { induction l as [|en l IH]; intros s Hr Hf; [by split|].
      cbn [fold_left]. destruct (injectMamTab_rest gen s en) as [E1 E2].
      apply IH; congruence. }
    by apply Hkeep. }
  unfold stop. cbv zeta.
  set (s2 := {| doc := doc s1; observer := false |}).
  change (cleanupFns s2) with (cleanupFns s1). rewrite Hfns.
  destruct (cleanup_injections F d L s2) as (G1 & G2 & _ & _ & _ & G6 & G7 & G8).
  { exact Hlt. }
  { intros e (x & Hx & <-)%elem_of_elems.
    destruct (clean_elem_spec _ (cleanb_spec _ _ Hclean Hx)) as (_ & Hp & Hbd & Hpi & Hti).
    repeat split; try done. by apply (unmarked_spec d). }
  { exact HL. }
  { rewrite Hseq. apply NoDup_seq. }
  { rewrite Htl. cbn [app]. apply collect_distinct. }
  { exact Hdoc. }
  cbn zeta in G1, G2, G6, G7, G8. cbn [doc listeners cleanupFns observer mamRoots frames].
  split; [exact G1|]. split.
  - rewrite G2. change (listeners s2) with (listeners s1). rewrite Hls. apply removed_all.
  - split; [reflexivity|]. split; [rewrite G8; reflexivity|].
    split; [rewrite G6; exact Hroots | rewrite G7; exact Hframes].
Qed.

Lemma start_stop_restores_witness :
  (wfb (initial Examples.picker 8) = true /\ cleanb Examples.picker = true /\
   unmarked Examples.picker = true) /\
  doc (start Gen2 (initial Examples.picker 8)) <> Examples.picker /\
  doc (stop (start Gen2 (initial Examples.picker 8))) = Examples.picker.
Proof.
  assert (wfb (initial Examples.picker 8) = true) as H1 by (vm_compute; reflexivity).
  assert (cleanb Examples.picker = true) as H2 by (vm_compute; reflexivity).
  assert (unmarked Examples.picker = true) as H3 by (vm_compute; reflexivity).
  destruct (start_stop_restores Gen2 Examples.picker 8 H1 H2 H3) as (G & _).
  split; [exact (conj H1 (conj H2 H3))|]. split; [|exact G].
  intros E. apply (f_equal (fun d => length (elements d))) in E.
  vm_compute in E. discriminate E.
Defined.

End TeardownFacts.

Module PageFacts.
Import Picker Invariants PickerFacts.

Lemma chain_items tr r res fields its :
  tr = Direct \/ tr = Relay true ->
  Http.ok res = true -> Http.body_json res = Ok (JObj fields) ->
  field "items" fields = Some (JArr its) ->
  chain tr r (Ok res) = Ok (its, has_more tr (JObj fields)).
Proof.
  intros Htr Hok Hb Hi. unfold chain, response_data.
  destruct Htr as [-> | ->].
  - cbn. rewrite Hok. cbn. rewrite Hb. cbn. by rewrite Hi.
  - unfold Bridge.fetchMagApi. cbn. rewrite Hb. cbn. rewrite Hok. cbn. by rewrite Hi.
Qed.

(** X9: in both generations of the picker tab, when the answer to a
    request that is not superseded is a success whose body has an array
    [items], the first page replaces the items shown and a later page is
    appended after them; the has-more flag is the one the generation
    reads from the body, the loading flag is cleared and the error shown
    is left as it is. *)
Theorem page_arrives (tr : transport) (v : view) (r : request)
    (res : Http.response) (fields : list (string * json)) (its : list json) :
  tr = Direct \/ tr = Relay true ->
  mounted v = true -> issued tr r -> is_aborted (r_controller r) v = false ->
  Http.ok res = true -> Http.body_json res = Ok (JObj fields) ->
  field "items" fields = Some (JArr its) ->
  let v' := settle tr v r (Ok res) in
  items v' = (if (r_page r =? 1)%Z then its else (items v ++ its)%list) /\
  hasMore v' = has_more tr (JObj fields) /\
  loading v' = false /\ error v' = error v.
Proof.
  intros Htr Hm Hi Hlive Hok Hb Hits. cbn zeta.
  assert (chain tr r (outcome v r (Ok res)) = Ok (its, has_more tr (JObj fields))) as Hchain.
  { rewrite (outcome_live tr) by done. by apply chain_items. }
  rewrite (settle_fulfilled _ _ _ _ _ _ Hm Hlive Hchain). by cbn.
Qed.

Lemma page_arrives_witness :
  let v := Examples.view_page_two Direct in
  let r := Examples.request_of Direct 1 2 in
  let v' := settle Direct v r (Ok (Examples.listing [JStr "second"])) in
  items v = [JStr "first"] /\
  items v' = [JStr "first"; JStr "second"] /\ hasMore v' = false /\ loading v' = false.
Proof.
  cbn zeta.
  destruct (page_arrives Direct (Examples.view_page_two Direct)
              (Examples.request_of Direct 1 2) (Examples.listing [JStr "second"])
              [("pagination", JObj [("page", JNum 1); ("per_page", JNum 20);
                                    ("has_more", JBool false); ("next_page", JNull)]);
               ("items", JArr [JStr "second"])]
              [JStr "second"]) as (H1 & H2 & H3 & _);
    [by left | by vm_compute ..|].
  split; [by vm_compute|]. split; [|by split].
  rewrite H1. by vm_compute.
Defined.

Lemma chain_relay_unparsed r res t :
  Http.body_json res = Throw t ->
  chain (Relay true) r (Ok res) = Throw (ErrorObj "Request failed (-1).").
Proof.
  intros Hb. unfold chain, response_data, Bridge.fetchMagApi. cbn. rewrite Hb. reflexivity.
Qed.

(** X10: what the second generation shows when the relay reports a
    failure: a response whose body is not JSON, whatever its status, and
    a [fetch] that rejects are both shown as "Request failed (-1).", the
    status of the relay's record, and not with the status of the
    response or the message of the rejection; without the native helper
    the message says so, whatever the network would answer. The first
    generation shows the message of the rejection. *)
Theorem relay_failures_shown (v : view) (r : request) :
  mounted v = true -> is_aborted (r_controller r) v = false ->
  (forall res t, issued (Relay true) r -> Http.body_json res = Throw t ->
     error (settle (Relay true) v r (Ok res)) = Some "Request failed (-1).") /\
  (forall t, issued (Relay true) r ->
     error (settle (Relay true) v r (Throw t)) = Some "Request failed (-1).") /\
  (forall net, issued (Relay false) r ->
     error (settle (Relay false) v r net) = Some NO_NATIVE) /\
  (forall message, issued Direct r ->
     error (settle Direct v r (Throw (ErrorObj message))) = Some message).
Proof.
  intros Hm Hlive. repeat split.
  - intros res t Hi Hb.
    assert (chain (Relay true) r (outcome v r (Ok res))
            = Throw (ErrorObj "Request failed (-1).")) as Hchain.
    { rewrite (outcome_live (Relay true)) by done. by apply (chain_relay_unparsed r res t). }
    by rewrite (settle_failed _ _ _ _ _ Hm Hlive Hchain).
  - intros t Hi.
    assert (chain (Relay true) r (outcome v r (Throw t))
            = Throw (ErrorObj "Request failed (-1).")) as Hchain
      by (by rewrite (outcome_live (Relay true))).
    by rewrite (settle_failed _ _ _ _ _ Hm Hlive Hchain).
  - intros net Hi.
    assert (chain (Relay false) r (outcome v r net) = Throw (ErrorObj NO_NATIVE)) as Hchain
      by (by rewrite (outcome_live (Relay false))).
    by rewrite (settle_failed _ _ _ _ _ Hm Hlive Hchain).
  - intros message Hi.
    assert (chain Direct r (outcome v r (Throw (ErrorObj message)))
            = Throw (ErrorObj message)) as Hchain
      by (by rewrite (outcome_live Direct)).
    by rewrite (settle_failed _ _ _ _ _ Hm Hlive Hchain).
Qed.

Lemma relay_failures_shown_witness :
  let v := Examples.view_page_two (Relay true) in
  let r := Examples.request_of (Relay true) 1 2 in
  let html := {| Http.status := 502; Http.statusText := "Bad Gateway";
                 Http.body_json := Throw (ErrorObj "Unexpected token <");
                 Http.body_text_after := Throw (ErrorObj "body stream already read") |} in
  (mounted v = true /\ is_aborted (r_controller r) v = false) /\
  error (settle (Relay true) v r (Ok html)) = Some "Request failed (-1)." /\
  error (settle (Relay true) v r (Throw (ErrorObj "Failed to fetch")))
  = Some "Request failed (-1).".
Proof.
  cbn zeta.
  assert (mounted (Examples.view_page_two (Relay true)) = true) as Hm by (by vm_compute).
  assert (is_aborted (r_controller (Examples.request_of (Relay true) 1 2))
            (Examples.view_page_two (Relay true)) = false) as Hl by (by vm_compute).
  destruct (relay_failures_shown _ _ Hm Hl) as (H1 & H2 & _).
  split; [by split|]. split.
  - by apply (H1 _ (ErrorObj "Unexpected token <")).
  - by apply H2.
Defined.

End PageFacts.

Module KeyFacts.
Import Picker Invariants Shapes PickerFacts StaleFacts.

Lemma abort_frame c v :
  let v' := abort c v in
  apiKey v' = apiKey v /\ query v' = query v /\ debouncedQuery v' = debouncedQuery v /\
  mode v' = mode v /\ selectedListId v' = selectedListId v /\ page v' = page v /\
  timer v' = timer v /\ items v' = items v /\ error v' = error v /\
  loading v' = loading v /\ hasMore v' = hasMore v /\ inflight v' = inflight v /\
  abortRef v' = abortRef v /\ mounted v' = mounted v /\ controllers v' = controllers v /\
  cleanupCtl v' = cleanupCtl v.
Proof.
  unfold abort. destruct c as [c|]; [|by repeat split].
  destruct (is_aborted c v); by repeat split.
Qed.

Lemma effects_flags tr old v d rs sw f :
  negb (bool_decide (query old = query v)) = d ->
  negb (bool_decide (reset_deps old = reset_deps v)) = rs ->
  (is_relay tr && negb (bool_decide (switch_deps old = switch_deps v))
   && truthy_string (debouncedQuery v) && negb (bool_decide (mode v = All))) = sw ->
  negb (bool_decide (fetch_deps old = fetch_deps v)) = f ->
  effects tr false old v = effects_with tr d rs sw f v.
Proof. intros <- <- <- <-. reflexivity. Qed.

(** The inputs of the view after the effects of one commit. *)
Lemma fetch_effect_inputs tr v :
  let v' := fetch_effect tr v in
  apiKey v' = apiKey v /\ query v' = query v /\ debouncedQuery v' = debouncedQuery v /\
  mode v' = mode v /\ selectedListId v' = selectedListId v /\ page v' = page v /\
  timer v' = timer v /\ mounted v' = mounted v.
Proof.
  cbn zeta. unfold fetch_effect, fetch_body.
  destruct (abort_frame (cleanupCtl v) v)
    as (A1 & A2 & A3 & A4 & A5 & A6 & A7 & _ & _ & _ & _ & _ & _ & A8 & _).
  set (v1 := abort (cleanupCtl v) v) in *.
  destruct (abort_frame (abortRef v1) v1)
    as (B1 & B2 & B3 & B4 & B5 & B6 & B7 & _ & _ & _ & _ & _ & _ & B8 & _).
  set (v2 := abort (abortRef v1) v1) in *.
  cbv zeta. cbn [mode set_net apiKey].
  destruct (match tr with Relay _ => match mode v2 with Categories => true | _ => false end
                        | Direct => false end) eqn:Ec.
  - replace (match tr, mode v2 with Relay _, Categories => true | _, _ => false end)
      with true by (destruct tr, (mode v2); done).
    cbn. rewrite B1, B2, B3, B4, B5, B6, B7, B8. by repeat split.
  - replace (match tr, mode v2 with Relay _, Categories => true | _, _ => false end)
      with false by (destruct tr, (mode v2); done).
    destruct (negb (truthy_string (apiKey v2)));
      cbn; rewrite B1, B2, B3, B4, B5, B6, B7, B8; by repeat split.
Qed.

Lemma effects_with_inputs tr d rs sw f v :
  let v' := effects_with tr d rs sw f v in
  apiKey v' = apiKey v /\ query v' = query v /\ debouncedQuery v' = debouncedQuery v /\
  selectedListId v' = selectedListId v /\
  mode v' = (if sw then All else mode v) /\
  page v' = (if rs then 1%Z else page v) /\
  timer v' = (if d then Some (query v) else timer v) /\
  mounted v' = mounted v.
Proof.
  cbn zeta. unfold effects_with.
  set (v1 := if d then _ else v).
  assert (apiKey v1 = apiKey v /\ query v1 = query v /\ debouncedQuery v1 = debouncedQuery v /\
          mode v1 = mode v /\ selectedListId v1 = selectedListId v /\ page v1 = page v /\
          timer v1 = (if d then Some (query v) else timer v) /\ mounted v1 = mounted v)
    as (C1 & C2 & C3 & C4 & C5 & C6 & C7 & C8) by (subst v1; destruct d; by repeat split).
  destruct f.
  - destruct (fetch_effect_inputs tr v1) as (F1 & F2 & F3 & F4 & F5 & F6 & F7 & F8).
    cbn. rewrite F1, F2, F3, F4, F5, F6, F7, F8, C1, C2, C3, C4, C5, C6, C7, C8.
    by repeat split.
  - cbn. rewrite C1, C2, C3, C4, C5, C6, C7, C8. by repeat split.
Qed.

(** The fetch effect of a view that has no key. *)
Lemma fetch_effect_keyless tr v :
  apiKey v = "" ->
  let v' := fetch_effect tr v in
  inflight v' = inflight v /\ abortRef v' = abortRef v /\
  aborted v ⊆ aborted v' /\ loading v' = false /\
  (forall c, abortRef v = Some c -> c ∈ aborted v') /\
  (tr = Direct \/ mode v <> Categories ->
   error v' = Some PROMPT /\ items v' = [] /\ hasMore v' = false).
Proof.
  intros Hk. cbn zeta. unfold fetch_effect, fetch_body.
  destruct (abort_frame (cleanupCtl v) v)
    as (A1 & _ & _ & A4 & _ & _ & _ & _ & _ & _ & _ & A12 & A13 & _).
  destruct (abort_spec (cleanupCtl v) v) as (_ & _ & _ & _ & _ & _ & Asub & _).
  set (v1 := abort (cleanupCtl v) v) in *.
  destruct (abort_frame (abortRef v1) v1)
    as (B1 & _ & _ & B4 & _ & _ & _ & _ & _ & _ & _ & B12 & B13 & _).
  destruct (abort_spec (abortRef v1) v1) as (_ & _ & _ & _ & _ & _ & Bsub & Bcur).
  set (v2 := abort (abortRef v1) v1) in *.
  assert (forall c, abortRef v = Some c -> c ∈ aborted v2) as Hcur
    by (intros c Hc; apply Bcur; by rewrite A13).
  assert (aborted v ⊆ aborted v2) as Hsub by (intros c Hc; by apply Bsub, Asub).
  cbv zeta. cbn [mode set_net apiKey]. rewrite B1, A1, Hk, B4, A4.
  change (negb (truthy_string "")) with true. cbv iota.
  destruct tr as [|native].
  - cbn. rewrite B12, A12, B13, A13. repeat split; try done.
  - destruct (mode v) eqn:Em; cbn; rewrite B12, A12, B13, A13; repeat split; try done.
    all: by destruct H.
Qed.

Lemma keyless_step tr v rs f w :
    keyless v w ->
    let w' := effects_with tr false rs false f w in
    keyless v w' /\ (f = true -> prompted tr v w') /\
    (f = false -> prompted tr v w -> prompted tr v w').
  Proof.
    intros (K1 & K2 & K3 & K4 & K5 & K6 & K7 & K8). cbn zeta.
    destruct (effects_with_inputs tr false rs false f w)
      as (I1 & I2 & I3 & I4 & I5 & _). cbn zeta in *.
    unfold effects_with in *. destruct f.
    - destruct (fetch_effect_keyless tr w K1) as (F1 & F2 & F3 & F4 & F5 & F6).
      cbn zeta in *. split; [|split; [|done]].
      + unfold keyless. cbn. cbn in I1, I2, I3, I4, I5.
        rewrite I1, I2, I3, I4, F1, F2, K1, K2, K3, K5, K6, K7.
        repeat split; try done.
        * destruct (fetch_effect_inputs tr w) as (_ & _ & _ & G4 & _). cbn zeta in G4.
          by rewrite G4.
        * intros c Hc. by apply F3, K8.
      + intros _. unfold prompted. cbn. split; [done|]. split.
        * intros c Hc. apply F5. by rewrite K7.
        * rewrite <- K4. exact F6.
    - split; [|split; [done|]].
      + unfold keyless. cbn. by repeat split.
      + intros _ (P1 & P2 & P3). unfold prompted. cbn. split; [done|]. split; [done|]. exact P3.
  Qed.

(** X11: when the API key setting becomes empty, both generations of
    the picker tab abort the request [abortRef] holds and issue none; the
    loading flag is cleared and, except in the categories view of the
    second generation, the items and the has-more flag are cleared and
    the error shown is the request to set the key. *)
Theorem key_removed (tr : transport) (v : view) :
  mounted v = true -> apiKey v <> "" ->
  let v' := handle tr v (ApiKey "") in
  inflight v' = inflight v /\ loading v' = false /\
  (forall c, abortRef v = Some c -> is_aborted c v' = true) /\
  (tr = Direct \/ mode v <> Categories ->
   error v' = Some "Set your MAM API key in the plugin settings." /\
   items v' = [] /\ hasMore v' = false).
Proof.
  intros Hm Hk. cbn zeta. unfold handle. rewrite Hm. cbn [negb].
  set (v0 := update v "" (query v) (debouncedQuery v) (mode v) (selectedListId v) (page v)).
  assert (keyless v v0) as K0 by (unfold keyless; by repeat split).
  unfold commit.
  (* first round: the key changed *)
  rewrite (effects_flags tr v v0 false true false true); cycle 1.
  { by rewrite bool_decide_eq_true_2. }
  { rewrite bool_decide_eq_false_2; [done|]. unfold reset_deps. cbn. congruence. }
  { unfold switch_deps. cbn. rewrite bool_decide_eq_true_2 by done.
    by rewrite andb_false_r. }
  { rewrite bool_decide_eq_false_2; [done|]. unfold fetch_deps. cbn. congruence. }
  destruct (keyless_step tr v true true v0 K0) as (K1 & Q1 & _). cbn zeta in *.
  specialize (Q1 eq_refl).
  set (v1 := effects_with tr false true false true v0) in *.
  destruct (effects_with_inputs tr false true false true v0)
    as (I1 & I2 & I3 & I4 & I5 & I6 & _). cbn zeta in *. fold v1 in I1, I2, I3, I4, I5, I6.
  (* second round: the page may have been reset *)
  rewrite (effects_flags tr v0 v1 false false false
             (negb (bool_decide (fetch_deps v0 = fetch_deps v1)))); cycle 1.
  { by rewrite I2, bool_decide_eq_true_2. }
  { unfold reset_deps. by rewrite I1, I3, I4, I5, bool_decide_eq_true_2. }
  { unfold switch_deps. rewrite I3, I5, bool_decide_eq_true_2 by done.
    by rewrite andb_false_r. }
  { done. }
  set (f2 := negb (bool_decide (fetch_deps v0 = fetch_deps v1))).
  destruct (keyless_step tr v false f2 v1 K1) as (K2 & Q2a & Q2b). cbn zeta in *.
  assert (prompted tr v (effects_with tr false false false f2 v1)) as Q2
    by (destruct f2; [by apply Q2a | by apply Q2b]).
  set (v2 := effects_with tr false false false f2 v1) in *.
  destruct (effects_with_inputs tr false false false f2 v1)
    as (J1 & J2 & J3 & J4 & J5 & J6 & _). cbn zeta in *. fold v2 in J1, J2, J3, J4, J5, J6.
  (* third round: nothing has changed *)
  rewrite (effects_flags tr v1 v2 false false false false); cycle 1.
  { by rewrite J2, bool_decide_eq_true_2. }
  { unfold reset_deps. by rewrite J1, J3, J4, J5, bool_decide_eq_true_2. }
  { unfold switch_deps. rewrite J3, J5, bool_decide_eq_true_2 by done.
    by rewrite andb_false_r. }
  { unfold fetch_deps. by rewrite J1, J3, J4, J5, J6, bool_decide_eq_true_2. }
  destruct (keyless_step tr v false false v2 K2) as (K3 & _ & Q3). cbn zeta in *.
  specialize (Q3 eq_refl Q2).
  destruct K3 as (_ & _ & _ & _ & _ & Kfl & _). destruct Q3 as (P1 & P2 & P3).
  split; [exact Kfl|]. split; [exact P1|]. split; [|exact P3].
  intros c Hc. apply is_aborted_elem. exact (P2 c Hc).
Qed.

Lemma key_removed_witness :
  let v := Examples.view_page_two Direct in
  let v' := handle Direct v (ApiKey "") in
  (mounted v = true /\ apiKey v <> "") /\
  abortRef v = Some 1 /\ is_aborted 1 v' = true /\
  inflight v' = inflight v /\ loading v' = false /\
  error v' = Some "Set your MAM API key in the plugin settings." /\
  items v' = [] /\ hasMore v' = false.
Proof.
  cbn zeta.
  assert (mounted (Examples.view_page_two Direct) = true) as Hm by (vm_compute; reflexivity).
  assert (apiKey (Examples.view_page_two Direct) <> "") as Hk by (vm_compute; discriminate).
  destruct (key_removed Direct (Examples.view_page_two Direct) Hm Hk)
    as (H1 & H2 & H3 & H4).
  assert (abortRef (Examples.view_page_two Direct) = Some 1) as Hr by (vm_compute; reflexivity).
  destruct (H4 (or_introl eq_refl)) as (H5 & H6 & H7).
  split; [exact (conj Hm Hk)|]. split; [exact Hr|]. split; [exact (H3 1 Hr)|].
  exact (conj H1 (conj H2 (conj H5 (conj H6 H7)))).
Defined.

End KeyFacts.

Module ModeFacts.
Import Picker Invariants Shapes PickerFacts StaleFacts KeyFacts.

Lemma truthy_iff s : truthy_string s = true <-> s <> "".
Proof.
  unfold truthy_string. rewrite negb_true_iff. split.
  - intros H ->. by rewrite String.eqb_refl in H.
  - intros H. by apply String.eqb_neq.
Qed.

Lemma not_truthy s : truthy_string s = false <-> s = "".
Proof.
  unfold truthy_string. rewrite negb_false_iff. apply String.eqb_eq.
Qed.

(** The fetch effect in the categories view of the second generation. *)
Lemma fetch_effect_categories native v :
  mode v = Categories ->
  let v' := fetch_effect (Relay native) v in
  inflight v' = inflight v /\ controllers v' = controllers v /\ loading v' = false /\
  items v' = items v /\ error v' = error v /\ hasMore v' = hasMore v /\
  cleanupCtl v' = None.
Proof.
  intros Hmd. cbn zeta. unfold fetch_effect, fetch_body.
  destruct (abort_frame (cleanupCtl v) v)
    as (_ & _ & _ & A4 & _ & _ & _ & A8 & A9 & _ & A11 & A12 & _ & _ & A15 & _).
  set (v1 := abort (cleanupCtl v) v) in *.
  destruct (abort_frame (abortRef v1) v1)
    as (_ & _ & _ & B4 & _ & _ & _ & B8 & B9 & _ & B11 & B12 & _ & _ & B15 & _).
  set (v2 := abort (abortRef v1) v1) in *.
  cbv zeta. cbn [mode set_net]. rewrite B4, A4, Hmd. cbn.
  rewrite B8, B9, B11, B12, B15, A8, A9, A11, A12, A15. by repeat split.
Qed.

(** The fetch effect when there is a key and results are shown. *)
Lemma fetch_effect_issues tr v :
  apiKey v <> "" -> tr = Direct \/ mode v <> Categories ->
  let v' := fetch_effect tr v in
  inflight v' =
  (inflight v ++
   [{| r_controller := controllers v; r_page := page v; r_url := request_url tr v;
       r_options := {| Http.headers := [("X-API-Key", apiKey v)];
                       Http.signal := match tr with
                                      | Direct => Some (controllers v)
                                      | Relay _ => None
                                      end |} |}])%list /\
  loading v' = true /\ error v' = None /\ items v' = items v /\
  abortRef v' = Some (controllers v) /\ controllers v' = S (controllers v).
Proof.
  intros Hk Hshown. cbn zeta. unfold fetch_effect, fetch_body.
  destruct (abort_frame (cleanupCtl v) v)
    as (A1 & _ & A3 & A4 & A5 & A6 & _ & A8 & _ & _ & _ & A12 & _ & _ & A15 & _).
  set (v1 := abort (cleanupCtl v) v) in *.
  destruct (abort_frame (abortRef v1) v1)
    as (B1 & _ & B3 & B4 & B5 & B6 & _ & B8 & _ & _ & _ & B12 & _ & _ & B15 & _).
  set (v2 := abort (abortRef v1) v1) in *.
  assert (request_url tr
            (set_net (abortRef v2) (controllers v2) (aborted v2) None (inflight v2)
               (mounted v2) v2) = request_url tr v) as Hurl.
  { unfold request_url. cbn [mode selectedListId page debouncedQuery set_net].
    by rewrite B3, B4, B5, B6, A3, A4, A5, A6. }
  cbv zeta. rewrite Hurl. cbn [mode set_net apiKey page controllers inflight].
  rewrite B1, A1, B4, A4.
  apply truthy_iff in Hk. rewrite Hk. cbn [negb].
  replace (match tr, mode v with Relay _, Categories => true | _, _ => false end)
    with false by (destruct Hshown as [-> | H]; [done | destruct tr, (mode v); done]).
  cbn. rewrite B6, A6, B8, A8, B12, A12, B15, A15. by repeat split.
Qed.

Lemma effects_with_rest tr d rs sw v :
  let v' := effects_with tr d rs sw false v in
  inflight v' = inflight v /\ loading v' = loading v /\ items v' = items v /\
  error v' = error v /\ hasMore v' = hasMore v /\ controllers v' = controllers v /\
  aborted v' = aborted v /\ abortRef v' = abortRef v.
Proof. cbn zeta. unfold effects_with. destruct d; by repeat split. Qed.

Lemma effects_with_categories native d rs sw f v :
  mode v = Categories ->
  let v' := effects_with (Relay native) d rs sw f v in
  inflight v' = inflight v /\ (f = true -> loading v' = false) /\
  (f = false -> loading v' = loading v).
Proof.
  intros Hmd. cbn zeta. unfold effects_with.
  set (w := if d then _ else v).
  assert (mode w = Categories /\ inflight w = inflight v /\ loading w = loading v)
    as (Mw & Fw & Lw) by (subst w; by destruct d).
  destruct f.
  - destruct (fetch_effect_categories native w Mw) as (E1 & _ & E3 & _).
    cbn zeta in E1, E3. cbn. rewrite E1, E3, Fw. by repeat split.
  - cbn. rewrite Fw, Lw. by repeat split.
Qed.

(** X12: the back control of the second generation clears the query
    and the selected list and asks for the categories view, but while the
    debounced query is not empty the effect that follows a query switches
    the view to the all-GIFs mode again in the same commit: the view ends
    in the all-GIFs mode, not in the categories. When the debounced query
    is empty the view ends in the categories, with no request issued and
    nothing loading. *)
Theorem back_control (native : bool) (v : view) :
  mounted v = true -> mode v <> Categories ->
  let v' := handle (Relay native) v Back in
  query v' = "" /\ selectedListId v' = None /\
  debouncedQuery v' = debouncedQuery v /\
  (debouncedQuery v <> "" -> mode v' = All) /\
  (debouncedQuery v = "" ->
   mode v' = Categories /\ inflight v' = inflight v /\ loading v' = false).
Proof.
  intros Hm Hmd. cbn zeta. unfold handle. rewrite Hm. cbn [negb is_relay andb].
  rewrite bool_decide_eq_false_2 by done. cbn [negb].
  set (tr := Relay native).
  set (v0 := update v (apiKey v) "" (debouncedQuery v) Categories None (page v)).
  unfold commit.
  set (b1 := negb (bool_decide (query v = query v0))).
  set (sw1 := truthy_string (debouncedQuery v)).
  rewrite (effects_flags tr v v0 b1 true sw1 true); cycle 1.
  { done. }
  { rewrite bool_decide_eq_false_2; [done|]. unfold reset_deps. cbn. congruence. }
  { unfold switch_deps. cbn. rewrite bool_decide_eq_false_2 by congruence.
    rewrite bool_decide_eq_false_2 by done. subst sw1. by destruct (truthy_string _). }
  { rewrite bool_decide_eq_false_2; [done|]. unfold fetch_deps. cbn. congruence. }
  set (v1 := effects_with tr b1 true sw1 true v0).
  destruct (effects_with_inputs tr b1 true sw1 true v0)
    as (I1 & I2 & I3 & I4 & I5 & I6 & _). cbn zeta in I1, I2, I3, I4, I5, I6.
  fold v1 in I1, I2, I3, I4, I5, I6.
  change (apiKey v0) with (apiKey v) in I1. change (query v0) with "" in I2.
  change (debouncedQuery v0) with (debouncedQuery v) in I3.
  change (selectedListId v0) with (@None Z) in I4.
  change (mode v0) with Categories in I5.
  set (f2 := negb (bool_decide (fetch_deps v0 = fetch_deps v1))).
  rewrite (effects_flags tr v0 v1 false sw1 false f2); cycle 1.
  { rewrite I2. by rewrite bool_decide_eq_true_2. }
  { unfold reset_deps. rewrite I1, I3, I4, I5. cbn.
    destruct sw1; [by rewrite bool_decide_eq_false_2 | by rewrite bool_decide_eq_true_2]. }
  { unfold switch_deps. rewrite I3, I5. cbn.
    destruct sw1 eqn:E.
    - rewrite (bool_decide_eq_true_2 (All = All)) by done. cbn [negb].
      by rewrite andb_false_r.
    - by rewrite bool_decide_eq_true_2. }
  { done. }
  set (v2 := effects_with tr false sw1 false f2 v1).
  destruct (effects_with_inputs tr false sw1 false f2 v1)
    as (J1 & J2 & J3 & J4 & J5 & J6 & _). cbn zeta in J1, J2, J3, J4, J5, J6.
  fold v2 in J1, J2, J3, J4, J5, J6.
  assert (page v2 = page v1) as Hpage by (rewrite J6, I6; by destruct sw1).
  rewrite (effects_flags tr v1 v2 false false false false); cycle 1.
  { by rewrite J2, bool_decide_eq_true_2. }
  { unfold reset_deps. by rewrite J1, J3, J4, J5, bool_decide_eq_true_2. }
  { unfold switch_deps. rewrite J3, J5, bool_decide_eq_true_2 by done.
    by rewrite andb_false_r. }
  { unfold fetch_deps. by rewrite J1, J3, J4, J5, Hpage, bool_decide_eq_true_2. }
  destruct (effects_with_inputs tr false false false false v2)
    as (L1 & L2 & L3 & L4 & L5 & _). cbn zeta in L1, L2, L3, L4, L5.
  rewrite L2, L3, L4, L5, J2, J3, J4, J5, I2, I3, I4, I5.
  split; [done|]. split; [done|]. split; [done|]. split.
  - intros Hq. apply truthy_iff in Hq. subst sw1. by rewrite Hq.
  - intros Hq. assert (sw1 = false) as Hsw by (subst sw1; by rewrite Hq).
    split; [by rewrite Hsw|].
    (* no request: the fetch effect runs in the categories view *)
    assert (mode v0 = Categories) as M0 by reflexivity.
    destruct (effects_with_categories native b1 true sw1 true v0 M0) as (F1 & G1 & _).
    cbn zeta in F1, G1. fold tr in F1, G1. fold v1 in F1, G1. specialize (G1 eq_refl).
    assert (mode v1 = Categories) as M1 by (rewrite I5, Hsw; reflexivity).
    destruct (effects_with_categories native false sw1 false f2 v1 M1) as (F2 & G2a & G2b).
    cbn zeta in F2, G2a, G2b. fold tr in F2, G2a, G2b. fold v2 in F2, G2a, G2b.
    assert (loading v2 = false) as G2.
    { destruct f2 eqn:Ef; [by apply G2a | rewrite G2b; [exact G1 | reflexivity]]. }
    destruct (effects_with_rest tr false false false v2) as (R1 & R2 & _).
    cbn zeta in R1, R2. rewrite R1, R2, F2, F1, G2. split; reflexivity.
Qed.

Lemma back_control_witness :
  let v := run (Relay true) (mount (Relay true) "k")
             [CategoryAll; Input "cat"; DebounceTimer] in
  let v' := handle (Relay true) v Back in
  (mounted v = true /\ mode v <> Categories) /\
  debouncedQuery v = "cat" /\ query v' = "" /\ mode v' = All.
Proof.
  cbn zeta.
  set (v := run (Relay true) (mount (Relay true) "k")
              [CategoryAll; Input "cat"; DebounceTimer]).
  assert (mounted v = true) as Hm by (vm_compute; reflexivity).
  assert (mode v <> Categories) as Hmd by (vm_compute; discriminate).
  assert (debouncedQuery v = "cat") as Hq by (vm_compute; reflexivity).
  destruct (back_control true v Hm Hmd) as (H1 & _ & _ & H4 & _).
  split; [exact (conj Hm Hmd)|]. split; [exact Hq|]. split; [exact H1|].
  apply H4. rewrite Hq. discriminate.
Defined.

Lemma effects_with_issues tr d rs sw v :
  apiKey v <> "" -> tr = Direct \/ mode v <> Categories ->
  let v' := effects_with tr d rs sw true v in
  inflight v' =
  (inflight v ++
   [{| r_controller := controllers v; r_page := page v; r_url := request_url tr v;
       r_options := {| Http.headers := [("X-API-Key", apiKey v)];
                       Http.signal := match tr with
                                      | Direct => Some (controllers v)
                                      | Relay _ => None
                                      end |} |}])%list /\
  loading v' = true /\ error v' = None /\ items v' = items v.
Proof.
  intros Hk Hshown. cbn zeta. unfold effects_with.
  set (w := if d then _ else v).
  assert (apiKey w = apiKey v /\ mode w = mode v /\ inflight w = inflight v /\
          controllers w = controllers v /\ page w = page v /\
          request_url tr w = request_url tr v /\ items w = items v)
    as (W1 & W2 & W3 & W4 & W5 & W6 & W7) by (subst w; by destruct d).
  destruct (fetch_effect_issues tr w) as (E1 & E2 & E3 & E4 & _).
  { by rewrite W1. }
  { by rewrite W2. }
  cbn zeta in E1, E2, E3, E4. cbn.
  rewrite E1, E2, E3, E4, W1, W3, W4, W5, W6, W7. by repeat split.
Qed.

(** X13: in the categories view of the second generation with the
    native handler present, when the debounce timer fires with a query
    that is not blank, the view goes to the all-GIFs mode in the same
    commit, the page is 1 and, when there is a key, the relay is called
    once: for the first page of the search for the trimmed query, which
    the URL carries in the form encoding of [URLSearchParams], with the
    key in the header and no signal. *)
Theorem query_opens_all_view (v : view) (q : string) :
  mounted v = true -> mode v = Categories -> timer v = Some q ->
  trim q <> "" -> trim q <> debouncedQuery v -> apiKey v <> "" ->
  let v' := handle (Relay true) v DebounceTimer in
  mode v' = All /\ debouncedQuery v' = trim q /\ page v' = 1%Z /\
  timer v' = None /\ loading v' = true /\
  inflight v' =
  (inflight v ++
   [{| r_controller := controllers v; r_page := 1;
       r_url := url_of "/api/gifs"
                  [("q", trim q); ("limit", "20"); ("page", "1"); ("nsfw", "false");
                   ("visibility", "published")];
       r_options := {| Http.headers := [("X-API-Key", apiKey v)];
                       Http.signal := None |} |}])%list.
Proof.
  pose (native := true). change (Relay true) with (Relay native).
  intros Hm Hmd Ht Hq Hne Hk. cbn zeta. unfold handle. rewrite Hm, Ht. cbn [negb].
  set (tr := Relay native).
  set (va := set_inputs (apiKey v) (query v) (debouncedQuery v) (mode v)
               (selectedListId v) (page v) None v).
  set (v0 := update va (apiKey v) (query v) (trim q) (mode v) (selectedListId v) (page v)).
  assert (truthy_string (trim q) = true) as Htq by (by apply truthy_iff).
  unfold commit.
  rewrite (effects_flags tr va v0 false true true true); cycle 1.
  { by rewrite bool_decide_eq_true_2. }
  { rewrite bool_decide_eq_false_2; [done|]. unfold reset_deps. cbn. congruence. }
  { unfold switch_deps. cbn. rewrite bool_decide_eq_false_2 by congruence.
    rewrite Htq, Hmd. by rewrite bool_decide_eq_false_2. }
  { rewrite bool_decide_eq_false_2; [done|]. unfold fetch_deps. cbn. congruence. }
  set (v1 := effects_with tr false true true true v0).
  destruct (effects_with_inputs tr false true true true v0)
    as (I1 & I2 & I3 & I4 & I5 & I6 & I7 & _). cbn zeta in I1, I2, I3, I4, I5, I6, I7.
  fold v1 in I1, I2, I3, I4, I5, I6, I7.
  change (apiKey v0) with (apiKey v) in I1. change (query v0) with (query v) in I2.
  change (debouncedQuery v0) with (trim q) in I3.
  change (selectedListId v0) with (selectedListId v) in I4.
  change (timer v0) with (@None string) in I7.
  assert (mode v0 = Categories) as M0 by exact Hmd.
  destruct (effects_with_categories native false true true true v0 M0) as (F1 & _).
  cbn zeta in F1. fold tr in F1. fold v1 in F1.
  change (inflight v0) with (inflight v) in F1.
  assert (controllers v1 = controllers v) as C1.
  { subst v1. unfold effects_with.
    destruct (fetch_effect_categories native v0 M0) as (_ & E2 & _). cbn zeta in E2.
    cbn [controllers set_inputs]. exact E2. }
  (* second round: the mode has changed *)
  rewrite (effects_flags tr v0 v1 false true false true); cycle 1.
  { rewrite I2. by rewrite bool_decide_eq_true_2. }
  { unfold reset_deps. rewrite I1, I3, I4, I5. cbn. rewrite Hmd.
    by rewrite bool_decide_eq_false_2. }
  { unfold switch_deps. rewrite I3, I5. cbn.
    rewrite (bool_decide_eq_true_2 (All = All)) by done. cbn [negb].
    by rewrite andb_false_r. }
  { unfold fetch_deps. rewrite I1, I3, I4, I5, I6. cbn. rewrite Hmd.
    by rewrite bool_decide_eq_false_2. }
  set (v2 := effects_with tr false true false true v1).
  destruct (effects_with_inputs tr false true false true v1)
    as (J1 & J2 & J3 & J4 & J5 & J6 & J7 & _). cbn zeta in J1, J2, J3, J4, J5, J6, J7.
  fold v2 in J1, J2, J3, J4, J5, J6, J7.
  destruct (effects_with_issues tr false true false v1) as (E1 & E2 & _).
  { by rewrite I1. }
  { right. by rewrite I5. }
  cbn zeta in E1, E2. fold v2 in E1, E2.
  assert (request_url tr v1
          = url_of "/api/gifs"
              [("q", trim q); ("limit", "20"); ("page", "1"); ("nsfw", "false");
               ("visibility", "published")]) as Hurl.
  { unfold request_url. rewrite I5, I3, I6, Htq. reflexivity. }
  rewrite Hurl, I1, I6, C1, F1 in E1.
  (* third round: nothing has changed *)
  rewrite (effects_flags tr v1 v2 false false false false); cycle 1.
  { by rewrite J2, bool_decide_eq_true_2. }
  { unfold reset_deps. by rewrite J1, J3, J4, J5, bool_decide_eq_true_2. }
  { unfold switch_deps. rewrite J3, J5, bool_decide_eq_true_2 by done.
    by rewrite andb_false_r. }
  { unfold fetch_deps. by rewrite J1, J3, J4, J5, J6, I6, bool_decide_eq_true_2. }
  destruct (effects_with_inputs tr false false false false v2)
    as (L1 & L2 & L3 & L4 & L5 & L6 & L7 & _). cbn zeta in L1, L2, L3, L4, L5, L6, L7.
  destruct (effects_with_rest tr false false false v2) as (R1 & R2 & _).
  cbn zeta in R1, R2.
  rewrite L5, L3, L6, L7, R1, R2, J5, J3, J6, J7, I5, I3, I7, E1, E2.
  repeat split; reflexivity.
Qed.

Lemma query_opens_all_view_witness :
  let v := run (Relay true) (mount (Relay true) "k") [Input " cat & dog "] in
  let v' := handle (Relay true) v DebounceTimer in
  (mounted v = true /\ mode v = Categories /\ timer v = Some " cat & dog " /\
   trim " cat & dog " <> "" /\ trim " cat & dog " <> debouncedQuery v /\
   apiKey v <> "") /\
  mode v' = All /\ debouncedQuery v' = "cat & dog" /\ loading v' = true /\
  map r_url (inflight v')
  = ["https://www.midevelopment.de/api/gifs?q=cat+%26+dog&limit=20&page=1&nsfw=false&visibility=published"].
Proof.
  cbn zeta.
  set (v := run (Relay true) (mount (Relay true) "k") [Input " cat & dog "]).
  assert (mounted v = true) as H1 by (vm_compute; reflexivity).
  assert (mode v = Categories) as H2 by (vm_compute; reflexivity).
  assert (timer v = Some " cat & dog ") as H3 by (vm_compute; reflexivity).
  assert (trim " cat & dog " <> "") as H4 by (vm_compute; discriminate).
  assert (trim " cat & dog " <> debouncedQuery v) as H5 by (vm_compute; discriminate).
  assert (apiKey v <> "") as H6 by (vm_compute; discriminate).
  destruct (query_opens_all_view v " cat & dog " H1 H2 H3 H4 H5 H6)
    as (G1 & G2 & _ & _ & G5 & G6).
  split; [exact (conj H1 (conj H2 (conj H3 (conj H4 (conj H5 H6)))))|].
  split; [exact G1|]. split; [rewrite G2; vm_compute; reflexivity|].
  split; [exact G5|]. rewrite G6. vm_compute. reflexivity.
Defined.

(** X14: the load-more button of the picker tab, which is shown
    when nothing loads and there is more (and, in the second generation,
    outside the categories view): with a key set, it moves to the next
    page, keeps the items shown and issues one request, for that page;
    the view is loading from then on, so a second press before the
    answer does nothing. *)
Theorem load_more_once (tr : transport) (v : view) :
  mounted v = true -> loading v = false -> hasMore v = true -> apiKey v <> "" ->
  tr = Direct \/ mode v <> Categories ->
  let v' := handle tr v LoadMore in
  page v' = (page v + 1)%Z /\ loading v' = true /\ items v' = items v /\
  (exists r, inflight v' = (inflight v ++ [r])%list /\
             r_page r = (page v + 1)%Z /\ r_controller r = controllers v /\
             Http.headers (r_options r) = [("X-API-Key", apiKey v)]) /\
  handle tr v' LoadMore = v'.
Proof.
  intros Hm Hl Hmore Hk Hshown. cbn zeta.
  assert (forall w, mounted w = true -> loading w = true -> handle tr w LoadMore = w) as Hidle.
  { intros w Hmw Hlw. unfold handle. by rewrite Hmw, Hlw. }
  set (v0 := update v (apiKey v) (query v) (debouncedQuery v) (mode v) (selectedListId v)
               (page v + 1)%Z).
  assert (handle tr v LoadMore = commit tr v v0) as ->
    by (unfold handle; by rewrite Hm, Hl, Hmore).
  unfold commit.
  rewrite (effects_flags tr v v0 false false false true); cycle 1.
  { by rewrite bool_decide_eq_true_2. }
  { by rewrite bool_decide_eq_true_2. }
  { unfold switch_deps. cbn. rewrite bool_decide_eq_true_2 by done.
    by rewrite andb_false_r. }
  { rewrite bool_decide_eq_false_2; [done|]. unfold fetch_deps. cbn.
    intros [= H]. lia. }
  set (v1 := effects_with tr false false false true v0).
  destruct (effects_with_inputs tr false false false true v0)
    as (I1 & I2 & I3 & I4 & I5 & I6 & I7 & I8). cbn zeta in I1, I2, I3, I4, I5, I6, I7, I8.
  fold v1 in I1, I2, I3, I4, I5, I6, I7, I8.
  destruct (effects_with_issues tr false false false v0) as (E1 & E2 & _ & E4).
  { exact Hk. }
  { exact Hshown. }
  cbn zeta in E1, E2, E4. fold v1 in E1, E2, E4.
  rewrite (effects_flags tr v0 v1 false false false false); cycle 1.
  { by rewrite I2, bool_decide_eq_true_2. }
  { unfold reset_deps. by rewrite I1, I3, I4, I5, bool_decide_eq_true_2. }
  { unfold switch_deps. rewrite I3, I5, bool_decide_eq_true_2 by done.
    by rewrite andb_false_r. }
  { unfold fetch_deps. by rewrite I1, I3, I4, I5, I6, bool_decide_eq_true_2. }
  set (v2 := effects_with tr false false false false v1).
  destruct (effects_with_inputs tr false false false false v1)
    as (J1 & J2 & J3 & J4 & J5 & J6 & J7 & J8). cbn zeta in J1, J2, J3, J4, J5, J6, J7, J8.
  fold v2 in J1, J2, J3, J4, J5, J6, J7, J8.
  destruct (effects_with_rest tr false false false v1) as (R1 & R2 & R3 & _).
  cbn zeta in R1, R2, R3. fold v2 in R1, R2, R3.
  rewrite (effects_flags tr v1 v2 false false false false); cycle 1.
  { by rewrite J2, bool_decide_eq_true_2. }
  { unfold reset_deps. by rewrite J1, J3, J4, J5, bool_decide_eq_true_2. }
  { unfold switch_deps. rewrite J3, J5, bool_decide_eq_true_2 by done.
    by rewrite andb_false_r. }
  { unfold fetch_deps. by rewrite J1, J3, J4, J5, J6, bool_decide_eq_true_2. }
  set (v3 := effects_with tr false false false false v2).
  destruct (effects_with_inputs tr false false false false v2)
    as (L1 & L2 & L3 & L4 & L5 & L6 & L7 & L8). cbn zeta in L1, L2, L3, L4, L5, L6, L7, L8.
  fold v3 in L1, L2, L3, L4, L5, L6, L7, L8.
  destruct (effects_with_rest tr false false false v2) as (S1 & S2 & S3 & _).
  cbn zeta in S1, S2, S3. fold v3 in S1, S2, S3.
  split; [rewrite L6, J6, I6; reflexivity|].
  split; [rewrite S2, R2; exact E2|].
  split; [rewrite S3, R3, E4; reflexivity|].
  split.
  - eexists. split; [rewrite S1, R1; exact E1|]. by repeat split.
  - apply Hidle; [rewrite L8, J8, I8; exact Hm | rewrite S2, R2; exact E2].
Qed.

Lemma load_more_once_witness :
  let v := settle Direct (mount Direct "k") (Examples.request_of Direct 0 1)
             (Ok (Examples.listing_more [JStr "first"])) in
  let v' := handle Direct v LoadMore in
  (mounted v = true /\ loading v = false /\ hasMore v = true /\ apiKey v <> "") /\
  page v' = 2%Z /\ loading v' = true /\ items v' = [JStr "first"] /\
  handle Direct v' LoadMore = v'.
Proof.
  cbn zeta.
  set (v := settle Direct (mount Direct "k") (Examples.request_of Direct 0 1)
              (Ok (Examples.listing_more [JStr "first"]))).
  assert (mounted v = true) as H1 by (vm_compute; reflexivity).
  assert (loading v = false) as H2 by (vm_compute; reflexivity).
  assert (hasMore v = true) as H3 by (vm_compute; reflexivity).
  assert (apiKey v <> "") as H4 by (vm_compute; discriminate).
  destruct (load_more_once Direct v H1 H2 H3 H4 (or_introl eq_refl))
    as (G1 & G2 & G3 & _ & G5).
  split; [exact (conj H1 (conj H2 (conj H3 H4)))|].
  split; [rewrite G1; vm_compute; reflexivity|]. split; [exact G2|].
  split; [rewrite G3; vm_compute; reflexivity|]. exact G5.
Defined.

End ModeFacts.

Module BaseUrlFacts.
Import ChatBar.

Lemma app_slash_cons b : exists c s, b +:+ "/" = String c s.
Proof. destruct b as [|c b]; [by exists "/"%char, "" | by exists c, (b +:+ "/")]. Qed.

Lemma last_is_slash b : last_is "/" (b +:+ "/") = true.
Proof.
  induction b as [|c b IH]; [reflexivity|].
  change (String c b +:+ "/") with (String c (b +:+ "/")).
  destruct (app_slash_cons b) as (x & y & E). rewrite E in IH |- *. exact IH.
Qed.

Lemma drop_last_slash b : drop_last (b +:+ "/") = b.
Proof.
  induction b as [|c b IH]; [reflexivity|].
  change (String c b +:+ "/") with (String c (b +:+ "/")).
  destruct (app_slash_cons b) as (x & y & E). rewrite E in IH |- *.
  change (drop_last (String c (String x y))) with (String c (drop_last (String x y))).
  by rewrite IH.
Qed.

(** X15: the base URL the chat-bar plugin uses: in debug mode always
    the local backend, whatever the setting; with an empty setting the
    production host without its final slash; a setting that ends with a
    slash loses exactly that slash; any other setting is used as it is. *)
Theorem resolveBaseUrl_cases :
  (forall baseUrl, resolveBaseUrl baseUrl true = "http://127.0.0.1:8000") /\
  resolveBaseUrl "" false = "https://www.midevelopment.de" /\
  (forall b, resolveBaseUrl (b +:+ "/") false = b) /\
  (forall baseUrl, baseUrl <> "" -> last_is "/" baseUrl = false ->
                   resolveBaseUrl baseUrl false = baseUrl).
Proof.
  split; [reflexivity|]. split; [reflexivity|]. split.
  - intros b. unfold resolveBaseUrl.
    destruct (app_slash_cons b) as (x & y & E).
    assert (truthy_string (b +:+ "/") = true) as -> by (by rewrite E).
    by rewrite last_is_slash, drop_last_slash.
  - intros b Hne Hl. unfold resolveBaseUrl.
    assert (truthy_string b = true) as -> by (by destruct b).
    by rewrite Hl.
Qed.

End BaseUrlFacts.

Module SearchFacts.
Import ChatBar ChatBarFacts.

Lemma settled_failure m r net err :
  mounted m = true -> apiGet net = Throw err ->
  let m' := search_settled r net m in
  searchResults m' = searchResults m /\ searchPage m' = searchPage m /\
  searchHasMore m' = searchHasMore m /\ searchLoading m' = false /\
  searchError m' = Some (message_or (fun _ => "Search failed") err).
Proof.
  intros Hm He. cbn zeta. unfold search_settled. rewrite Hm, He. by cbn.
Qed.

(** X16: the two ways a search of the chat-bar modal fails. When
    [apiGet] throws (the fetch rejects, the response is not a success, or
    its body is not JSON) the results, the page and the has-more flag
    stay as they are, also for a search of the first page, and the
    loading flag is cleared; the error shown is the [detail] of the body
    of a response that is not a success when that is a string that is not
    empty, "Request failed (status)" when its body is not JSON and cannot
    be read again, the message of a rejection with an [Error] and "Search
    failed" for any other rejection. When the response is a success whose
    body has the items but no [pagination], [runSearch] fails after it
    has updated the results: they are replaced or appended as for a
    success, the page and the has-more flag stay, the loading flag is
    cleared and the error shown is the message of the [TypeError]. *)
Theorem search_failures (m : modal) (r : search_request) :
  mounted m = true ->
  (forall net err, apiGet net = Throw err ->
     let m' := search_settled r net m in
     searchResults m' = searchResults m /\ searchPage m' = searchPage m /\
     searchHasMore m' = searchHasMore m /\ searchLoading m' = false) /\
  (forall res body data n,
     Http.ok res = true -> Http.body_json res = Ok body ->
     as_response body = Some data -> pagination data = Unpaged n ->
     let m' := search_settled r (Ok (Reply res data)) m in
     searchResults m' = (if sr_replace r then items data
                         else (searchResults m ++ items data)%list) /\
     searchPage m' = searchPage m /\ searchHasMore m' = searchHasMore m /\
     searchLoading m' = false /\
     searchError m' =
     Some ("Cannot read properties of "
           +:+ (match n with Undefined => "undefined" | Null => "null" end)
           +:+ " (reading 'page')")) /\
  (forall res data fields d, Http.ok res = false ->
     Http.body_json res = Ok (JObj fields) ->
     field "detail" fields = Some (JStr d) -> d <> "" ->
     searchError (search_settled r (Ok (Reply res data)) m) = Some d) /\
  (forall res data t t', Http.ok res = false ->
     Http.body_json res = Throw t -> Http.body_text_after res = Throw t' ->
     searchError (search_settled r (Ok (Reply res data)) m)
     = Some ("Request failed (" +:+ string_of_Z (Http.status res) +:+ ")")) /\
  (forall message,
     searchError (search_settled r (Throw (ErrorObj message)) m) = Some message) /\
  (forall rendering,
     searchError (search_settled r (Throw (OtherValue rendering)) m)
     = Some "Search failed").
Proof.
  intros Hm.
  assert (forall res (data : GifListResponse), Http.ok res = false ->
            apiGet (Ok (Reply res data)) = Throw (ErrorObj (parseErrorResponse res)))
    as Hget by (intros res data Hok; unfold apiGet; cbn; by rewrite Hok).
  split; [|split; [|split; [|split; [|split]]]].
  - intros net err He. destruct (settled_failure m r net err Hm He) as (H1 & H2 & H3 & H4 & _).
    by repeat split.
  - intros res body data n Hok Hb _ Hp. cbn zeta. unfold search_settled.
    rewrite Hm. cbn [negb]. unfold apiGet. cbn. rewrite Hok, Hb. cbn. rewrite Hp.
    by destruct n.
  - intros res data fields d Hok Hb Hd Hne.
    destruct (settled_failure m r _ _ Hm (Hget res data Hok)) as (_ & _ & _ & _ & ->).
    cbn. unfold parseErrorResponse. rewrite Hb. cbn. rewrite Hd. cbn.
    assert (truthy_string d = true) as ->; [|done].
    unfold truthy_string. apply negb_true_iff, String.eqb_neq. exact Hne.
  - intros res data t t' Hok Hj Ht.
    destruct (settled_failure m r _ _ Hm (Hget res data Hok)) as (_ & _ & _ & _ & ->).
    cbn. unfold parseErrorResponse. by rewrite Hj, Ht.
  - intros message.
    by destruct (settled_failure m r (Throw (ErrorObj message)) (ErrorObj message) Hm eq_refl)
      as (_ & _ & _ & _ & ->).
  - intros rendering.
    by destruct (settled_failure m r (Throw (OtherValue rendering)) (OtherValue rendering)
                   Hm eq_refl) as (_ & _ & _ & _ & ->).
Qed.

Lemma search_failures_witness :
  let m := Examples.modal_with_preview in
  let r := Examples.search_for "cat" in
  let bare := JObj [("items", JArr [Examples.item_json Examples.gif_b])] in
  let data := {| items := [Examples.gif_b]; pagination := Unpaged Undefined |} in
  let m1 := search_settled r (Ok (Reply Examples.unavailable (Examples.one_page []))) m in
  let m2 := search_settled r (Ok (Reply (Examples.json_response 200 "OK" bare) data)) m in
  (mounted m = true /\ as_response bare = Some data) /\
  searchResults m = [Examples.gif_a] /\
  searchResults m1 = [Examples.gif_a] /\
  searchResults m2 = [Examples.gif_b] /\
  searchError m2 = Some "Cannot read properties of undefined (reading 'page')".
Proof.
  cbn zeta.
  assert (mounted Examples.modal_with_preview = true) as Hm by (vm_compute; reflexivity).
  assert (as_response (JObj [("items", JArr [Examples.item_json Examples.gif_b])])
          = Some {| items := [Examples.gif_b]; pagination := Unpaged Undefined |}) as Hv
    by (vm_compute; reflexivity).
  destruct (search_failures Examples.modal_with_preview
              (Examples.search_for "cat") Hm) as (H1 & H2 & _).
  split; [exact (conj Hm Hv)|]. split; [vm_compute; reflexivity|]. split.
  - destruct (H1 (Ok (Reply Examples.unavailable (Examples.one_page [])))
                (ErrorObj "Request failed (503)")) as (E & _); [vm_compute; reflexivity|].
    cbn zeta in E. rewrite E. vm_compute. reflexivity.
  - destruct (H2 (Examples.json_response 200 "OK"
                    (JObj [("items", JArr [Examples.item_json Examples.gif_b])]))
                _ _ Undefined eq_refl eq_refl Hv eq_refl) as (E1 & _ & _ & _ & E2).
    cbn zeta in E1, E2. split; [rewrite E1; vm_compute; reflexivity | exact E2].
Defined.



End SearchFacts.

Module CommitFacts.
Import ChatBar ChatBarFacts Shapes.

Lemma effects_with_idle m : effects_with false false false false m = m.
Proof. reflexivity. Qed.

(** A commit in which no dependency of an effect has changed. *)
Lemma commit_idle old m :
  previewUrls old = previewUrls m -> search_deps old = search_deps m ->
  commit false old m = m.
Proof.
  intros Hp Hs. unfold commit.
  assert (credentials old = credentials m /\ mode old = mode m) as [Hc Hmd]
    by (unfold search_deps in Hs; split; congruence).
  rewrite (effects_eq false false old m false false false false); cycle 1.
  - unfold previews_changed. by rewrite bool_decide_eq_true_2.
  - unfold search_changed. by rewrite bool_decide_eq_true_2.
  - unfold credentials_changed. by rewrite bool_decide_eq_true_2.
  - unfold mode_changed. by rewrite bool_decide_eq_true_2.
  - cbn [orb andb effects_with].
    rewrite (effects_eq false false m m false false false false); cycle 1.
    + unfold previews_changed. by rewrite bool_decide_eq_true_2.
    + unfold search_changed. by rewrite bool_decide_eq_true_2.
    + unfold credentials_changed. by rewrite bool_decide_eq_true_2.
    + unfold mode_changed. by rewrite bool_decide_eq_true_2.
    + reflexivity.
Qed.

(** X18: the load-more button of the chat-bar modal in search mode
    issues one search, for the page after the current one and the trimmed
    query, that appends; it marks the search as loading, so that a second
    press before the answer does nothing. *)
Theorem modal_load_more (m : modal) :
  mounted m = true -> mode m = Search -> searchHasMore m = true ->
  searchLoading m = false ->
  let m' := handle m LoadMore in
  searches m' =
  (searches m ++ [{| sr_query := trim (query m); sr_page := (searchPage m + 1)%Z;
                     sr_replace := false; sr_base := apiBaseUrl m;
                     sr_key := apiKey m |}])%list /\
  searchLoading m' = true /\ searchError m' = None /\
  searchResults m' = searchResults m /\
  handle m' LoadMore = m'.
Proof.
  intros Hm Hmd Hmore Hload. cbn zeta.
  assert (handle m LoadMore = runSearch (trim (query m)) (searchPage m + 1)%Z false m) as ->.
  { unfold handle. rewrite Hm, Hmore, Hload. cbn [negb andb].
    rewrite bool_decide_eq_true_2 by done. cbn [andb].
    by apply commit_idle. }
  repeat split.
  unfold handle. cbn [mounted runSearch set_host set_search searchLoading searchHasMore mode].
  rewrite Hm. cbn [negb]. by rewrite andb_false_r.
Qed.

Lemma modal_load_more_witness :
  let m := search_settled (Examples.search_for "cat")
             (Ok (Reply (Examples.json_response 200 "OK"
                           (JObj [("items", JArr [Examples.item_json Examples.gif_a]);
                                  ("pagination",
                                   JObj [("page", JNum 1); ("per_page", JNum 30);
                                         ("has_more", JBool true);
                                         ("next_page", JNum 2)])]))
                    {| items := [Examples.gif_a];
                       pagination := Paged {| page := 1; per_page := 30;
                                              has_more := true;
                                              next_page := Some 2%Z |} |}))
             (run Examples.modal_opened [SetQuery " cat "; SearchTimer]) in
  let m' := handle m LoadMore in
  (mounted m = true /\ mode m = Search /\ searchHasMore m = true /\
   searchLoading m = false) /\
  map (fun r => (sr_query r, sr_page r, sr_replace r)) (searches m') = [("cat", 2%Z, false)] /\
  handle m' LoadMore = m'.
Proof.
  cbn zeta.
  set (m := search_settled _ _ _).
  assert (mounted m = true) as H1 by (vm_compute; reflexivity).
  assert (mode m = Search) as H2 by (vm_compute; reflexivity).
  assert (searchHasMore m = true) as H3 by (vm_compute; reflexivity).
  assert (searchLoading m = false) as H4 by (vm_compute; reflexivity).
  destruct (modal_load_more m H1 H2 H3 H4) as (G1 & _ & _ & _ & G5).
  split; [exact (conj H1 (conj H2 (conj H3 H4)))|]. split; [|exact G5].
  rewrite G1. vm_compute. reflexivity.
Defined.

Lemma preview_search_frame m :
  let m' := preview_effect (search_effect m) in
  previewUrls m' = previewUrls m /\ credentials m' = credentials m /\
  query m' = query m /\ mode m' = mode m.
Proof.
  destruct (search_effect_frame m) as (Hp & Hc & Hq & Hmd & _).
  cbn zeta. unfold preview_effect, credentials, apiBaseUrl in *. cbn.
  by repeat split.
Qed.

(** X19: switching the chat-bar modal to the lists while the search
    is debouncing clears the timer, so the search is not issued; coming
    back to the search mode sets the timer again for the trimmed query
    when it is not blank. *)
Theorem lists_mode_cancels_search (m : modal) :
  mounted m = true -> mode m = Search ->
  let m' := handle m (SetMode Lists) in
  mode m' = Lists /\ timer m' = None /\ searches m' = searches m /\
  searchResults m' = searchResults m /\
  handle m' SearchTimer = m' /\
  (trim (query m) <> "" ->
   timer (handle m' (SetMode Search)) = Some (trim (query m))).
Proof.
  intros Hm Hmd. cbn zeta.
  assert (forall t m0, mounted m0 = true -> mode m0 <> t ->
            let m2 := preview_effect (search_effect
                        (set_input (apiKey m0) (baseUrl m0) (useLocalDebug m0) t (query m0) m0)) in
            handle m0 (SetMode t) = m2 \/ handle m0 (SetMode t) = preview_effect m2) as Hset.
  { intros t m0 Hm0 Hne. cbn zeta. unfold handle. rewrite Hm0. cbn [negb]. unfold commit.
    set (m1 := set_input _ _ _ _ _ _).
    rewrite (effects_eq false false m0 m1 false true false true); cycle 1.
    - unfold previews_changed. by rewrite bool_decide_eq_true_2.
    - unfold search_changed, search_deps. rewrite bool_decide_eq_false_2; [done|].
      cbn. congruence.
    - unfold credentials_changed. by rewrite bool_decide_eq_true_2.
    - unfold mode_changed. by rewrite bool_decide_eq_false_2.
    - cbn [orb effects_with].
      destruct (preview_search_frame m1) as (Hp & Hc & Hq & Hmd1).
      set (m2 := preview_effect (search_effect m1)) in *.
      set (again := _ && _ && _).
      rewrite (effects_eq false again m1 m2 false false false false); cycle 1.
      + unfold previews_changed. by rewrite Hp, bool_decide_eq_true_2.
      + unfold search_changed, search_deps. by rewrite Hc, Hq, Hmd1, bool_decide_eq_true_2.
      + unfold credentials_changed. by rewrite Hc, bool_decide_eq_true_2.
      + unfold mode_changed. by rewrite Hmd1, bool_decide_eq_true_2.
      + destruct again; [right | left]; reflexivity. }
  assert (forall t m0,
            let m2 := preview_effect (search_effect
                        (set_input (apiKey m0) (baseUrl m0) (useLocalDebug m0) t (query m0) m0)) in
            forall m3, m3 = m2 \/ m3 = preview_effect m2 ->
            mode m3 = t /\ searches m3 = searches m0 /\ mounted m3 = mounted m0 /\
            query m3 = query m0 /\
            timer m3 = (match t with
                        | Lists => None
                        | Search => if truthy_string (trim (query m0))
                                    then Some (trim (query m0)) else None
                        end) /\
            (t = Lists -> searchResults m3 = searchResults m0)) as Hfields.
  { intros t m0 m2 m3 H3.
    assert (mode m2 = t /\ searches m2 = searches m0 /\ mounted m2 = mounted m0 /\
            query m2 = query m0 /\
            timer m2 = (match t with
                        | Lists => None
                        | Search => if truthy_string (trim (query m0))
                                    then Some (trim (query m0)) else None
                        end) /\
            (t = Lists -> searchResults m2 = searchResults m0)) as H2.
    { subst m2. unfold search_effect. cbn [mode set_host set_input query].
      destruct t; [destruct (truthy_string (trim (query m0)))|]; cbn; by repeat split. }
    destruct H3 as [-> | ->]; [exact H2|]. exact H2. }
  assert (mode m <> Lists) as Hne by (rewrite Hmd; discriminate).
  pose proof (Hset Lists m Hm Hne) as H1. cbn zeta in H1.
  destruct (Hfields Lists m _ H1) as (F1 & F2 & F3 & F4 & F5 & F6).
  set (m' := handle m (SetMode Lists)) in *.
  split; [exact F1|]. split; [exact F5|]. split; [exact F2|].
  split; [by apply F6|]. split.
  - unfold handle. rewrite F3, Hm, F5. reflexivity.
  - intros Hq.
    assert (mounted m' = true) as Hm' by (by rewrite F3).
    assert (mode m' <> Search) as Hne' by (rewrite F1; discriminate).
    pose proof (Hset Search m' Hm' Hne') as H2. cbn zeta in H2.
    destruct (Hfields Search m' _ H2) as (_ & _ & _ & _ & G5 & _).
    rewrite G5, F4. apply String.eqb_neq in Hq. unfold truthy_string. by rewrite Hq.
Qed.

Lemma lists_mode_cancels_search_witness :
  let m := run Examples.modal_opened [SetQuery " cat "] in
  let m' := handle m (SetMode Lists) in
  (mounted m = true /\ mode m = Search) /\
  timer m = Some "cat" /\ timer m' = None /\ handle m' SearchTimer = m' /\
  timer (handle m' (SetMode Search)) = Some "cat".
Proof.
  cbn zeta.
  set (m := run Examples.modal_opened [SetQuery " cat "]).
  assert (mounted m = true) as H1 by (vm_compute; reflexivity).
  assert (mode m = Search) as H2 by (vm_compute; reflexivity).
  destruct (lists_mode_cancels_search m H1 H2) as (_ & G2 & _ & _ & G5 & G6).
  split; [exact (conj H1 H2)|]. split; [vm_compute; reflexivity|].
  split; [exact G2|]. split; [exact G5|].
  rewrite G6; [vm_compute; reflexivity | vm_compute; discriminate].
Defined.

End CommitFacts.

Module SyncFacts.
Import ChatBar ChatBarFacts Shapes CommitFacts.










End SyncFacts.
